(** * Route planning and live tracking of [NavigationContext.tsx]

    A shallow embedding of the navigation provider
    (src/contexts/NavigationContext.tsx): waypoint selection, priority
    sorting, greedy sequencing, route assembly and the navigation state
    operations, followed by the properties of the specification.

    Conventions of the embedding.
    - A JavaScript [number] is a rational ([Q]): arithmetic is exact, every
      number is finite.  Equalities between computed numbers are therefore
      stated with [==] ([Qeq]); the rounding of IEEE doubles is not modelled.
    - [calculateDistance] comes from the location provider (a haversine
      formula built on [Math.sin], [Math.cos] and [Math.atan2]); the
      navigation code only calls it, so it is a variable of the section.
    - [memories] (memory provider) and [userProfile] (user provider) are the
      values the hooks return for the render under consideration.
    - Every operation of the provider is a closure over [navigationState],
      the state of the render that created it, and updates the state through
      [setNavigationState (prevState => ...)].  Both states are explicit
      arguments: [navigationState] is what the closure reads, [prevState] is
      what the functional update receives.  An event handled on a freshly
      rendered provider has [prevState = navigationState] ([fire]).
    - A call either returns or throws: [outcome].
    - A string is the sequence of the bytes of its UTF-8 encoding, as the
      string literals of this file are; a character outside ASCII takes
      several characters of the Rocq [string].
    - A [Date] is its time value, a whole number of milliseconds, or an
      invalid date: [JsDate]. *)

From Stdlib Require Import List Bool Arith ZArith Lia QArith Qabs Qround Lqa.
From Stdlib Require Import String Ascii DecimalString.
From Stdlib Require Import Permutation Sorted.
Import ListNotations.

Local Open Scope Q_scope.

(** ** Data model *)

Record Coordinates : Type := mkCoordinates {
  latitude : Q;
  longitude : Q
}.

(** [Memory] of MemoryContext.tsx; the fields the navigation code never reads
    (userId, description, date, tags, photos, ...) are left out. *)
Record Memory : Type := mkMemory {
  id : string;
  title : string;
  location : Coordinates;
  importance : Q
}.

Record RouteStep : Type := mkRouteStep {
  step_distance : Q;
  step_duration : Q;
  step_startLocation : Coordinates;
  step_endLocation : Coordinates;
  instruction : string
}.

Record RouteLeg : Type := mkRouteLeg {
  leg_distance : Q;
  leg_duration : Q;
  leg_startLocation : Coordinates;
  leg_endLocation : Coordinates;
  steps : list RouteStep
}.

Record MemoryWaypoint : Type := mkMemoryWaypoint {
  memory : Memory;
  distanceFromRoute : Q;
  detourTime : Q;
  waypointIndex : nat
}.

Record Route : Type := mkRoute {
  distance : Q;
  duration : Q;
  legs : list RouteLeg;
  memoryWaypoints : list MemoryWaypoint
}.

(** A [Date]: its time value in whole milliseconds, or an invalid date
    (time value [NaN]). *)
Inductive JsDate : Type :=
| DateAt (ms : Z)
| InvalidDate.

Record NavigationState : Type := mkNavigationState {
  origin : option Coordinates;
  destination : option Coordinates;
  currentRoute : option Route;
  alternativeRoutes : list Route;
  activeNavigation : bool;
  currentStepIndex : nat;
  upcomingMemory : option Memory;
  distanceToNextMemory : option Q;
  navigationStartTime : option JsDate;
  estimatedArrivalTime : option JsDate;
  travelledDistance : Q
}.

Definition defaultNavigationState : NavigationState :=
  {| origin := None;
     destination := None;
     currentRoute := None;
     alternativeRoutes := [];
     activeNavigation := false;
     currentStepIndex := 0;
     upcomingMemory := None;
     distanceToNextMemory := None;
     navigationStartTime := None;
     estimatedArrivalTime := None;
     travelledDistance := 0 |}.

(** [navigationPreferences] of the user profile (UserContext.tsx). *)
Record NavigationPreferences : Type := mkNavigationPreferences {
  maxDetourTime : Q;
  transportationMode : string
}.

(** A JavaScript call returns a value or throws: an [Error] with the message
    the code gives it, or an error that the engine raises, recorded by the
    name of its class ([TypeError]) in place of the engine's message. *)
Inductive outcome (A : Type) : Type :=
| Returned (a : A)
| Thrown (msg : string).
Arguments Returned {A} a.
Arguments Thrown {A} msg.

Definition bind {A B : Type} (m : outcome A) (k : A -> outcome B) : outcome B :=
  match m with
  | Returned a => k a
  | Thrown msg => Thrown msg
  end.

(** [try { m } catch (error) { throw new Error(msg) }] *)
Definition rethrow {A : Type} (msg : string) (m : outcome A) : outcome A :=
  match m with
  | Returned a => Returned a
  | Thrown _ => Thrown msg
  end.

(** ** TransportModel *)

(** The lower case of an ASCII character: the letters A to Z move up by 32,
    every other ASCII character is its own lower case.  A byte from 128 on
    is part of the encoding of a character outside ASCII and is kept. *)
Definition lowerAscii (c : ascii) : ascii :=
  let n := nat_of_ascii c in
  if andb (65 <=? n)%nat (n <=? 90)%nat then ascii_of_nat (n + 32) else c.

(** The three bytes E2 84 AA that encode U+212A KELVIN SIGN. *)
Definition isKelvinSign (c1 c2 c3 : ascii) : bool :=
  andb (nat_of_ascii c1 =? 226)%nat
       (andb (nat_of_ascii c2 =? 132)%nat (nat_of_ascii c3 =? 170)%nat).

Definition startsWithKelvinSign (s : string) : bool :=
  match s with
  | String c1 (String c2 (String c3 _)) => isKelvinSign c1 c2 c3
  | _ => false
  end.

(** [String.prototype.toLowerCase], as far as the code can observe it: the
    result is only compared with mode names written in ASCII.  The lower
    case is spelled out for the characters that lower-case to an ASCII
    letter, which are the letters A to Z and U+212A KELVIN SIGN (to [k]).
    The other characters outside ASCII are kept: Unicode lower-cases some of
    them, but always to characters outside ASCII (U+0130 to [i] followed by
    U+0307), so that a string holding one of them equals no mode name before
    or after. *)
Fixpoint toLowerCase (s : string) : string :=
  match s with
  | EmptyString => EmptyString
  | String c1 r1 =>
      match r1 with
      | String c2 (String c3 r3) =>
          if isKelvinSign c1 c2 c3 then String "k" (toLowerCase r3)
          else String (lowerAscii c1) (toLowerCase r1)
      | _ => String (lowerAscii c1) (toLowerCase r1)
      end
  end.

(** Metres per second. *)
Definition getBaseSpeedForMode (mode : string) : Q :=
  let m := toLowerCase mode in
  if String.eqb m "walking" then 14 # 10
  else if String.eqb m "bicycling" then 42 # 10
  else if String.eqb m "transit" then 83 # 10
  else 139 # 10.

Definition coordOf (m : Memory) : Coordinates :=
  {| latitude := latitude (location m); longitude := longitude (location m) |}.

(** [a.memory.importance * 10 - a.detourTime * 5] *)
Definition score (w : MemoryWaypoint) : Q :=
  importance (memory w) * 10 - detourTime w * 5.

(** The comparator handed to [Array.prototype.sort]. *)
Definition compareByPriority (a b : MemoryWaypoint) : Q := score b - score a.

(** [Array.prototype.sort] is a stable sort (ECMAScript 2019); with a
    comparator that is a consistent ordering, as [compareByPriority] is on
    finite numbers, its result is the one of a stable insertion: [a], which
    stood before the elements of [l], stays before those it does not
    compare greater than. *)
Fixpoint insertByPriority (a : MemoryWaypoint) (l : list MemoryWaypoint)
  : list MemoryWaypoint :=
  match l with
  | [] => [a]
  | b :: r =>
      if Qle_bool (compareByPriority a b) 0 then a :: b :: r
      else b :: insertByPriority a r
  end.

Definition sortWaypointsByPriority (waypoints : list MemoryWaypoint)
  : list MemoryWaypoint :=
  fold_right insertByPriority [] waypoints.

(** [result.map((waypoint, index) => ({ ...waypoint, waypointIndex: index }))] *)
Fixpoint reindexFrom (index : nat) (l : list MemoryWaypoint) : list MemoryWaypoint :=
  match l with
  | [] => []
  | w :: r =>
      {| memory := memory w;
         distanceFromRoute := distanceFromRoute w;
         detourTime := detourTime w;
         waypointIndex := index |} :: reindexFrom (S index) r
  end.

(** [unvisited.splice(i, 1)]: the array without its element [i]. *)
Fixpoint removeAt {A : Type} (i : nat) (l : list A) : list A :=
  match l, i with
  | [], _ => []
  | _ :: r, O => r
  | x :: r, S i' => x :: removeAt i' r
  end.

(** The two loops of [findUpcomingMemory]. *)
Fixpoint findLegOfStep (currentStepIndex stepCount i : nat) (ls : list RouteLeg) : nat :=
  match ls with
  | [] => 0%nat
  | leg :: r =>
      let stepCount' := (stepCount + List.length (steps leg))%nat in
      if (currentStepIndex <? stepCount')%nat then i
      else findLegOfStep currentStepIndex stepCount' (S i) r
  end.

Fixpoint firstWaypointFrom (currentLegIndex : nat) (ws : list MemoryWaypoint)
  : option Memory :=
  match ws with
  | [] => None
  | w :: r =>
      if (currentLegIndex <=? waypointIndex w)%nat then Some (memory w)
      else firstWaypointFrom currentLegIndex r
  end.

Definition findUpcomingMemory (route : Route) (currentStepIndex : nat) : option Memory :=
  match memoryWaypoints route with
  | [] => None
  | _ =>
      let currentLegIndex := findLegOfStep currentStepIndex 0 0 (legs route) in
      firstWaypointFrom currentLegIndex (memoryWaypoints route)
  end.

(** [route.legs.reduce((total, leg) => total + leg.steps.length, 0)] *)
Definition totalSteps (route : Route) : nat :=
  fold_left (fun total leg => (total + List.length (steps leg))%nat) (legs route) 0%nat.

(** The flattened step sequence of a route. *)
Definition flatSteps (route : Route) : list RouteStep :=
  flat_map steps (legs route).

(** Sum of the leg distances, accumulated from 0 in leg order. *)
Definition sumLegDistances (ls : list RouteLeg) : Q :=
  fold_left (fun acc leg => acc + leg_distance leg) ls 0.

(** [Math.round]: the nearest integer, halves going up. *)
Definition mathRound (x : Q) : Z := Qfloor (x + (1 # 2)).

(** A string without the zeros at its end. *)
Fixpoint stripTrailingZeros (s : string) : string :=
  match s with
  | EmptyString => EmptyString
  | String c r =>
      match stripTrailingZeros r with
      | EmptyString => if Ascii.eqb c "0" then EmptyString else String c EmptyString
      | kept => String c kept
      end
  end.

(** An integer as a template literal prints it ([Number::toString]): its
    decimal digits below 1e21, and from 1e21 on the exponent form, which is
    the first significant digit, the other significant digits after a point
    if there are any, and [e+] with the power of ten of the first digit. *)
Definition showInteger (z : Z) : string :=
  let sign := if (z <? 0)%Z then "-"%string else EmptyString in
  let digits := DecimalString.NilZero.string_of_int (Z.to_int (Z.abs z)) in
  if (Z.abs z <? 10 ^ 21)%Z then (sign ++ digits)%string
  else
    let exponent :=
      DecimalString.NilZero.string_of_uint (Nat.to_uint (String.length digits - 1)) in
    match stripTrailingZeros digits with
    | EmptyString => (sign ++ digits)%string
    | String first EmptyString =>
        (sign ++ String first EmptyString ++ "e+" ++ exponent)%string
    | String first others =>
        (sign ++ String first EmptyString ++ "." ++ others ++ "e+" ++ exponent)%string
    end.

(** Helper to create simulated navigation steps: one straight-line step. *)
Definition createSimulatedSteps (start finish : Coordinates) (distance duration : Q)
  : list RouteStep :=
  [ {| step_distance := distance;
       step_duration := duration;
       step_startLocation := start;
       step_endLocation := finish;
       instruction :=
         ("Travel " ++ showInteger (mathRound distance) ++ " meters to the next point")%string |} ].

(** The loops of [findCurrentStep] that locate the current leg and step.
    [scanSteps] is the inner loop over one leg: it returns the step counter
    and the step index [j] at which it stopped, if it did. *)
Fixpoint scanSteps (currentStepIndex stepCount j : nat) (ss : list RouteStep)
  : nat * option nat :=
  match ss with
  | [] => (stepCount, None)
  | _ :: r =>
      if (stepCount =? currentStepIndex)%nat then (stepCount, Some j)
      else scanSteps currentStepIndex (S stepCount) (S j) r
  end.

Fixpoint scanLegs (currentStepIndex stepCount i currentLegIndex legStepIndex : nat)
  (ls : list RouteLeg) : nat * nat :=
  match ls with
  | [] => (currentLegIndex, legStepIndex)
  | leg :: r =>
      let '(stepCount', found) := scanSteps currentStepIndex stepCount 0 (steps leg) in
      let '(currentLegIndex', legStepIndex') :=
        match found with
        | Some j => (i, j)
        | None => (currentLegIndex, legStepIndex)
        end in
      if (stepCount' =? currentStepIndex)%nat then (currentLegIndex', legStepIndex')
      else scanLegs currentStepIndex stepCount' (S i) currentLegIndex' legStepIndex' r
  end.

(** [x < y] on numbers. *)
Definition Qlt_bool (x y : Q) : bool := negb (Qle_bool y x).

(** A natural number (an array length, an array index) as a JavaScript
    number. *)
Definition numberOfNat (n : nat) : Q := inject_Z (Z.of_nat n).
Coercion numberOfNat : nat >-> Q.

(** The array index a number denotes: a non-negative integer is one, a
    negative or fractional number is the name of a property no array has. *)
Definition arrayIndex (x : Q) : option nat :=
  if Qle_bool 0 x && Qeq_bool (inject_Z (Qfloor x)) x
  then Some (Z.to_nat (Qfloor x))
  else None.

(** [array[x]] for a number [x]: the element at [x] when [x] is an index
    below the length, [undefined] ([None]) otherwise. *)
Definition elementAt {A : Type} (array : list A) (x : Q) : option A :=
  match arrayIndex x with
  | Some i => nth_error array i
  | None => None
  end.

(** Truncation toward zero. *)
Definition truncate (x : Q) : Z :=
  if Qle_bool 0 x then Qfloor x else Qceiling x.

(** [new Date(t)] for a number [t]: beyond 8.64e15 ms either side of the
    epoch the date is invalid, otherwise its time value is [t] truncated to
    whole milliseconds. *)
Definition newDate (t : Q) : JsDate :=
  if Qle_bool (Qabs t) 8640000000000000 then DateAt (truncate t) else InvalidDate.

(** [new Date(date.getTime() + ms)]; the time value of an invalid date is
    [NaN], and so is the sum. *)
Definition dateAfter (date : JsDate) (ms : Q) : JsDate :=
  match date with
  | DateAt t => newDate (inject_Z t + ms)
  | InvalidDate => InvalidDate
  end.

Section Navigation.

(** Provided by the location provider (haversine distance in metres). *)
Variable calculateDistance : Coordinates -> Coordinates -> Q.
(** Provided by the memory provider. *)
Variable memories : list Memory.
(** Provided by the user provider; [None] when no profile is loaded. *)
Variable userProfile : option NavigationPreferences.
(** [Math.random]: the draw used by the [n]-th alternative route, and the
    order in which the engine leaves an array sorted with the comparator
    [() => 0.5 - Math.random()]. *)
Variable random : nat -> Q.
Variable shuffleOrder : nat -> list MemoryWaypoint -> list MemoryWaypoint.

(** *** WaypointSelector *)

(** km/h, used to estimate detour time *)
Definition averageSpeed : Q := 50.

Fixpoint collectWaypoints (origin destination : Coordinates) (directDistance : Q)
  (maxDetourMinutes : Q) (index : nat) (ms : list Memory) : list MemoryWaypoint :=
  match ms with
  | [] => []
  | memory :: r =>
      let memoryCoord := coordOf memory in
      let distanceFromOrigin := calculateDistance origin memoryCoord in
      let distanceFromDestination := calculateDistance memoryCoord destination in
      let totalDistanceViaMemory := distanceFromOrigin + distanceFromDestination in
      let extraDistance := totalDistanceViaMemory - directDistance in
      let detourTimeMinutes := (extraDistance / 1000) / (averageSpeed / 60) in
      let rest :=
        collectWaypoints origin destination directDistance maxDetourMinutes (S index) r in
      if Qle_bool detourTimeMinutes maxDetourMinutes then
        {| memory := memory;
           distanceFromRoute := extraDistance;
           detourTime := detourTimeMinutes;
           waypointIndex := index |} :: rest
      else rest
  end.

Definition findPotentialMemoryWaypoints (origin destination : Coordinates)
  (memories : list Memory) (maxDetourMinutes : Q) : list MemoryWaypoint :=
  let directDistance := calculateDistance origin destination in
  collectWaypoints origin destination directDistance maxDetourMinutes 0 memories.

(** *** RouteSequencer *)

(** The inner [for] loop of the greedy ordering; [closestDistance = None]
    stands for [Infinity]. *)
Fixpoint closestIndexFrom (currentPoint : Coordinates) (i closestIndex : nat)
  (closestDistance : option Q) (unvisited : list MemoryWaypoint) : nat :=
  match unvisited with
  | [] => closestIndex
  | waypoint :: r =>
      let distance := calculateDistance currentPoint (coordOf (memory waypoint)) in
      let closer :=
        match closestDistance with
        | None => true
        | Some c => Qlt_bool distance c
        end in
      if closer then closestIndexFrom currentPoint (S i) i (Some distance) r
      else closestIndexFrom currentPoint (S i) closestIndex closestDistance r
  end.

(** The [while (unvisited.length > 0)] loop; every round removes one
    element, so [fuel = unvisited.length] rounds are all it can make
    ([greedyVisit_length], [greedyVisit_perm]). *)
Fixpoint greedyVisit (fuel : nat) (currentPoint : Coordinates)
  (unvisited result : list MemoryWaypoint) : list MemoryWaypoint :=
  match fuel with
  | O => result
  | S fuel' =>
      match unvisited with
      | [] => result
      | _ :: _ =>
          let closestIndex := closestIndexFrom currentPoint 0 0 None unvisited in
          match nth_error unvisited closestIndex with
          | None => result
          | Some nextWaypoint =>
              greedyVisit fuel' (coordOf (memory nextWaypoint))
                (removeAt closestIndex unvisited) (result ++ [nextWaypoint])
          end
      end
  end.

Definition orderWaypointsByGreedyPath (start finish : Coordinates)
  (waypoints : list MemoryWaypoint) : list MemoryWaypoint :=
  if (List.length waypoints <=? 1)%nat then waypoints
  else reindexFrom 0 (greedyVisit (List.length waypoints) start waypoints []).

(** *** RouteAssembler *)

(** The [for] loop over the ordered waypoints: legs, running totals and
    the last point reached. *)
Fixpoint legsLoop (baseSpeed : Q) (orderedWaypoints : list MemoryWaypoint)
  (prevPoint : Coordinates) (legs : list RouteLeg) (totalDistance totalDuration : Q)
  : list RouteLeg * Q * Q * Coordinates :=
  match orderedWaypoints with
  | [] => (legs, totalDistance, totalDuration, prevPoint)
  | waypoint :: r =>
      let waypointCoord := coordOf (memory waypoint) in
      let legDistance := calculateDistance prevPoint waypointCoord in
      let legDuration := legDistance / baseSpeed in
      let steps := createSimulatedSteps prevPoint waypointCoord legDistance legDuration in
      legsLoop baseSpeed r waypointCoord
        (legs ++ [ {| leg_distance := legDistance;
                      leg_duration := legDuration;
                      leg_startLocation := prevPoint;
                      leg_endLocation := waypointCoord;
                      steps := steps |} ])
        (totalDistance + legDistance) (totalDuration + legDuration)
  end.

Definition generateRouteWithWaypoints (origin destination : Coordinates)
  (waypoints : list MemoryWaypoint) (transportMode : string) : Route :=
  let directDistance := calculateDistance origin destination in
  let baseSpeed := getBaseSpeedForMode transportMode in
  let directDuration := directDistance / baseSpeed in
  match waypoints with
  | [] =>
      {| distance := directDistance;
         duration := directDuration;
         legs := [ {| leg_distance := directDistance;
                      leg_duration := directDuration;
                      leg_startLocation := origin;
                      leg_endLocation := destination;
                      steps := [ {| step_distance := directDistance;
                                    step_duration := directDuration;
                                    step_startLocation := origin;
                                    step_endLocation := destination;
                                    instruction := "Head to destination" |} ] |} ];
         memoryWaypoints := [] |}
  | _ :: _ =>
      let orderedWaypoints := orderWaypointsByGreedyPath origin destination waypoints in
      let '(legs, totalDistance, totalDuration, prevPoint) :=
        legsLoop baseSpeed orderedWaypoints origin [] 0 0 in
      let finalLegDistance := calculateDistance prevPoint destination in
      let finalLegDuration := finalLegDistance / baseSpeed in
      let finalSteps :=
        createSimulatedSteps prevPoint destination finalLegDistance finalLegDuration in
      {| distance := totalDistance + finalLegDistance;
         duration := totalDuration + finalLegDuration;
         legs := legs ++ [ {| leg_distance := finalLegDistance;
                              leg_duration := finalLegDuration;
                              leg_startLocation := prevPoint;
                              leg_endLocation := destination;
                              steps := finalSteps |} ];
         memoryWaypoints := orderedWaypoints |}
  end.

(** Helper to randomly select waypoints for alternative routes; [n] numbers
    the call. *)
Definition shuffleAndSelectWaypoints (n : nat) (waypoints : list MemoryWaypoint)
  : list MemoryWaypoint :=
  if (List.length waypoints <=? 2)%nat then waypoints
  else
    let shuffled := shuffleOrder n waypoints in
    let len := inject_Z (Z.of_nat (List.length waypoints)) in
    let count := Z.max 1 (Qfloor (random n * (len * (4 # 10)) + len * (5 # 10))) in
    firstn (Z.to_nat count) shuffled.

Fixpoint alternativesLoop (origin destination : Coordinates)
  (availableWaypoints : list MemoryWaypoint) (transportMode : string)
  (i remaining : nat) : list Route :=
  match remaining with
  | O => []
  | S remaining' =>
      let selectedWaypoints := shuffleAndSelectWaypoints i availableWaypoints in
      generateRouteWithWaypoints origin destination selectedWaypoints transportMode
        :: alternativesLoop origin destination availableWaypoints transportMode
             (S i) remaining'
  end.

Definition generateAlternativeRoutes (origin destination : Coordinates)
  (availableWaypoints : list MemoryWaypoint) (transportMode : string)
  (numAlternatives : nat) : list Route :=
  if (List.length availableWaypoints <=? 1)%nat then []
  else alternativesLoop origin destination availableWaypoints transportMode
         0 numAlternatives.

(** *** NavigationTracker *)

(** Helper function to determine current step based on location.  Reading
    a property of [undefined] (an index outside [legs] or [steps]) throws
    a [TypeError]. *)
Definition findCurrentStep (route : Route) (currentStepIndex : nat)
  (currentLocation : Coordinates) : outcome (nat * Q) :=
  let '(currentLegIndex, legStepIndex) :=
    scanLegs currentStepIndex 0 0 0 0 (legs route) in
  match nth_error (legs route) currentLegIndex with
  | None => Thrown "TypeError"
  | Some currentLeg =>
      match nth_error (steps currentLeg) legStepIndex with
      | None => Thrown "TypeError"
      | Some currentStep =>
          let distanceToStepEnd :=
            calculateDistance currentLocation (step_endLocation currentStep) in
          if Qlt_bool distanceToStepEnd 20 then
            Returned ((currentStepIndex + 1)%nat, distanceToStepEnd)
          else
            let distanceTravelled := step_distance currentStep * (1 # 10) in
            Returned (currentStepIndex, distanceTravelled)
      end
  end.

Definition setOriginAndDestination (origin destination : Coordinates)
  (prevState : NavigationState) : outcome NavigationState :=
  Returned
    {| origin := Some origin;
       destination := Some destination;
       currentRoute := None;
       alternativeRoutes := [];
       activeNavigation := false;
       currentStepIndex := currentStepIndex prevState;
       upcomingMemory := upcomingMemory prevState;
       distanceToNextMemory := distanceToNextMemory prevState;
       navigationStartTime := navigationStartTime prevState;
       estimatedArrivalTime := estimatedArrivalTime prevState;
       travelledDistance := travelledDistance prevState |}.

(** Returns the new state together with [[primaryRoute, ...alternativeRoutes]].
    Nothing inside the [try] block throws in this model. *)
Definition calculateRoutes (transportMode : string) (maxDetourMinutes : Q)
  (maxMemories : nat) (navigationState prevState : NavigationState)
  : outcome (NavigationState * list Route) :=
  match origin navigationState, destination navigationState with
  | Some orig, Some dest =>
      let potentialWaypoints :=
        findPotentialMemoryWaypoints orig dest memories maxDetourMinutes in
      let sortedWaypoints := sortWaypointsByPriority potentialWaypoints in
      let selectedWaypoints := firstn maxMemories sortedWaypoints in
      let primaryRoute :=
        generateRouteWithWaypoints orig dest selectedWaypoints transportMode in
      let alternatives :=
        generateAlternativeRoutes orig dest sortedWaypoints transportMode 2 in
      Returned
        ({| origin := origin prevState;
            destination := destination prevState;
            currentRoute := Some primaryRoute;
            alternativeRoutes := alternatives;
            activeNavigation := activeNavigation prevState;
            currentStepIndex := currentStepIndex prevState;
            upcomingMemory := upcomingMemory prevState;
            distanceToNextMemory := distanceToNextMemory prevState;
            navigationStartTime := navigationStartTime prevState;
            estimatedArrivalTime := estimatedArrivalTime prevState;
            travelledDistance := travelledDistance prevState |},
         primaryRoute :: alternatives)
  | _, _ => Thrown "Origin and destination must be set before calculating routes"
  end.

(** [[navigationState.currentRoute, ...navigationState.alternativeRoutes].filter(Boolean)] *)
Definition availableRoutes (navigationState : NavigationState) : list Route :=
  match currentRoute navigationState with
  | Some r => r :: alternativeRoutes navigationState
  | None => alternativeRoutes navigationState
  end.

(** Start navigation with the selected route.  [now] is the reading of the
    clock, in milliseconds, that [new Date()] takes; [routeIndex] is any
    number.  An index that passes the length test without being an index of
    the array selects [undefined], and reading its [duration] throws a
    [TypeError]. *)
Definition startNavigation (now : Q) (routeIndex : Q)
  (navigationState prevState : NavigationState) : outcome NavigationState :=
  let routes := availableRoutes navigationState in
  if Qle_bool (List.length routes) routeIndex then Thrown "Invalid route index"
  else
    match elementAt routes routeIndex with
    | None => Thrown "TypeError"
    | Some selectedRoute =>
        let now := newDate now in
        let eta := dateAfter now (duration selectedRoute * 1000) in
        Returned
          {| origin := origin prevState;
             destination := destination prevState;
             currentRoute := Some selectedRoute;
             alternativeRoutes := alternativeRoutes prevState;
             activeNavigation := true;
             currentStepIndex := 0;
             upcomingMemory := findUpcomingMemory selectedRoute 0;
             distanceToNextMemory := distanceToNextMemory prevState;
             navigationStartTime := Some now;
             estimatedArrivalTime := Some eta;
             travelledDistance := 0 |}
    end.

(** Stop the current navigation: no guard, no [throw]. *)
Definition stopNavigation (prevState : NavigationState) : outcome NavigationState :=
  Returned
    {| origin := origin prevState;
       destination := destination prevState;
       currentRoute := currentRoute prevState;
       alternativeRoutes := alternativeRoutes prevState;
       activeNavigation := false;
       currentStepIndex := 0;
       upcomingMemory := None;
       distanceToNextMemory := None;
       navigationStartTime := None;
       estimatedArrivalTime := None;
       travelledDistance := 0 |}.

(** Move to the next navigation step. *)
Definition navigateToNextStep (navigationState prevState : NavigationState)
  : outcome NavigationState :=
  match activeNavigation navigationState, currentRoute navigationState with
  | true, Some route =>
      let newStepIndex := (currentStepIndex navigationState + 1)%nat in
      if (totalSteps route <=? newStepIndex)%nat then stopNavigation prevState
      else
        Returned
          {| origin := origin prevState;
             destination := destination prevState;
             currentRoute := currentRoute prevState;
             alternativeRoutes := alternativeRoutes prevState;
             activeNavigation := activeNavigation prevState;
             currentStepIndex := newStepIndex;
             upcomingMemory := findUpcomingMemory route newStepIndex;
             distanceToNextMemory := distanceToNextMemory prevState;
             navigationStartTime := navigationStartTime prevState;
             estimatedArrivalTime := estimatedArrivalTime prevState;
             travelledDistance := travelledDistance prevState |}
  | _, _ => Returned prevState
  end.

(** Update the current location during navigation.  [findUpcomingMemory]
    returns a [Memory], which has no [memory] property: the test
    [upcomingMemory && upcomingMemory.memory] is never truthy and
    [upcomingMemory?.memory || null] is [null], so both memory fields are
    cleared. *)
Definition updateCurrentLocation (location : Coordinates)
  (navigationState prevState : NavigationState) : outcome NavigationState :=
  match activeNavigation navigationState, currentRoute navigationState with
  | true, Some route =>
      bind (findCurrentStep route (currentStepIndex navigationState) location)
        (fun '(newStepIndex, distanceTravelled) =>
           Returned
             {| origin := origin prevState;
                destination := destination prevState;
                currentRoute := currentRoute prevState;
                alternativeRoutes := alternativeRoutes prevState;
                activeNavigation := activeNavigation prevState;
                currentStepIndex := newStepIndex;
                upcomingMemory := None;
                distanceToNextMemory := None;
                navigationStartTime := navigationStartTime prevState;
                estimatedArrivalTime := estimatedArrivalTime prevState;
                travelledDistance := travelledDistance prevState + distanceTravelled |})
  | _, _ => Returned prevState
  end.

(** [userProfile?.navigationPreferences.maxDetourTime || 10] *)
Definition preferredMaxDetour : Q :=
  match userProfile with
  | Some p => if Qeq_bool (maxDetourTime p) 0 then 10 else maxDetourTime p
  | None => 10
  end.

(** [userProfile?.navigationPreferences.transportationMode || 'driving'] *)
Definition preferredMode : string :=
  match userProfile with
  | Some p =>
      if String.eqb (transportationMode p) "" then "driving"%string
      else transportationMode p
  | None => "driving"%string
  end.

(** Recalculate the route based on current location.  The object
    [currentLocation] built from [navigator.geolocation] is never used.
    [calculateRoutes] and [startNavigation] are the closures of the render
    that created [recalculateRoute]: both read [navigationState], while
    their functional updates apply one after the other.  [maxMemories]
    takes its default, 5. *)
Definition recalculateRoute (now : Q)
  (navigationState prevState : NavigationState) : outcome NavigationState :=
  match activeNavigation navigationState, currentRoute navigationState,
        origin navigationState, destination navigationState with
  | true, Some _, Some _, Some _ =>
      rethrow "Failed to recalculate route"
        (bind (calculateRoutes preferredMode preferredMaxDetour 5 navigationState prevState)
           (fun '(afterRoutes, _) => startNavigation now 0 navigationState afterRoutes))
  | _, _, _, _ => Returned prevState
  end.

End Navigation.

(** An event handled by a freshly rendered provider: the closure's
    [navigationState] is the current state. *)
Definition fire (op : NavigationState -> NavigationState -> outcome NavigationState)
  (s : NavigationState) : outcome NavigationState := op s s.

(** ** A concrete setting for running the model

    [gridDistance] is a computable stand-in for the haversine distance of the
    location provider (about 111 km per degree, along the axes); it is used
    only to evaluate the definitions above on concrete inputs. *)
Module Scenario.

Definition gridDistance (a b : Coordinates) : Q :=
  (Qabs (latitude a - latitude b) + Qabs (longitude a - longitude b)) * 111000.

Definition noShuffle (n : nat) (l : list MemoryWaypoint) : list MemoryWaypoint := l.
Definition halfDraw (n : nat) : Q := 1 # 2.

(** The scenario of the specification: (0,0) to (0,1), one memory at
    (0.01, 0.5) with importance 5. *)
Definition start : Coordinates := {| latitude := 0; longitude := 0 |}.
Definition goal : Coordinates := {| latitude := 0; longitude := 1 |}.

Definition nearMemory : Memory :=
  {| id := "near"; title := "Near the road";
     location := {| latitude := 1 # 100; longitude := 1 # 2 |};
     importance := 5 |}.

(** A memory 10 degrees off the road: a detour of 2220 km. *)
Definition farMemory : Memory :=
  {| id := "far"; title := "Far away";
     location := {| latitude := 10; longitude := 1 # 2 |};
     importance := 5 |}.

Definition planned : NavigationState :=
  {| origin := Some start;
     destination := Some goal;
     currentRoute := None;
     alternativeRoutes := [];
     activeNavigation := false;
     currentStepIndex := 0;
     upcomingMemory := None;
     distanceToNextMemory := None;
     navigationStartTime := None;
     estimatedArrivalTime := None;
     travelledDistance := 0 |}.

(** A session under way on the direct route.  With the memory
    [nearMemory] known and a detour budget of one minute nothing qualifies:
    the route calculated from [start] to [goal] is the direct one.
    Navigation starts at clock reading 0, and one location update at the
    start counts a tenth of the step, 11100 m. *)
Definition directRoute : Route :=
  generateRouteWithWaypoints gridDistance start goal [] "driving".

Definition orDefault (r : outcome NavigationState) : NavigationState :=
  match r with
  | Returned s => s
  | Thrown _ => defaultNavigationState
  end.

Definition underWay : NavigationState :=
  Eval vm_compute in
    orDefault
      (bind (setOriginAndDestination start goal defaultNavigationState) (fun s1 =>
       bind (calculateRoutes gridDistance [nearMemory] halfDraw noShuffle
               "driving" 1 5 s1 s1) (fun '(s2, _) =>
       bind (fire (startNavigation 0 0) s2) (fun s3 =>
       fire (updateCurrentLocation gridDistance start) s3)))).

(** The route through [nearMemory]: two legs of one step each, and a session
    on its second, final step. *)
Definition detourRoute : Route :=
  generateRouteWithWaypoints gridDistance start goal
    (findPotentialMemoryWaypoints gridDistance start goal [farMemory; nearMemory] 60)
    "driving".

Definition onLastLeg : NavigationState :=
  {| origin := Some start;
     destination := Some goal;
     currentRoute := Some detourRoute;
     alternativeRoutes := [];
     activeNavigation := true;
     currentStepIndex := 1;
     upcomingMemory := None;
     distanceToNextMemory := None;
     navigationStartTime := Some (DateAt 0);
     estimatedArrivalTime := Some (DateAt 1000);
     travelledDistance := 0 |}.

(** The same session on its first step. *)
Definition onFirstLeg : NavigationState :=
  {| origin := Some start;
     destination := Some goal;
     currentRoute := Some detourRoute;
     alternativeRoutes := [];
     activeNavigation := true;
     currentStepIndex := 0;
     upcomingMemory := None;
     distanceToNextMemory := None;
     navigationStartTime := Some (DateAt 0);
     estimatedArrivalTime := Some (DateAt 1000);
     travelledDistance := 0 |}.


(** Two waypoints of equal score whose ids are in either order. *)
Definition tieA : MemoryWaypoint :=
  {| memory := {| id := "a"; title := "A"; location := start; importance := 3 |};
     distanceFromRoute := 0; detourTime := 0; waypointIndex := 0 |}.
Definition tieB : MemoryWaypoint :=
  {| memory := {| id := "b"; title := "B"; location := goal; importance := 3 |};
     distanceFromRoute := 0; detourTime := 0; waypointIndex := 1 |}.

End Scenario.

(** Candidate ids in increasing order among waypoints of equal score: the
    tie-break the specification asks of the selector. *)
Fixpoint tiesOrderedById (l : list MemoryWaypoint) : bool :=
  match l with
  | [] => true
  | a :: r =>
      forallb (fun b => implb (Qeq_bool (score a) (score b))
                          (String.leb (id (memory a)) (id (memory b)))) r
      && tiesOrderedById r
  end.

(** ** The Redux slices

    [store/slices/memoriesSlice.ts] and [store/slices/navigationSlice.ts]:
    the state records, the actions the slices handle and their reducers.
    Reducers written with Immer mutate a draft; here each returns the next
    state.  A [Date] is its time value in milliseconds. *)

(** The coordinates of a location, under names the slice records do not
    shadow. *)
Definition latitudeOf (c : Coordinates) : Q := latitude c.
Definition longitudeOf (c : Coordinates) : Q := longitude c.

Module MemoriesSlice.

Record MemoryLocation : Type := mkMemoryLocation {
  latitude : Q;
  longitude : Q;
  address : string;
  name : option string
}.

Record MemoryTag : Type := mkMemoryTag {
  tag_id : string;
  tag_name : string
}.

Inductive MediaType : Type := image | video.

Record MemoryMedia : Type := mkMemoryMedia {
  media_id : string;
  media_type : MediaType;
  url : string;
  thumbnailUrl : option string;
  caption : option string
}.

Record Memory : Type := mkMemory {
  id : string;
  userId : string;
  title : string;
  description : string;
  location : MemoryLocation;
  tags : list MemoryTag;
  media : list MemoryMedia;
  importance : Q;
  date : option Z;
  createdAt : Z;
  updatedAt : Z;
  isPrivate : bool
}.

Record DateRange : Type := mkDateRange {
  from : option Z;
  to : option Z
}.

Record ActiveFilters : Type := mkActiveFilters {
  filter_tags : list string;
  dateRange : DateRange;
  filter_importance : option Q
}.

Record MemoriesState : Type := mkMemoriesState {
  memories : list Memory;
  filteredMemories : list Memory;
  currentMemory : option Memory;
  isLoading : bool;
  error : option string;
  activeFilters : ActiveFilters
}.

Definition noFilters : ActiveFilters :=
  {| filter_tags := [];
     dateRange := {| from := None; to := None |};
     filter_importance := None |}.

Definition initialState : MemoriesState :=
  {| memories := [];
     filteredMemories := [];
     currentMemory := None;
     isLoading := false;
     error := None;
     activeFilters := noFilters |}.

(** [array.includes(x)] on strings. *)
Definition includes (l : list string) (x : string) : bool :=
  existsb (String.eqb x) l.

(** The predicate handed to [memories.filter] by [applyFilters]. *)
Definition passesFilters (filters : ActiveFilters) (memory : Memory) : bool :=
  let byTags :=
    match filter_tags filters with
    | [] => true
    | _ :: _ =>
        let memoryTagIds := map tag_id (tags memory) in
        existsb (fun tagId => includes memoryTagIds tagId) (filter_tags filters)
    end in
  let afterFrom :=
    match from (dateRange filters), date memory with
    | Some f, Some dt => negb (dt <? f)%Z
    | _, _ => true
    end in
  let beforeTo :=
    match to (dateRange filters), date memory with
    | Some t, Some dt => negb (t <? dt)%Z
    | _, _ => true
    end in
  let byImportance :=
    match filter_importance filters with
    | Some i => Qeq_bool (importance memory) i
    | None => true
    end in
  byTags && afterFrom && beforeTo && byImportance.

(** Helper function to apply filters *)
Definition applyFilters (memories : list Memory) (filters : ActiveFilters)
  : list Memory :=
  filter (passesFilters filters) memories.

Inductive Action : Type :=
| clearCurrentMemory
| setFilterTags (payload : list string)
| setFilterDateRange (payload : DateRange)
| setFilterImportance (payload : option Q)
| clearFilters
| fetchMemories_pending
| fetchMemories_fulfilled (payload : list Memory)
| fetchMemories_rejected (payload : string)
| fetchMemoryById_pending
| fetchMemoryById_fulfilled (payload : Memory)
| fetchMemoryById_rejected (payload : string)
| createMemory_pending
| createMemory_fulfilled (payload : Memory)
| createMemory_rejected (payload : string)
| updateMemory_pending
| updateMemory_fulfilled (payload : Memory)
| updateMemory_rejected (payload : string)
| deleteMemory_pending
| deleteMemory_fulfilled (payload : string)
| deleteMemory_rejected (payload : string).

Definition pending (state : MemoriesState) : MemoriesState :=
  {| memories := memories state;
     filteredMemories := filteredMemories state;
     currentMemory := currentMemory state;
     isLoading := true;
     error := None;
     activeFilters := activeFilters state |}.

Definition rejected (state : MemoriesState) (payload : string) : MemoriesState :=
  {| memories := memories state;
     filteredMemories := filteredMemories state;
     currentMemory := currentMemory state;
     isLoading := false;
     error := Some payload;
     activeFilters := activeFilters state |}.

Definition withFilters (state : MemoriesState) (filters : ActiveFilters)
  : MemoriesState :=
  {| memories := memories state;
     filteredMemories := applyFilters (memories state) filters;
     currentMemory := currentMemory state;
     isLoading := isLoading state;
     error := error state;
     activeFilters := filters |}.

Definition reducer (state : MemoriesState) (action : Action) : MemoriesState :=
  match action with
  | clearCurrentMemory =>
      {| memories := memories state;
         filteredMemories := filteredMemories state;
         currentMemory := None;
         isLoading := isLoading state;
         error := error state;
         activeFilters := activeFilters state |}
  | setFilterTags payload =>
      withFilters state
        {| filter_tags := payload;
           dateRange := dateRange (activeFilters state);
           filter_importance := filter_importance (activeFilters state) |}
  | setFilterDateRange payload =>
      withFilters state
        {| filter_tags := filter_tags (activeFilters state);
           dateRange := payload;
           filter_importance := filter_importance (activeFilters state) |}
  | setFilterImportance payload =>
      withFilters state
        {| filter_tags := filter_tags (activeFilters state);
           dateRange := dateRange (activeFilters state);
           filter_importance := payload |}
  | clearFilters =>
      {| memories := memories state;
         filteredMemories := memories state;
         currentMemory := currentMemory state;
         isLoading := isLoading state;
         error := error state;
         activeFilters := noFilters |}
  | fetchMemories_pending | fetchMemoryById_pending | createMemory_pending
  | updateMemory_pending | deleteMemory_pending => pending state
  | fetchMemories_rejected payload | fetchMemoryById_rejected payload
  | createMemory_rejected payload | updateMemory_rejected payload
  | deleteMemory_rejected payload => rejected state payload
  | fetchMemories_fulfilled payload =>
      {| memories := payload;
         filteredMemories := applyFilters payload (activeFilters state);
         currentMemory := currentMemory state;
         isLoading := false;
         error := error state;
         activeFilters := activeFilters state |}
  | fetchMemoryById_fulfilled payload =>
      {| memories := memories state;
         filteredMemories := filteredMemories state;
         currentMemory := Some payload;
         isLoading := false;
         error := error state;
         activeFilters := activeFilters state |}
  | createMemory_fulfilled payload =>
      (* [state.memories] is assigned first; the second statement reads it
         again, with the payload already in front *)
      let memories' := payload :: memories state in
      {| memories := memories';
         filteredMemories := applyFilters (payload :: memories') (activeFilters state);
         currentMemory := Some payload;
         isLoading := false;
         error := error state;
         activeFilters := activeFilters state |}
  | updateMemory_fulfilled updatedMemory =>
      let memories' :=
        map (fun memory => if String.eqb (id memory) (id updatedMemory)
                           then updatedMemory else memory) (memories state) in
      {| memories := memories';
         filteredMemories := applyFilters memories' (activeFilters state);
         currentMemory := Some updatedMemory;
         isLoading := false;
         error := error state;
         activeFilters := activeFilters state |}
  | deleteMemory_fulfilled memoryId =>
      let keep := fun memory => negb (String.eqb (id memory) memoryId) in
      {| memories := filter keep (memories state);
         filteredMemories := filter keep (filteredMemories state);
         currentMemory :=
           match currentMemory state with
           | Some m => if String.eqb (id m) memoryId then None else Some m
           | None => None
           end;
         isLoading := false;
         error := error state;
         activeFilters := activeFilters state |}
  end.

(** The state after a sequence of actions. *)
Definition run (state : MemoriesState) (actions : list Action) : MemoriesState :=
  fold_left reducer actions state.

(** The filtered list is the filter of the full list. *)
Definition filteredInSync (state : MemoriesState) : Prop :=
  filteredMemories state = applyFilters (memories state) (activeFilters state).

Definition isCreateFulfilled (action : Action) : bool :=
  match action with
  | createMemory_fulfilled _ => true
  | _ => false
  end.

End MemoriesSlice.

Module NavigationSlice.

Record RoutePoint : Type := mkRoutePoint {
  latitude : Q;
  longitude : Q;
  memoryId : option string;
  isMemoryLocation : bool;
  distanceFromRoute : option Q
}.

Record RouteStep : Type := mkRouteStep {
  instruction : string;
  distance : Q;
  duration : Q;
  maneuver : option string;
  startLocation : Coordinates;
  endLocation : Coordinates;
  associatedMemoryId : option string
}.

Record Place : Type := mkPlace {
  place_latitude : Q;
  place_longitude : Q;
  address : string
}.

Record Route : Type := mkRoute {
  id : string;
  origin : Place;
  destination : Place;
  waypoints : list RoutePoint;
  steps : list RouteStep;
  route_distance : Q;
  route_duration : Q;
  memoryCount : nat;
  createdAt : Z
}.

Record NavigationSettings : Type := mkNavigationSettings {
  maxDetourTime : Q;
  maxMemoriesPerRoute : nat;
  prioritizeImportantMemories : bool;
  memoryNotificationsEnabled : bool;
  voiceNavigationEnabled : bool;
  notificationDistance : Q
}.

(** [Partial<NavigationSettings>] *)
Record PartialSettings : Type := mkPartialSettings {
  new_maxDetourTime : option Q;
  new_maxMemoriesPerRoute : option nat;
  new_prioritizeImportantMemories : option bool;
  new_memoryNotificationsEnabled : option bool;
  new_voiceNavigationEnabled : option bool;
  new_notificationDistance : option Q
}.

Record NavigationState : Type := mkNavigationState {
  currentLocation : option Coordinates;
  currentRoute : option Route;
  alternativeRoutes : list Route;
  activeNavigation : bool;
  currentStep : nat;
  upcomingMemory : option MemoriesSlice.Memory;
  memoryDistanceRemaining : option Q;
  distanceToDestination : option Q;
  timeToDestination : option Q;
  settings : NavigationSettings;
  recentRoutes : list Route;
  isLoading : bool;
  error : option string
}.

Definition initialState : NavigationState :=
  {| currentLocation := None;
     currentRoute := None;
     alternativeRoutes := [];
     activeNavigation := false;
     currentStep := 0;
     upcomingMemory := None;
     memoryDistanceRemaining := None;
     distanceToDestination := None;
     timeToDestination := None;
     settings :=
       {| maxDetourTime := 10;
          maxMemoriesPerRoute := 5;
          prioritizeImportantMemories := true;
          memoryNotificationsEnabled := true;
          voiceNavigationEnabled := true;
          notificationDistance := 300 |};
     recentRoutes := [];
     isLoading := false;
     error := None |}.

Inductive Action : Type :=
| setCurrentLocation (payload : Coordinates)
| advanceToNextStep
| setUpcomingMemory (memoryId : option string) (distance : Q)
| updateNavigationStats (distanceToDestination timeToDestination : Q)
| stopNavigation
| updateSettings (payload : PartialSettings)
| clearRoutes
| calculateRoute_pending
| calculateRoute_fulfilled (route : Route) (alternativeRoutes : list Route)
| calculateRoute_rejected (payload : string)
| startNavigation_pending
| startNavigation_fulfilled (payload : Route)
| startNavigation_rejected (payload : string)
| updateCurrentLocation_fulfilled (payload : Coordinates).

Definition orElse {A : Type} (new : option A) (old : A) : A :=
  match new with
  | Some v => v
  | None => old
  end.

(** [{ ...state.settings, ...action.payload }] *)
Definition mergeSettings (old : NavigationSettings) (new : PartialSettings)
  : NavigationSettings :=
  {| maxDetourTime := orElse (new_maxDetourTime new) (maxDetourTime old);
     maxMemoriesPerRoute := orElse (new_maxMemoriesPerRoute new) (maxMemoriesPerRoute old);
     prioritizeImportantMemories :=
       orElse (new_prioritizeImportantMemories new) (prioritizeImportantMemories old);
     memoryNotificationsEnabled :=
       orElse (new_memoryNotificationsEnabled new) (memoryNotificationsEnabled old);
     voiceNavigationEnabled :=
       orElse (new_voiceNavigationEnabled new) (voiceNavigationEnabled old);
     notificationDistance :=
       orElse (new_notificationDistance new) (notificationDistance old) |}.

(** A string is truthy when it is present and not empty. *)
Definition truthy (s : option string) : bool :=
  match s with
  | Some v => negb (String.eqb v "")
  | None => false
  end.

Definition reducer (state : NavigationState) (action : Action) : NavigationState :=
  match action with
  | setCurrentLocation payload | updateCurrentLocation_fulfilled payload =>
      {| currentLocation := Some payload;
         currentRoute := currentRoute state;
         alternativeRoutes := alternativeRoutes state;
         activeNavigation := activeNavigation state;
         currentStep := currentStep state;
         upcomingMemory := upcomingMemory state;
         memoryDistanceRemaining := memoryDistanceRemaining state;
         distanceToDestination := distanceToDestination state;
         timeToDestination := timeToDestination state;
         settings := settings state;
         recentRoutes := recentRoutes state;
         isLoading := isLoading state;
         error := error state |}
  | advanceToNextStep =>
      let advance :=
        match currentRoute state with
        | Some route =>
            (Z.of_nat (currentStep state) <? Z.of_nat (List.length (steps route)) - 1)%Z
        | None => false
        end in
      {| currentLocation := currentLocation state;
         currentRoute := currentRoute state;
         alternativeRoutes := alternativeRoutes state;
         activeNavigation := activeNavigation state;
         currentStep := if advance then (currentStep state + 1)%nat else currentStep state;
         upcomingMemory := upcomingMemory state;
         memoryDistanceRemaining := memoryDistanceRemaining state;
         distanceToDestination := distanceToDestination state;
         timeToDestination := timeToDestination state;
         settings := settings state;
         recentRoutes := recentRoutes state;
         isLoading := isLoading state;
         error := error state |}
  | setUpcomingMemory memoryId distance =>
      {| currentLocation := currentLocation state;
         currentRoute := currentRoute state;
         alternativeRoutes := alternativeRoutes state;
         activeNavigation := activeNavigation state;
         currentStep := currentStep state;
         upcomingMemory := if truthy memoryId then upcomingMemory state else None;
         memoryDistanceRemaining := if truthy memoryId then Some distance else None;
         distanceToDestination := distanceToDestination state;
         timeToDestination := timeToDestination state;
         settings := settings state;
         recentRoutes := recentRoutes state;
         isLoading := isLoading state;
         error := error state |}
  | updateNavigationStats distanceToDestination timeToDestination =>
      {| currentLocation := currentLocation state;
         currentRoute := currentRoute state;
         alternativeRoutes := alternativeRoutes state;
         activeNavigation := activeNavigation state;
         currentStep := currentStep state;
         upcomingMemory := upcomingMemory state;
         memoryDistanceRemaining := memoryDistanceRemaining state;
         distanceToDestination := Some distanceToDestination;
         timeToDestination := Some timeToDestination;
         settings := settings state;
         recentRoutes := recentRoutes state;
         isLoading := isLoading state;
         error := error state |}
  | stopNavigation =>
      {| currentLocation := currentLocation state;
         currentRoute := currentRoute state;
         alternativeRoutes := alternativeRoutes state;
         activeNavigation := false;
         currentStep := 0;
         upcomingMemory := None;
         memoryDistanceRemaining := None;
         distanceToDestination := distanceToDestination state;
         timeToDestination := timeToDestination state;
         settings := settings state;
         recentRoutes :=
           match currentRoute state with
           | Some route => route :: firstn 4 (recentRoutes state)
           | None => recentRoutes state
           end;
         isLoading := isLoading state;
         error := error state |}
  | updateSettings payload =>
      {| currentLocation := currentLocation state;
         currentRoute := currentRoute state;
         alternativeRoutes := alternativeRoutes state;
         activeNavigation := activeNavigation state;
         currentStep := currentStep state;
         upcomingMemory := upcomingMemory state;
         memoryDistanceRemaining := memoryDistanceRemaining state;
         distanceToDestination := distanceToDestination state;
         timeToDestination := timeToDestination state;
         settings := mergeSettings (settings state) payload;
         recentRoutes := recentRoutes state;
         isLoading := isLoading state;
         error := error state |}
  | clearRoutes =>
      {| currentLocation := currentLocation state;
         currentRoute := None;
         alternativeRoutes := [];
         activeNavigation := activeNavigation state;
         currentStep := currentStep state;
         upcomingMemory := upcomingMemory state;
         memoryDistanceRemaining := memoryDistanceRemaining state;
         distanceToDestination := distanceToDestination state;
         timeToDestination := timeToDestination state;
         settings := settings state;
         recentRoutes := recentRoutes state;
         isLoading := isLoading state;
         error := error state |}
  | calculateRoute_pending | startNavigation_pending =>
      {| currentLocation := currentLocation state;
         currentRoute := currentRoute state;
         alternativeRoutes := alternativeRoutes state;
         activeNavigation := activeNavigation state;
         currentStep := currentStep state;
         upcomingMemory := upcomingMemory state;
         memoryDistanceRemaining := memoryDistanceRemaining state;
         distanceToDestination := distanceToDestination state;
         timeToDestination := timeToDestination state;
         settings := settings state;
         recentRoutes := recentRoutes state;
         isLoading := true;
         error := None |}
  | calculateRoute_fulfilled route alternatives =>
      {| currentLocation := currentLocation state;
         currentRoute := Some route;
         alternativeRoutes := alternatives;
         activeNavigation := activeNavigation state;
         currentStep := currentStep state;
         upcomingMemory := upcomingMemory state;
         memoryDistanceRemaining := memoryDistanceRemaining state;
         distanceToDestination := distanceToDestination state;
         timeToDestination := timeToDestination state;
         settings := settings state;
         recentRoutes := recentRoutes state;
         isLoading := false;
         error := error state |}
  | calculateRoute_rejected payload | startNavigation_rejected payload =>
      {| currentLocation := currentLocation state;
         currentRoute := currentRoute state;
         alternativeRoutes := alternativeRoutes state;
         activeNavigation := activeNavigation state;
         currentStep := currentStep state;
         upcomingMemory := upcomingMemory state;
         memoryDistanceRemaining := memoryDistanceRemaining state;
         distanceToDestination := distanceToDestination state;
         timeToDestination := timeToDestination state;
         settings := settings state;
         recentRoutes := recentRoutes state;
         isLoading := false;
         error := Some payload |}
  | startNavigation_fulfilled payload =>
      {| currentLocation := currentLocation state;
         currentRoute := Some payload;
         alternativeRoutes := alternativeRoutes state;
         activeNavigation := true;
         currentStep := 0;
         upcomingMemory := upcomingMemory state;
         memoryDistanceRemaining := memoryDistanceRemaining state;
         distanceToDestination := distanceToDestination state;
         timeToDestination := timeToDestination state;
         settings := settings state;
         recentRoutes := recentRoutes state;
         isLoading := false;
         error := error state |}
  end.

(** The state after a sequence of actions. *)
Definition run (state : NavigationState) (actions : list Action) : NavigationState :=
  fold_left reducer actions state.

(** The [startNavigation] thunk: the action it ends with. *)
Definition startNavigation (state : NavigationState) (routeId : string) : Action :=
  let selectedRoute :=
    match currentRoute state with
    | Some route =>
        if String.eqb (id route) routeId then Some route
        else find (fun route => String.eqb (id route) routeId) (alternativeRoutes state)
    | None => find (fun route => String.eqb (id route) routeId) (alternativeRoutes state)
    end in
  match selectedRoute with
  | Some route => startNavigation_fulfilled route
  | None => startNavigation_rejected "Selected route not found"
  end.

Section Thunk.

(** The haversine helper of the slice, in metres. *)
Variable calculateDistance : Q -> Q -> Q -> Q -> Q.

(** The waypoint nearest to the location: the head of the array sorted,
    stably, by [currentDistance]. *)
Fixpoint nearest (best : option (RoutePoint * Q)) (l : list (RoutePoint * Q))
  : option (RoutePoint * Q) :=
  match l with
  | [] => best
  | (wp, dist) :: r =>
      match best with
      | Some (_, bestDist) =>
          if Qlt_bool dist bestDist then nearest (Some (wp, dist)) r else nearest best r
      | None => nearest (Some (wp, dist)) r
      end
  end.

(** The [updateCurrentLocation] thunk: the actions it dispatches, in order,
    on the state read once at its start. *)
Definition updateCurrentLocation (state : NavigationState) (location : Coordinates)
  : list Action :=
  match activeNavigation state, currentRoute state with
  | true, Some route =>
      let reached :=
        match nth_error (steps route) (currentStep state + 1) with
        | Some nextStepData =>
            let distanceToNextStep :=
              calculateDistance (latitudeOf location) (longitudeOf location)
                (latitudeOf (startLocation nextStepData))
                (longitudeOf (startLocation nextStepData)) in
            if Qlt_bool distanceToNextStep 20 then [advanceToNextStep] else []
        | None => []
        end in
      let upcomingMemoryWaypoints :=
        filter (fun wp => Qlt_bool (snd wp) (notificationDistance (settings state)))
          (map (fun wp =>
                  (wp, calculateDistance (latitudeOf location) (longitudeOf location)
                         (latitude wp) (longitude wp)))
               (filter isMemoryLocation (waypoints route))) in
      let notify :=
        match nearest None upcomingMemoryWaypoints with
        | Some (nextMemory, currentDistance) =>
            [setUpcomingMemory (memoryId nextMemory) currentDistance]
        | None => []
        end in
      let remainingSteps := skipn (currentStep state) (steps route) in
      let distanceRemaining := fold_left (fun sum step => sum + distance step) remainingSteps 0 in
      let timeRemaining := fold_left (fun sum step => sum + duration step) remainingSteps 0 in
      reached ++ notify
      ++ [updateNavigationStats distanceRemaining timeRemaining;
          updateCurrentLocation_fulfilled location]
  | _, _ => [updateCurrentLocation_fulfilled location]
  end.

End Thunk.

End NavigationSlice.

(** ** The nearby-memories endpoint

    [api/nearbyMemories.ts].  The request carries a method and the query
    parameters the handler reads; [parseFloat] ([None] for [NaN]), the
    haversine distance in kilometres and the Firestore query for the
    memories of a user, which may fail, are parameters. *)
Module NearbyMemories.

Record Query : Type := mkQuery {
  userId : option string;
  latitude : option string;
  longitude : option string;
  radius : option string
}.

Record Request : Type := mkRequest {
  method : string;
  query : Query
}.

(** A stored memory: its document id and the location in its data. *)
Record Doc : Type := mkDoc {
  doc_id : string;
  doc_latitude : Q;
  doc_longitude : Q;
  doc_title : string
}.

(** [{ id: doc.id, ...data, distance }] *)
Record Found : Type := mkFound {
  found : Doc;
  distance : Q
}.

Inductive Body : Type :=
| ErrorBody (error : string)
| MemoriesBody (memories : list Found).

Record Response : Type := mkResponse {
  status : nat;
  body : Body
}.

(** [!x] is false for a parameter that is present and not empty. *)
Definition missing (x : option string) : bool :=
  match x with
  | Some v => String.eqb v ""
  | None => true
  end.

(** [memories.sort((a, b) => a.distance - b.distance)]: stable, ascending. *)
Fixpoint insertByDistance (a : Found) (l : list Found) : list Found :=
  match l with
  | [] => [a]
  | b :: r =>
      if Qle_bool (distance a - distance b) 0 then a :: b :: r
      else b :: insertByDistance a r
  end.

Definition sortByDistance (l : list Found) : list Found :=
  fold_right insertByDistance [] l.

Section Handler.

Variable parseFloat : string -> option Q.
Variable calculateDistance : Q -> Q -> Q -> Q -> Q.
Variable memoriesOf : string -> outcome (list Doc).

(** The [forEach] over the snapshot. *)
Fixpoint withinRadius (lat lng radiusKm : Q) (docs : list Doc) : list Found :=
  match docs with
  | [] => []
  | doc :: r =>
      let distance := calculateDistance lat lng (doc_latitude doc) (doc_longitude doc) in
      if Qle_bool distance radiusKm
      then {| found := doc; distance := distance |} :: withinRadius lat lng radiusKm r
      else withinRadius lat lng radiusKm r
  end.

Definition handler (req : Request) : Response :=
  if negb (String.eqb (method req) "GET") then
    {| status := 405; body := ErrorBody "Method not allowed" |}
  else
    let q := query req in
    if missing (userId q) || missing (latitude q) || missing (longitude q) then
      {| status := 400;
         body := ErrorBody "Missing required parameters: userId, latitude, longitude" |}
    else
      match userId q, latitude q, longitude q with
      | Some user, Some latitude, Some longitude =>
          let radiusKm :=
            match radius q with
            | Some r => parseFloat r
            | None => Some 5
            end in
          match parseFloat latitude, parseFloat longitude, radiusKm with
          | Some lat, Some lng, Some radiusKm =>
              match memoriesOf user with
              | Returned docs =>
                  {| status := 200;
                     body := MemoriesBody (sortByDistance (withinRadius lat lng radiusKm docs)) |}
              | Thrown _ =>
                  {| status := 500; body := ErrorBody "Failed to retrieve memories" |}
              end
          | _, _, _ =>
              {| status := 400; body := ErrorBody "Invalid coordinates or radius" |}
          end
      | _, _, _ =>
          {| status := 400;
             body := ErrorBody "Missing required parameters: userId, latitude, longitude" |}
      end.

End Handler.

End NearbyMemories.

(** Concrete slice states for running the reducers. *)
Module SliceScenario.

Definition picnic : MemoriesSlice.Memory :=
  {| MemoriesSlice.id := "m1";
     MemoriesSlice.userId := "u1";
     MemoriesSlice.title := "Picnic";
     MemoriesSlice.description := "By the lake";
     MemoriesSlice.location :=
       {| MemoriesSlice.latitude := 0; MemoriesSlice.longitude := 1 # 2;
          MemoriesSlice.address := "Lake road"; MemoriesSlice.name := None |};
     MemoriesSlice.tags := [ {| MemoriesSlice.tag_id := "t1";
                                MemoriesSlice.tag_name := "family" |} ];
     MemoriesSlice.media := [];
     MemoriesSlice.importance := 4;
     MemoriesSlice.date := Some 1000%Z;
     MemoriesSlice.createdAt := 2000%Z;
     MemoriesSlice.updatedAt := 2000%Z;
     MemoriesSlice.isPrivate := false |}.

Definition step (n : Q) : NavigationSlice.RouteStep :=
  {| NavigationSlice.instruction := "Continue on the route";
     NavigationSlice.distance := 100;
     NavigationSlice.duration := 30;
     NavigationSlice.maneuver := Some "straight"%string;
     NavigationSlice.startLocation := {| latitude := 0; longitude := n |};
     NavigationSlice.endLocation := {| latitude := 0; longitude := n + 1 |};
     NavigationSlice.associatedMemoryId := None |}.

Definition threeSteps : NavigationSlice.Route :=
  {| NavigationSlice.id := "route_1";
     NavigationSlice.origin :=
       {| NavigationSlice.place_latitude := 0; NavigationSlice.place_longitude := 0;
          NavigationSlice.address := "Start" |};
     NavigationSlice.destination :=
       {| NavigationSlice.place_latitude := 0; NavigationSlice.place_longitude := 3;
          NavigationSlice.address := "End" |};
     NavigationSlice.waypoints := [];
     NavigationSlice.steps := [step 0; step 1; step 2];
     NavigationSlice.route_distance := 300;
     NavigationSlice.route_duration := 90;
     NavigationSlice.memoryCount := 0;
     NavigationSlice.createdAt := 0%Z |}.

Definition started : NavigationSlice.NavigationState :=
  NavigationSlice.reducer NavigationSlice.initialState
    (NavigationSlice.startNavigation_fulfilled threeSteps).

Definition flatDistance (lat1 lon1 lat2 lon2 : Q) : Q :=
  (Qabs (lat1 - lat2) + Qabs (lon1 - lon2)) * 111000.

(** A request for the memories of user "u1" within 5 km of (0, 0); numbers
    are read by a stand-in for [parseFloat] that knows two literals. *)
Definition readNumber (s : string) : option Q :=
  if String.eqb s "0" then Some 0
  else if String.eqb s "5" then Some 5
  else None.

Definition kilometres (lat1 lon1 lat2 lon2 : Q) : Q :=
  (Qabs (lat1 - lat2) + Qabs (lon1 - lon2)) * 111.

Definition stored (user : string) : outcome (list NearbyMemories.Doc) :=
  Returned
    [ {| NearbyMemories.doc_id := "far"; NearbyMemories.doc_latitude := 1;
         NearbyMemories.doc_longitude := 1; NearbyMemories.doc_title := "Far" |};
      {| NearbyMemories.doc_id := "near"; NearbyMemories.doc_latitude := 1 # 100;
         NearbyMemories.doc_longitude := 0; NearbyMemories.doc_title := "Near" |} ].

Definition nearbyRequest : NearbyMemories.Request :=
  {| NearbyMemories.method := "GET";
     NearbyMemories.query :=
       {| NearbyMemories.userId := Some "u1"%string;
          NearbyMemories.latitude := Some "0"%string;
          NearbyMemories.longitude := Some "0"%string;
          NearbyMemories.radius := None |} |}.

End SliceScenario.

(** ** Vocabulary of the properties *)

(** Descending order of score. *)
Definition byScoreDescending (a b : MemoryWaypoint) : Prop := score b <= score a.

Definition sameScore (s : Q) (w : MemoryWaypoint) : bool := Qeq_bool (score w) s.

(** A waypoint without its sequence index. *)
Definition unindexed (w : MemoryWaypoint) : Memory * Q * Q :=
  (memory w, distanceFromRoute w, detourTime w).

(** What it is for a memory to pass the filters of the memory list: it
    carries one of the selected tags, when tags are selected; if it is dated,
    its date is not before the start and not after the end of the date
    range, for the bounds that are set; and it has the selected importance,
    when one is selected. *)
Definition passes (filters : MemoriesSlice.ActiveFilters)
  (memory : MemoriesSlice.Memory) : Prop :=
  (MemoriesSlice.filter_tags filters = []
   \/ exists tagId,
        In tagId (MemoriesSlice.filter_tags filters)
        /\ In tagId (map MemoriesSlice.tag_id (MemoriesSlice.tags memory)))
  /\ (forall start day,
        MemoriesSlice.from (MemoriesSlice.dateRange filters) = Some start ->
        MemoriesSlice.date memory = Some day -> (start <= day)%Z)
  /\ (forall finish day,
        MemoriesSlice.to (MemoriesSlice.dateRange filters) = Some finish ->
        MemoriesSlice.date memory = Some day -> (day <= finish)%Z)
  /\ (forall wanted,
        MemoriesSlice.filter_importance filters = Some wanted ->
        MemoriesSlice.importance memory == wanted).

(** The state [stopNavigation] leaves behind. *)
Definition stopped (s : NavigationState) : NavigationState :=
  {| origin := origin s;
     destination := destination s;
     currentRoute := currentRoute s;
     alternativeRoutes := alternativeRoutes s;
     activeNavigation := false;
     currentStepIndex := 0;
     upcomingMemory := None;
     distanceToNextMemory := None;
     navigationStartTime := None;
     estimatedArrivalTime := None;
     travelledDistance := 0 |}.

(** The detour test of [findPotentialMemoryWaypoints] on one memory. *)
Definition detourMinutes (calculateDistance : Coordinates -> Coordinates -> Q)
  (o d : Coordinates) (m : Memory) : Q :=
  ((calculateDistance o (coordOf m) + calculateDistance (coordOf m) d
    - calculateDistance o d) / 1000) / (averageSpeed / 60).

Definition qualifies (calculateDistance : Coordinates -> Coordinates -> Q)
  (o d : Coordinates) (maxDetourMinutes : Q) (m : Memory) : bool :=
  Qle_bool (detourMinutes calculateDistance o d m) maxDetourMinutes.

(** Distance of a waypoint from the point [p]. *)
Definition fromHere (calculateDistance : Coordinates -> Coordinates -> Q)
  (p : Coordinates) (w : MemoryWaypoint) : Q :=
  calculateDistance p (coordOf (memory w)).

(** The points a list of waypoints stands for. *)
Definition waypointCoords (ws : list MemoryWaypoint) : list Coordinates :=
  map (fun w => coordOf (memory w)) ws.

(** A nearest-neighbour tour from [p]: every point is at least as close to
    its predecessor as the points that come after it. *)
Fixpoint nearestChain (calculateDistance : Coordinates -> Coordinates -> Q)
  (p : Coordinates) (cs : list Coordinates) : Prop :=
  match cs with
  | [] => True
  | c :: r =>
      Forall (fun c' => calculateDistance p c <= calculateDistance p c') r
      /\ nearestChain calculateDistance c r
  end.

(** A leg as the assembler builds it: a straight line with one step that
    repeats the leg. *)
Definition straightLeg (calculateDistance : Coordinates -> Coordinates -> Q)
  (baseSpeed : Q) (leg : RouteLeg) : Prop :=
  leg_distance leg = calculateDistance (leg_startLocation leg) (leg_endLocation leg)
  /\ leg_duration leg = leg_distance leg / baseSpeed
  /\ exists text,
       steps leg = [ {| step_distance := leg_distance leg;
                        step_duration := leg_duration leg;
                        step_startLocation := leg_startLocation leg;
                        step_endLocation := leg_endLocation leg;
                        instruction := text |} ].

(** [k] presses of the next-step control, each on a freshly rendered
    provider. *)
Fixpoint advanceTimes (k : nat) (s : NavigationState) : outcome NavigationState :=
  match k with
  | O => Returned s
  | S k' => bind (fire navigateToNextStep s) (advanceTimes k')
  end.

(** * Properties *)

(** ** Priority sort *)

Lemma compareByPriority_le (a b : MemoryWaypoint) :
  Qle_bool (compareByPriority a b) 0 = true <-> score b <= score a.
Proof.
  unfold compareByPriority. rewrite Qle_bool_iff. split; intro H; lra.
Qed.

Lemma compareByPriority_gt (a b : MemoryWaypoint) :
  Qle_bool (compareByPriority a b) 0 = false -> score a < score b.
Proof.
  intro H. apply Qnot_le_lt. intro Hle.
  apply compareByPriority_le in Hle. congruence.
Qed.

Lemma insertByPriority_perm (a : MemoryWaypoint) (l : list MemoryWaypoint) :
  Permutation (a :: l) (insertByPriority a l).
Proof.
  induction l as [|b r IH]; simpl.
  - apply Permutation_refl.
  - destruct (Qle_bool (compareByPriority a b) 0).
    + apply Permutation_refl.
    + eapply perm_trans; [apply perm_swap|]. now apply perm_skip.
Qed.

Lemma sortWaypointsByPriority_perm (l : list MemoryWaypoint) :
  Permutation l (sortWaypointsByPriority l).
Proof.
  induction l as [|a l IH]; simpl.
  - constructor.
  - eapply perm_trans; [apply perm_skip, IH|]. apply insertByPriority_perm.
Qed.

Lemma insertByPriority_sorted (a : MemoryWaypoint) (l : list MemoryWaypoint) :
  StronglySorted byScoreDescending l ->
  StronglySorted byScoreDescending (insertByPriority a l).
Proof.
  induction 1 as [|b r Hr IH Hb]; simpl.
  - repeat constructor.
  - destruct (Qle_bool (compareByPriority a b) 0) eqn:E.
    + apply compareByPriority_le in E.
      constructor; [now constructor|].
      constructor; [exact E|].
      rewrite Forall_forall in *. intros y Hy.
      unfold byScoreDescending in *. specialize (Hb y Hy). lra.
    + apply compareByPriority_gt in E.
      constructor; [exact IH|].
      eapply Permutation_Forall; [apply insertByPriority_perm|].
      constructor; [|exact Hb].
      unfold byScoreDescending. lra.
Qed.

Lemma sortWaypointsByPriority_sorted (l : list MemoryWaypoint) :
  StronglySorted byScoreDescending (sortWaypointsByPriority l).
Proof.
  induction l as [|a l IH]; simpl.
  - constructor.
  - now apply insertByPriority_sorted.
Qed.

(** Inserting [a] does not move it past a waypoint of the same score. *)
Lemma insertByPriority_stable (s : Q) (a : MemoryWaypoint) (l : list MemoryWaypoint) :
  filter (sameScore s) (insertByPriority a l) = filter (sameScore s) (a :: l).
Proof.
  induction l as [|b r IH]; [reflexivity|].
  cbn [insertByPriority].
  destruct (Qle_bool (compareByPriority a b) 0) eqn:E; [reflexivity|].
  apply compareByPriority_gt in E.
  cbn [filter] in *. rewrite IH.
  destruct (sameScore s a) eqn:Ea; [|reflexivity].
  destruct (sameScore s b) eqn:Eb; [|reflexivity].
  unfold sameScore in Ea, Eb.
  apply Qeq_bool_iff in Ea. apply Qeq_bool_iff in Eb. lra.
Qed.

Lemma sortWaypointsByPriority_stable (s : Q) (l : list MemoryWaypoint) :
  filter (sameScore s) (sortWaypointsByPriority l) = filter (sameScore s) l.
Proof.
  induction l as [|a l IH]; [reflexivity|].
  cbn [sortWaypointsByPriority fold_right].
  rewrite insertByPriority_stable. cbn [filter].
  fold (sortWaypointsByPriority l). now rewrite IH.
Qed.

(** C6, as the code has it: the selector's sort returns its input reordered
    by descending score [10 * importance - 5 * detourTime]; waypoints of
    equal score keep the order they had in the input (no comparison of
    candidate ids takes place).  Being a function of the input list, the
    result is the same on every run. *)
Theorem sortWaypointsByPriority_descending_stable (l : list MemoryWaypoint) :
  Permutation l (sortWaypointsByPriority l)
  /\ StronglySorted (fun a b =>
       importance (memory b) * 10 - detourTime b * 5
       <= importance (memory a) * 10 - detourTime a * 5)
       (sortWaypointsByPriority l)
  /\ forall s, filter (sameScore s) (sortWaypointsByPriority l) = filter (sameScore s) l.
Proof.
  split; [apply sortWaypointsByPriority_perm|].
  split; [apply sortWaypointsByPriority_sorted|].
  intro s. apply sortWaypointsByPriority_stable.
Qed.

(** C6 as stated fails: two waypoints of equal score come out in input
    order, here "b" before "a"; and in the order "a", "b" when given so. *)
Lemma sortWaypointsByPriority_ties_not_by_id :
  score Scenario.tieB == score Scenario.tieA
  /\ sortWaypointsByPriority [Scenario.tieB; Scenario.tieA]
     = [Scenario.tieB; Scenario.tieA]
  /\ tiesOrderedById (sortWaypointsByPriority [Scenario.tieB; Scenario.tieA]) = false
  /\ sortWaypointsByPriority [Scenario.tieA; Scenario.tieB]
     = [Scenario.tieA; Scenario.tieB].
Proof.
  repeat split; reflexivity.
Qed.

(** ** Waypoint selection *)

Section SelectorFacts.

Variable calculateDistance : Coordinates -> Coordinates -> Q.

Lemma collectWaypoints_within (o d : Coordinates) (direct maxDetourMinutes : Q)
  (ms : list Memory) (index : nat) :
  Forall (fun w => detourTime w <= maxDetourMinutes)
    (collectWaypoints calculateDistance o d direct maxDetourMinutes index ms).
Proof.
  revert index. induction ms as [|m r IH]; intro index; simpl.
  - constructor.
  - destruct (Qle_bool _ maxDetourMinutes) eqn:E; [|apply IH].
    constructor; [|apply IH]. simpl. now apply Qle_bool_iff.
Qed.

Lemma collectWaypoints_detour (o d : Coordinates) (direct maxDetourMinutes : Q)
  (ms : list Memory) (index : nat) :
  Forall (fun w =>
      distanceFromRoute w
      = calculateDistance o (coordOf (memory w))
        + calculateDistance (coordOf (memory w)) d - direct
      /\ detourTime w = (distanceFromRoute w / 1000) / (50 / 60))
    (collectWaypoints calculateDistance o d direct maxDetourMinutes index ms).
Proof.
  revert index. induction ms as [|m r IH]; intro index; simpl.
  - constructor.
  - destruct (Qle_bool _ maxDetourMinutes); [|apply IH].
    constructor; [|apply IH]. simpl. split; reflexivity.
Qed.

Lemma reindexFrom_detourTime (l : list MemoryWaypoint) (index : nat) :
  map detourTime (reindexFrom index l) = map detourTime l.
Proof.
  revert index. induction l as [|w r IH]; intro index; simpl; [reflexivity|].
  now rewrite IH.
Qed.

Lemma reindexFrom_memory (l : list MemoryWaypoint) (index : nat) :
  map memory (reindexFrom index l) = map memory l.
Proof.
  revert index. induction l as [|w r IH]; intro index; simpl; [reflexivity|].
  now rewrite IH.
Qed.

Lemma reindexFrom_distanceFromRoute (l : list MemoryWaypoint) (index : nat) :
  map distanceFromRoute (reindexFrom index l) = map distanceFromRoute l.
Proof.
  revert index. induction l as [|w r IH]; intro index; simpl; [reflexivity|].
  now rewrite IH.
Qed.

Lemma reindexFrom_waypointIndex (l : list MemoryWaypoint) (index : nat) :
  map waypointIndex (reindexFrom index l) = seq index (List.length l).
Proof.
  revert index. induction l as [|w r IH]; intro index; simpl; [reflexivity|].
  now rewrite IH.
Qed.

Lemma reindexFrom_length (l : list MemoryWaypoint) (index : nat) :
  List.length (reindexFrom index l) = List.length l.
Proof.
  revert index. induction l as [|w r IH]; intro index; simpl; [reflexivity|].
  now rewrite IH.
Qed.

(** *** The greedy loop visits every waypoint once *)

Lemma closestIndexFrom_range (p : Coordinates) (l : list MemoryWaypoint)
  (i closestIndex : nat) (closestDistance : option Q) :
  closestIndexFrom calculateDistance p i closestIndex closestDistance l = closestIndex
  \/ (i <= closestIndexFrom calculateDistance p i closestIndex closestDistance l
      < i + List.length l)%nat.
Proof.
  revert i closestIndex closestDistance.
  induction l as [|w r IH]; intros i closestIndex closestDistance; simpl.
  - now left.
  - match goal with |- context [if ?c then _ else _] => destruct c end.
    + right. destruct (IH (S i) i (Some (calculateDistance p (coordOf (memory w)))))
        as [-> | H]; lia.
    + destruct (IH (S i) closestIndex closestDistance) as [-> | H];
        [now left | right; lia].
Qed.

Lemma closestIndexFrom_in_range (p : Coordinates) (w : MemoryWaypoint)
  (r : list MemoryWaypoint) :
  (closestIndexFrom calculateDistance p 0 0 None (w :: r) < List.length (w :: r))%nat.
Proof.
  destruct (closestIndexFrom_range p (w :: r) 0 0 None) as [-> | H]; simpl in *; lia.
Qed.

Lemma removeAt_perm {A : Type} (l : list A) (i : nat) (x : A) :
  nth_error l i = Some x -> Permutation l (x :: removeAt i l).
Proof.
  revert i. induction l as [|y r IH]; intros [|i] H; simpl in *; try discriminate.
  - injection H as ->. apply Permutation_refl.
  - eapply perm_trans; [apply perm_skip, (IH _ H)|]. apply perm_swap.
Qed.

Lemma removeAt_length {A : Type} (l : list A) (i : nat) (x : A) :
  nth_error l i = Some x -> S (List.length (removeAt i l)) = List.length l.
Proof.
  intro H. apply removeAt_perm in H. apply Permutation_length in H.
  simpl in H. now symmetry.
Qed.

(** With [fuel] equal to the number of unvisited waypoints the loop ends
    because nothing is left to visit: its result holds all of them. *)
Lemma greedyVisit_perm (fuel : nat) :
  forall (p : Coordinates) (unvisited result : list MemoryWaypoint),
    List.length unvisited = fuel ->
    Permutation (result ++ unvisited)
      (greedyVisit calculateDistance fuel p unvisited result).
Proof.
  induction fuel as [|fuel IH]; intros p unvisited result Hlen.
  - destruct unvisited; [|discriminate]. simpl. now rewrite app_nil_r.
  - destruct unvisited as [|w r]; [discriminate|].
    cbn [greedyVisit].
    pose proof (closestIndexFrom_in_range p w r) as Hrange.
    destruct (nth_error (w :: r) _) as [next|] eqn:E.
    + pose proof (removeAt_perm _ _ _ E) as Hperm.
      pose proof (removeAt_length _ _ _ E) as Hl.
      eapply perm_trans; [|apply IH; simpl in *; lia].
      rewrite <- app_assoc. apply Permutation_app_head. exact Hperm.
    + apply nth_error_None in E. lia.
Qed.

End SelectorFacts.

(** ** Sequencing and assembly *)

Lemma reindexFrom_unindexed (l : list MemoryWaypoint) (index : nat) :
  map unindexed (reindexFrom index l) = map unindexed l.
Proof.
  revert index. induction l as [|w r IH]; intro index; simpl; [reflexivity|].
  now rewrite IH.
Qed.

Lemma firstn_Forall {A : Type} (P : A -> Prop) (n : nat) (l : list A) :
  Forall P l -> Forall P (firstn n l).
Proof.
  intro H. revert n. induction H as [|x l Hx Hl IH]; intros [|n]; simpl;
    constructor; auto.
Qed.

Section AssemblyFacts.

Variable calculateDistance : Coordinates -> Coordinates -> Q.

(** Whatever the number of waypoints, the sequencer returns each of them
    once, up to the sequence index. *)
Lemma orderWaypointsByGreedyPath_perm (s e : Coordinates) (ws : list MemoryWaypoint) :
  Permutation (map unindexed ws)
    (map unindexed (orderWaypointsByGreedyPath calculateDistance s e ws)).
Proof.
  unfold orderWaypointsByGreedyPath.
  destruct (List.length ws <=? 1)%nat; [apply Permutation_refl|].
  rewrite reindexFrom_unindexed. apply Permutation_map.
  apply (greedyVisit_perm calculateDistance (List.length ws) s ws [] eq_refl).
Qed.

Lemma orderWaypointsByGreedyPath_length (s e : Coordinates) (ws : list MemoryWaypoint) :
  List.length (orderWaypointsByGreedyPath calculateDistance s e ws) = List.length ws.
Proof.
  pose proof (Permutation_length (orderWaypointsByGreedyPath_perm s e ws)) as H.
  now rewrite !length_map in H.
Qed.

(** From two waypoints on, the sequence indices are 0, 1, ..., N-1 in
    visiting order. *)
Lemma orderWaypointsByGreedyPath_indices (s e : Coordinates) (ws : list MemoryWaypoint) :
  (2 <= List.length ws)%nat ->
  map waypointIndex (orderWaypointsByGreedyPath calculateDistance s e ws) = seq 0 (List.length ws).
Proof.
  intro H. unfold orderWaypointsByGreedyPath.
  destruct (Nat.leb_spec (List.length ws) 1); [lia|].
  rewrite reindexFrom_waypointIndex. f_equal.
  pose proof (Permutation_length
    (greedyVisit_perm calculateDistance (List.length ws) s ws [] eq_refl)) as Hl.
  now rewrite <- Hl.
Qed.

Lemma orderWaypointsByGreedyPath_Forall (P : MemoryWaypoint -> Prop)
  (s e : Coordinates) (ws : list MemoryWaypoint) :
  (forall a b, unindexed a = unindexed b -> P a -> P b) ->
  Forall P ws -> Forall P (orderWaypointsByGreedyPath calculateDistance s e ws).
Proof.
  intros HP H. rewrite Forall_forall in *. intros w Hw.
  apply (in_map unindexed) in Hw.
  apply (Permutation_in _ (Permutation_sym (orderWaypointsByGreedyPath_perm s e ws)))
    in Hw.
  apply in_map_iff in Hw. destruct Hw as (w' & Heq & Hin).
  apply (HP w'); auto.
Qed.

Lemma memoryWaypoints_assemble (o d : Coordinates) (ws : list MemoryWaypoint)
  (mode : string) :
  memoryWaypoints (generateRouteWithWaypoints calculateDistance o d ws mode)
  = match ws with [] => [] | _ :: _ => orderWaypointsByGreedyPath calculateDistance o d ws end.
Proof.
  unfold generateRouteWithWaypoints.
  destruct ws as [|w r]; [reflexivity|].
  destruct (legsLoop _ _ _ _ _ _ _) as [[[ls td] tdur] prev]. reflexivity.
Qed.

Lemma assemble_Forall (P : MemoryWaypoint -> Prop) (o d : Coordinates)
  (ws : list MemoryWaypoint) (mode : string) :
  (forall a b, unindexed a = unindexed b -> P a -> P b) ->
  Forall P ws ->
  Forall P (memoryWaypoints (generateRouteWithWaypoints calculateDistance o d ws mode)).
Proof.
  intros HP H. rewrite memoryWaypoints_assemble.
  destruct ws; [constructor|]. now apply orderWaypointsByGreedyPath_Forall.
Qed.

(** *** Totals of an assembled route *)

Lemma sumLegDistances_snoc (ls : list RouteLeg) (leg : RouteLeg) :
  sumLegDistances (ls ++ [leg]) = sumLegDistances ls + leg_distance leg.
Proof.
  unfold sumLegDistances. now rewrite fold_left_app.
Qed.

Lemma legsLoop_totals (baseSpeed : Q) (ws : list MemoryWaypoint) :
  forall prevPoint ls td tdur ls' td' tdur' prev',
    legsLoop calculateDistance baseSpeed ws prevPoint ls td tdur
      = (ls', td', tdur', prev') ->
    td == sumLegDistances ls -> tdur == td / baseSpeed ->
    td' == sumLegDistances ls' /\ tdur' == td' / baseSpeed.
Proof.
  induction ws as [|w r IH]; intros prevPoint ls td tdur ls' td' tdur' prev' E Hd Ht.
  - simpl in E. injection E as <- <- <- <-. now split.
  - simpl in E. apply IH in E; [exact E| |].
    + rewrite sumLegDistances_snoc. cbn [leg_distance]. now rewrite Hd.
    + rewrite Ht. unfold Qdiv. ring.
Qed.

Lemma legsLoop_length (baseSpeed : Q) (ws : list MemoryWaypoint) :
  forall prevPoint ls td tdur,
    List.length (fst (fst (fst (legsLoop calculateDistance baseSpeed ws prevPoint ls td tdur))))
    = (List.length ls + List.length ws)%nat.
Proof.
  induction ws as [|w r IH]; intros; simpl; [lia|].
  rewrite IH, length_app. simpl. lia.
Qed.

End AssemblyFacts.

(** ** The claims on selection, sequencing and assembly *)

Lemma shuffleAndSelectWaypoints_incl (random : nat -> Q)
  (shuffleOrder : nat -> list MemoryWaypoint -> list MemoryWaypoint)
  (n : nat) (l : list MemoryWaypoint) :
  (forall n l, incl (shuffleOrder n l) l) ->
  incl (shuffleAndSelectWaypoints random shuffleOrder n l) l.
Proof.
  intro H. unfold shuffleAndSelectWaypoints.
  destruct (List.length l <=? 2)%nat; [apply incl_refl|].
  intros w Hw. apply (H n). revert Hw. generalize (shuffleOrder n l) as l'.
  generalize (Z.to_nat (Z.max 1 (Qfloor
    (random n * (inject_Z (Z.of_nat (List.length l)) * (4 # 10))
     + inject_Z (Z.of_nat (List.length l)) * (5 # 10))))) as k.
  induction k as [|k IH]; intros [|x l'] Hw; simpl in *; try contradiction.
  destruct Hw as [-> | Hw]; [now left | right; eauto].
Qed.

Lemma alternativesLoop_Forall (calculateDistance : Coordinates -> Coordinates -> Q)
  (random : nat -> Q) (shuffleOrder : nat -> list MemoryWaypoint -> list MemoryWaypoint)
  (P : MemoryWaypoint -> Prop) (o d : Coordinates) (ws : list MemoryWaypoint)
  (mode : string) (remaining : nat) :
  (forall n l, incl (shuffleOrder n l) l) ->
  (forall a b, unindexed a = unindexed b -> P a -> P b) ->
  Forall P ws ->
  forall i,
    Forall (fun r => Forall P (memoryWaypoints r))
      (alternativesLoop calculateDistance random shuffleOrder o d ws mode i remaining).
Proof.
  intros Hsh HP Hws. induction remaining as [|k IH]; intro i; simpl; constructor.
  - apply assemble_Forall; [exact HP|].
    eapply incl_Forall; [|exact Hws]. now apply shuffleAndSelectWaypoints_incl.
  - apply IH.
Qed.

(** C4: no waypoint returned by [findPotentialMemoryWaypoints] has a detour
    time above [maxDetourMinutes]; the same holds of the waypoints of the
    primary route built from the sorted and truncated selection, and, when
    shuffling an array returns elements of that array, of every route
    [calculateRoutes] returns. *)
Theorem selector_respects_detour_budget
  (calculateDistance : Coordinates -> Coordinates -> Q) (memories : list Memory)
  (random : nat -> Q) (shuffleOrder : nat -> list MemoryWaypoint -> list MemoryWaypoint)
  (o d : Coordinates) (maxDetourMinutes : Q) :
  let withinBudget := fun w => ~ maxDetourMinutes < detourTime w in
  let selected := findPotentialMemoryWaypoints calculateDistance o d memories maxDetourMinutes in
  Forall withinBudget selected
  /\ (forall maxMemories mode,
        Forall withinBudget
          (memoryWaypoints
             (generateRouteWithWaypoints calculateDistance o d
                (firstn maxMemories (sortWaypointsByPriority selected)) mode)))
  /\ (forall mode maxMemories navigationState prevState s' routes,
        (forall n l, incl (shuffleOrder n l) l) ->
        origin navigationState = Some o ->
        destination navigationState = Some d ->
        calculateRoutes calculateDistance memories random shuffleOrder
          mode maxDetourMinutes maxMemories navigationState prevState
          = Returned (s', routes) ->
        Forall (fun r => Forall withinBudget (memoryWaypoints r)) routes).
Proof.
  intros withinBudget selected.
  assert (Hsel : Forall withinBudget selected).
  { eapply Forall_impl; [|apply collectWaypoints_within].
    intros w Hw. unfold withinBudget. simpl in Hw. lra. }
  assert (HP : forall a b, unindexed a = unindexed b -> withinBudget a -> withinBudget b).
  { intros a b Hab Ha. unfold withinBudget, unindexed in *.
    injection Hab as _ _ Hdt. now rewrite <- Hdt. }
  assert (Hsorted : Forall withinBudget (sortWaypointsByPriority selected)).
  { eapply Permutation_Forall; [apply sortWaypointsByPriority_perm | exact Hsel]. }
  split; [exact Hsel|]. split.
  - intros k mode. apply assemble_Forall; [exact HP|]. now apply firstn_Forall.
  - intros mode k ns prev s' routes Hsh Ho Hd Hcalc.
    unfold calculateRoutes in Hcalc. rewrite Ho, Hd in Hcalc.
    injection Hcalc as _ <-.
    constructor.
    + apply assemble_Forall; [exact HP|]. now apply firstn_Forall.
    + unfold generateAlternativeRoutes.
      destruct (_ <=? 1)%nat; [constructor|].
      now apply alternativesLoop_Forall.
Qed.

Lemma selector_respects_detour_budget_witness :
  Forall (fun r => Forall (fun w => ~ 60 < detourTime w) (memoryWaypoints r))
    [generateRouteWithWaypoints Scenario.gridDistance Scenario.start Scenario.goal
       (firstn 5 (sortWaypointsByPriority
          (findPotentialMemoryWaypoints Scenario.gridDistance Scenario.start
             Scenario.goal [Scenario.farMemory; Scenario.nearMemory] 60)))
       "driving"].
Proof.
  refine (proj2 (proj2 (selector_respects_detour_budget Scenario.gridDistance
    [Scenario.farMemory; Scenario.nearMemory] Scenario.halfDraw Scenario.noShuffle
    Scenario.start Scenario.goal 60))
    "driving"%string 5%nat Scenario.planned Scenario.planned _ _ _ _ _ _).
  - intros n l. apply incl_refl.
  - reflexivity.
  - reflexivity.
  - reflexivity.
Defined.

(** C5, as the code has it: the detour time of a candidate is its detour
    distance in kilometres divided by a fixed 50 km/h expressed per minute,
    [(detourDistance / 1000) / (50 / 60)]; the selector takes no transport
    mode, so the waypoints of an assembled route are the same for every
    mode. *)
Theorem detourTime_fixed_speed
  (calculateDistance : Coordinates -> Coordinates -> Q) (memories : list Memory)
  (o d : Coordinates) (maxDetourMinutes : Q) :
  let selected := findPotentialMemoryWaypoints calculateDistance o d memories maxDetourMinutes in
  Forall (fun w =>
      distanceFromRoute w
      == calculateDistance o (coordOf (memory w))
         + calculateDistance (coordOf (memory w)) d - calculateDistance o d
      /\ detourTime w == (distanceFromRoute w / 1000) / (50 / 60))
    selected
  /\ forall maxMemories mode1 mode2,
       memoryWaypoints (generateRouteWithWaypoints calculateDistance o d
         (firstn maxMemories (sortWaypointsByPriority selected)) mode1)
       = memoryWaypoints (generateRouteWithWaypoints calculateDistance o d
         (firstn maxMemories (sortWaypointsByPriority selected)) mode2).
Proof.
  intro selected. split.
  - eapply Forall_impl; [|apply collectWaypoints_detour].
    intros w [H1 H2]. simpl in *. rewrite H1 at 1. rewrite H2. split; reflexivity.
  - intros k mode1 mode2. now rewrite !memoryWaypoints_assemble.
Qed.

(** Whatever the distance function, a detour of non-zero length is never
    timed at the speed of the transport mode: 50 km/h is none of the four
    speeds of [getBaseSpeedForMode]. *)
Lemma detourTime_differs_from_mode_formula
  (calculateDistance : Coordinates -> Coordinates -> Q) (memories : list Memory)
  (o d : Coordinates) (maxDetourMinutes : Q) (mode : string) :
  Forall (fun w =>
      ~ distanceFromRoute w == 0 ->
      ~ detourTime w == distanceFromRoute w / getBaseSpeedForMode mode / 60)
    (findPotentialMemoryWaypoints calculateDistance o d memories maxDetourMinutes).
Proof.
  eapply Forall_impl; [|apply collectWaypoints_detour].
  intros w [_ Ht] Hnz Heq. apply Hnz. rewrite Ht in Heq.
  set (x := distanceFromRoute w) in *.
  assert (Hc : forall c, x / 1000 / (50 / 60) == x / c / 60 ->
                         ~ (1 / 1000 / (50 / 60) - 1 / c / 60 == 0) -> x == 0).
  { intros c H Hne.
    assert (Hz : x * (1 / 1000 / (50 / 60) - 1 / c / 60) == 0).
    { transitivity (x / 1000 / (50 / 60) - x / c / 60).
      - unfold Qdiv. ring.
      - rewrite H. ring. }
    apply Qmult_integral in Hz. tauto. }
  unfold getBaseSpeedForMode in Heq.
  destruct (String.eqb _ "walking");
    [|destruct (String.eqb _ "bicycling"); [|destruct (String.eqb _ "transit")]];
    (apply (Hc _ Heq); vm_compute; discriminate).
Qed.

(** C5 as stated fails: in the scenario of the specification the detour of
    2220 m is given 2.664 minutes, which is [detourDistance / speed / 60] for
    none of the four modes. *)
Lemma detourTime_ignores_mode :
  exists w,
    findPotentialMemoryWaypoints Scenario.gridDistance Scenario.start Scenario.goal
      [Scenario.nearMemory] 60 = [w]
    /\ distanceFromRoute w == 2220
    /\ detourTime w == 2664 # 1000
    /\ forall mode,
         In mode ["walking"; "bicycling"; "transit"; "driving"]%string ->
         ~ detourTime w == distanceFromRoute w / getBaseSpeedForMode mode / 60.
Proof.
  eexists. split; [reflexivity|]. split; [reflexivity|]. split; [reflexivity|].
  intros mode [<- | [<- | [<- | [<- | []]]]]; vm_compute; discriminate.
Qed.

(** C7 at the failing input: a single selected waypoint is returned as it
    came, before the indices are rewritten.  With the candidates
    [[far; near]] only the second qualifies; it enters the route with the
    index 1 it had in the candidate list, where the sequence indices of a
    one-waypoint route should be the permutation [[0]]. *)
Theorem orderWaypointsByGreedyPath_single_keeps_index :
  (forall calculateDistance s e w,
     orderWaypointsByGreedyPath calculateDistance s e [w] = [w])
  /\ let selected :=
       firstn 5 (sortWaypointsByPriority
         (findPotentialMemoryWaypoints Scenario.gridDistance Scenario.start
            Scenario.goal [Scenario.farMemory; Scenario.nearMemory] 60)) in
     let route :=
       generateRouteWithWaypoints Scenario.gridDistance Scenario.start
         Scenario.goal selected "driving" in
     map (fun w => id (memory w)) selected = ["near"%string]
     /\ map waypointIndex (memoryWaypoints route) = [1%nat]
     /\ map waypointIndex (memoryWaypoints route)
        <> seq 0 (List.length (memoryWaypoints route)).
Proof.
  split; [reflexivity|].
  cbv zeta. split; [reflexivity|]. split; [reflexivity|].
  vm_compute. discriminate.
Qed.

(** What the sequencer does guarantee: the output has the length of the
    input and holds the same waypoints, each once, and from two waypoints on
    their indices are 0..N-1 in visiting order. *)
Lemma orderWaypointsByGreedyPath_visits_each_once
  (calculateDistance : Coordinates -> Coordinates -> Q) (s e : Coordinates)
  (ws : list MemoryWaypoint) :
  let ordered := orderWaypointsByGreedyPath calculateDistance s e ws in
  List.length ordered = List.length ws
  /\ Permutation (map unindexed ws) (map unindexed ordered)
  /\ ((2 <= List.length ws)%nat -> map waypointIndex ordered = seq 0 (List.length ws)).
Proof.
  cbv zeta. split; [apply orderWaypointsByGreedyPath_length|].
  split; [apply orderWaypointsByGreedyPath_perm|].
  apply orderWaypointsByGreedyPath_indices.
Qed.

(** C8: the distance of an assembled route is the sum of the distances of
    its legs, and its duration is that distance divided by the speed of the
    transport mode (exactly so in rational arithmetic). *)
Theorem generateRouteWithWaypoints_totals
  (calculateDistance : Coordinates -> Coordinates -> Q) (o d : Coordinates)
  (ws : list MemoryWaypoint) (mode : string) :
  let route := generateRouteWithWaypoints calculateDistance o d ws mode in
  distance route == sumLegDistances (legs route)
  /\ duration route == distance route / getBaseSpeedForMode mode.
Proof.
  cbv zeta. unfold generateRouteWithWaypoints.
  destruct ws as [|w r].
  - cbn [distance duration legs]. split; [|reflexivity].
    unfold sumLegDistances. simpl. ring.
  - destruct (legsLoop _ _ _ _ _ _ _) as [[[ls td] tdur] prev] eqn:E.
    apply legsLoop_totals in E; [| reflexivity | unfold Qdiv; ring].
    destruct E as [Hd Ht].
    cbn [distance duration legs]. rewrite sumLegDistances_snoc.
    cbn [leg_distance]. split.
    + now rewrite Hd.
    + rewrite Ht. unfold Qdiv. ring.
Qed.

(** C9: with no waypoint selected the assembler returns, without throwing,
    the direct route: one leg, no waypoints, and the distance from origin to
    destination; and no candidate yields no selected waypoint. *)
Theorem generateRouteWithWaypoints_direct
  (calculateDistance : Coordinates -> Coordinates -> Q) (o d : Coordinates)
  (mode : string) :
  let route := generateRouteWithWaypoints calculateDistance o d [] mode in
  List.length (legs route) = 1%nat
  /\ map leg_startLocation (legs route) = [o]
  /\ map leg_endLocation (legs route) = [d]
  /\ memoryWaypoints route = []
  /\ distance route = calculateDistance o d
  /\ forall maxDetourMinutes maxMemories,
       firstn maxMemories (sortWaypointsByPriority
         (findPotentialMemoryWaypoints calculateDistance o d [] maxDetourMinutes)) = [].
Proof.
  cbv zeta. repeat split. intros m k. destruct k; reflexivity.
Qed.

(** The same through [calculateRoutes]: when no candidate qualifies, the
    call returns the direct route and no alternative. *)
Lemma calculateRoutes_without_waypoints
  (calculateDistance : Coordinates -> Coordinates -> Q) (memories : list Memory)
  (random : nat -> Q) (shuffleOrder : nat -> list MemoryWaypoint -> list MemoryWaypoint)
  (mode : string) (maxDetourMinutes : Q) (maxMemories : nat)
  (navigationState prevState : NavigationState) (o d : Coordinates) :
  origin navigationState = Some o ->
  destination navigationState = Some d ->
  findPotentialMemoryWaypoints calculateDistance o d memories maxDetourMinutes = [] ->
  exists s',
    calculateRoutes calculateDistance memories random shuffleOrder mode
      maxDetourMinutes maxMemories navigationState prevState
    = Returned (s', [generateRouteWithWaypoints calculateDistance o d [] mode])
    /\ currentRoute s' = Some (generateRouteWithWaypoints calculateDistance o d [] mode).
Proof.
  intros Ho Hd Hnone. unfold calculateRoutes. rewrite Ho, Hd, Hnone.
  cbn [sortWaypointsByPriority fold_right].
  replace (firstn maxMemories (@nil MemoryWaypoint)) with (@nil MemoryWaypoint)
    by (now destruct maxMemories).
  eexists. split; reflexivity.
Qed.

(** ** Navigation tracker *)

Lemma updateCurrentLocation_inactive
  (calculateDistance : Coordinates -> Coordinates -> Q) (location : Coordinates)
  (navigationState prevState : NavigationState) :
  activeNavigation navigationState = false ->
  updateCurrentLocation calculateDistance location navigationState prevState
  = Returned prevState.
Proof.
  intro H. unfold updateCurrentLocation. now rewrite H.
Qed.

Lemma navigateToNextStep_inactive (navigationState prevState : NavigationState) :
  activeNavigation navigationState = false ->
  navigateToNextStep navigationState prevState = Returned prevState.
Proof.
  intro H. unfold navigateToNextStep. now rewrite H.
Qed.

Lemma recalculateRoute_inactive
  (calculateDistance : Coordinates -> Coordinates -> Q) (memories : list Memory)
  (userProfile : option NavigationPreferences) (random : nat -> Q)
  (shuffleOrder : nat -> list MemoryWaypoint -> list MemoryWaypoint) (now : Q)
  (navigationState prevState : NavigationState) :
  activeNavigation navigationState = false ->
  recalculateRoute calculateDistance memories userProfile random shuffleOrder now
    navigationState prevState
  = Returned prevState.
Proof.
  intro H. unfold recalculateRoute. now rewrite H.
Qed.

(** C10: while [activeNavigation] is false, a location update and an advance
    to the next step return normally and leave the navigation state as it
    was. *)
Theorem inactive_update_and_advance_are_noops
  (calculateDistance : Coordinates -> Coordinates -> Q) (location : Coordinates)
  (s : NavigationState) :
  activeNavigation s = false ->
  fire (updateCurrentLocation calculateDistance location) s = Returned s
  /\ fire navigateToNextStep s = Returned s.
Proof.
  intro H. unfold fire. split.
  - now apply updateCurrentLocation_inactive.
  - now apply navigateToNextStep_inactive.
Qed.

Lemma inactive_update_and_advance_are_noops_witness :
  activeNavigation Scenario.planned = false
  /\ fire (updateCurrentLocation Scenario.gridDistance Scenario.goal) Scenario.planned
     = Returned Scenario.planned
  /\ fire navigateToNextStep Scenario.planned = Returned Scenario.planned.
Proof.
  split; [reflexivity|].
  apply (inactive_update_and_advance_are_noops Scenario.gridDistance Scenario.goal
           Scenario.planned).
  reflexivity.
Defined.

(** C2, as the code has it: while no navigation is active no operation
    raises an error condition.  [stopNavigation] returns the state with its
    progress fields cleared; a location update, an advance to the next step
    and a recalculation return the state unchanged. *)
Theorem inactive_operations_return_normally
  (calculateDistance : Coordinates -> Coordinates -> Q) (memories : list Memory)
  (userProfile : option NavigationPreferences) (random : nat -> Q)
  (shuffleOrder : nat -> list MemoryWaypoint -> list MemoryWaypoint)
  (location : Coordinates) (now : Q) (s : NavigationState) :
  activeNavigation s = false ->
  stopNavigation s = Returned (stopped s)
  /\ fire (updateCurrentLocation calculateDistance location) s = Returned s
  /\ fire navigateToNextStep s = Returned s
  /\ fire (recalculateRoute calculateDistance memories userProfile random
             shuffleOrder now) s = Returned s.
Proof.
  intro H. unfold fire. split; [reflexivity|]. split; [|split].
  - now apply updateCurrentLocation_inactive.
  - now apply navigateToNextStep_inactive.
  - now apply recalculateRoute_inactive.
Qed.

Lemma inactive_operations_return_normally_witness :
  activeNavigation defaultNavigationState = false
  /\ stopNavigation defaultNavigationState = Returned (stopped defaultNavigationState)
  /\ fire (updateCurrentLocation Scenario.gridDistance Scenario.start)
       defaultNavigationState = Returned defaultNavigationState
  /\ fire navigateToNextStep defaultNavigationState = Returned defaultNavigationState
  /\ fire (recalculateRoute Scenario.gridDistance [] None Scenario.halfDraw
             Scenario.noShuffle 0) defaultNavigationState
     = Returned defaultNavigationState.
Proof.
  split; [reflexivity|].
  apply (inactive_operations_return_normally Scenario.gridDistance [] None
           Scenario.halfDraw Scenario.noShuffle Scenario.start 0
           defaultNavigationState).
  reflexivity.
Defined.

(** C2 as stated fails: on the idle default state, [stopNavigation] and a
    location update both return, with the state unchanged, where the claim
    has them fail with [InvalidSessionState]. *)
Lemma stop_and_update_while_idle_return :
  activeNavigation defaultNavigationState = false
  /\ stopNavigation defaultNavigationState = Returned defaultNavigationState
  /\ fire (updateCurrentLocation Scenario.gridDistance Scenario.start)
       defaultNavigationState = Returned defaultNavigationState
  /\ forall msg, stopNavigation defaultNavigationState <> Thrown msg.
Proof.
  repeat split. intros msg H. discriminate H.
Qed.

Lemma Qlt_bool_true (x y : Q) : x < y -> Qlt_bool x y = true.
Proof.
  intro H. unfold Qlt_bool. destruct (Qle_bool y x) eqn:E; [|reflexivity].
  apply Qle_bool_iff in E. lra.
Qed.

(** C1 at the failing input: a session started on the direct route is on
    its final (and only) step; a location update within 20 m of that step's
    end returns a session that is still active, on the same route, with
    [currentStepIndex] equal to the number of steps, which is no index of
    the flattened step sequence.  [navigateToNextStep] guards the same
    increment with [newStepIndex >= totalSteps] and stops the session;
    [updateCurrentLocation] stores the index unchecked. *)
Theorem update_at_final_step_stays_active
  (calculateDistance : Coordinates -> Coordinates -> Q) (o d location : Coordinates)
  (mode : string) (now : Q) (s0 : NavigationState) :
  let route := generateRouteWithWaypoints calculateDistance o d [] mode in
  currentRoute s0 = Some route ->
  calculateDistance location d < 20 ->
  exists s1 s2,
    fire (startNavigation now 0) s0 = Returned s1
    /\ activeNavigation s1 = true
    /\ (currentStepIndex s1 + 1 = totalSteps route)%nat
    /\ fire (updateCurrentLocation calculateDistance location) s1 = Returned s2
    /\ activeNavigation s2 = true
    /\ currentRoute s2 = Some route
    /\ currentStepIndex s2 = totalSteps route
    /\ nth_error (flatSteps route) (currentStepIndex s2) = None
    /\ fire navigateToNextStep s1 = Returned (stopped s1).
Proof.
  intros route Hroute Hnear.
  unfold fire, startNavigation, availableRoutes. rewrite Hroute.
  cbn [List.length Nat.leb nth_error].
  eexists. eexists. split; [reflexivity|].
  split; [reflexivity|]. split; [reflexivity|].
  unfold updateCurrentLocation, findCurrentStep.
  cbn [activeNavigation currentRoute currentStepIndex].
  unfold route at 1 2 3. unfold generateRouteWithWaypoints.
  cbn [legs steps scanLegs scanSteps Nat.eqb nth_error step_endLocation].
  rewrite (Qlt_bool_true _ _ Hnear). cbn [bind].
  split; [reflexivity|]. repeat split.
Qed.

Lemma update_at_final_step_stays_active_witness :
  exists s1 s2,
    fire (startNavigation 0 0) Scenario.underWay = Returned s1
    /\ activeNavigation s1 = true
    /\ (currentStepIndex s1 + 1 = totalSteps Scenario.directRoute)%nat
    /\ fire (updateCurrentLocation Scenario.gridDistance Scenario.goal) s1 = Returned s2
    /\ activeNavigation s2 = true
    /\ currentRoute s2 = Some Scenario.directRoute
    /\ currentStepIndex s2 = totalSteps Scenario.directRoute
    /\ nth_error (flatSteps Scenario.directRoute) (currentStepIndex s2) = None
    /\ fire navigateToNextStep s1 = Returned (stopped s1).
Proof.
  apply (update_at_final_step_stays_active Scenario.gridDistance Scenario.start
           Scenario.goal Scenario.goal "driving" 0 Scenario.underWay).
  - reflexivity.
  - reflexivity.
Defined.




(** The session of the counterexample is one the provider reaches: origin
    and destination set, routes calculated with a budget of one minute,
    navigation started on the direct route, one location update at the
    start. *)
Lemma underWay_reached :
  exists s1 s2 routes s3,
    setOriginAndDestination Scenario.start Scenario.goal defaultNavigationState
      = Returned s1
    /\ calculateRoutes Scenario.gridDistance [Scenario.nearMemory] Scenario.halfDraw
         Scenario.noShuffle "driving" 1 5 s1 s1 = Returned (s2, routes)
    /\ routes = [Scenario.directRoute]
    /\ fire (startNavigation 0 0) s2 = Returned s3
    /\ fire (updateCurrentLocation Scenario.gridDistance Scenario.start) s3
       = Returned Scenario.underWay.
Proof.
  eexists. eexists. eexists. eexists.
  split; [reflexivity|]. split; [reflexivity|]. split; [reflexivity|].
  split; [reflexivity|]. vm_compute. reflexivity.
Qed.


(** On a route of several legs the defect shows in two ways.  On the final
    step of the two-leg route, [findCurrentStep] leaves its search with the
    indices of the first leg, so the update measures the distance to the end
    of the first step: at the destination the session stays on step 1, and
    at the waypoint it moves to step 2, past the last step; it is active in
    both cases. *)
Lemma update_on_last_leg_never_completes :
  totalSteps Scenario.detourRoute = 2%nat
  /\ (exists s,
        fire (updateCurrentLocation Scenario.gridDistance Scenario.goal)
          Scenario.onLastLeg = Returned s
        /\ activeNavigation s = true /\ currentStepIndex s = 1%nat)
  /\ (exists s,
        fire (updateCurrentLocation Scenario.gridDistance
                (coordOf Scenario.nearMemory)) Scenario.onLastLeg = Returned s
        /\ activeNavigation s = true /\ currentStepIndex s = 2%nat).
Proof.
  split; [reflexivity|].
  split; eexists; (split; [vm_compute; reflexivity | split; reflexivity]).
Qed.

(** * Further properties of the navigation provider *)

(** ** Selection *)

Lemma collectWaypoints_memories
  (calculateDistance : Coordinates -> Coordinates -> Q) (o d : Coordinates)
  (maxDetourMinutes : Q) (ms : list Memory) (index : nat) :
  map memory (collectWaypoints calculateDistance o d (calculateDistance o d)
                maxDetourMinutes index ms)
  = filter (qualifies calculateDistance o d maxDetourMinutes) ms.
Proof.
  revert index. induction ms as [|m r IH]; intro index; [reflexivity|].
  cbn [collectWaypoints filter]. unfold qualifies at 1, detourMinutes.
  destruct (Qle_bool _ maxDetourMinutes); cbn [map memory]; now rewrite IH.
Qed.

Lemma collectWaypoints_positions
  (calculateDistance : Coordinates -> Coordinates -> Q) (o d : Coordinates)
  (direct maxDetourMinutes : Q) (ms : list Memory) (index : nat) :
  Forall (fun w => (index <= waypointIndex w)%nat
                   /\ nth_error ms (waypointIndex w - index) = Some (memory w))
    (collectWaypoints calculateDistance o d direct maxDetourMinutes index ms).
Proof.
  revert index. induction ms as [|m r IH]; intro index; cbn [collectWaypoints].
  - constructor.
  - assert (Hrest : Forall (fun w => (index <= waypointIndex w)%nat
               /\ nth_error (m :: r) (waypointIndex w - index) = Some (memory w))
             (collectWaypoints calculateDistance o d direct maxDetourMinutes (S index) r)).
    { eapply Forall_impl; [|apply (IH (S index))].
      intros w [Hle Hnth]. split; [lia|].
      replace (waypointIndex w - index)%nat with (S (waypointIndex w - S index)) by lia.
      exact Hnth. }
    destruct (Qle_bool _ maxDetourMinutes); [|exact Hrest].
    constructor; [|exact Hrest].
    cbn [waypointIndex memory]. split; [lia|].
    now rewrite Nat.sub_diag.
Qed.

(** X1: the selector keeps exactly the memories whose detour, timed at
    50 km/h, fits the budget, in the order of the memory list, and labels
    each with its position in that list. *)
Theorem findPotentialMemoryWaypoints_is_filter
  (calculateDistance : Coordinates -> Coordinates -> Q) (o d : Coordinates)
  (memories : list Memory) (maxDetourMinutes : Q) :
  let selected :=
    findPotentialMemoryWaypoints calculateDistance o d memories maxDetourMinutes in
  map memory selected = filter (qualifies calculateDistance o d maxDetourMinutes) memories
  /\ Forall (fun w => nth_error memories (waypointIndex w) = Some (memory w)) selected.
Proof.
  cbv zeta. unfold findPotentialMemoryWaypoints. split.
  - apply collectWaypoints_memories.
  - eapply Forall_impl; [|apply collectWaypoints_positions].
    intros w [_ H]. now rewrite Nat.sub_0_r in H.
Qed.

(** X2: when going through a memory is never shorter than going straight
    (the triangle inequality from origin to destination), every selected
    waypoint has a non-negative detour distance and detour time, so its
    score is at most ten times its importance. *)
Theorem selected_detours_nonnegative
  (calculateDistance : Coordinates -> Coordinates -> Q) (o d : Coordinates)
  (memories : list Memory) (maxDetourMinutes : Q) :
  (forall c, calculateDistance o d <= calculateDistance o c + calculateDistance c d) ->
  Forall (fun w => 0 <= distanceFromRoute w
                   /\ 0 <= detourTime w
                   /\ score w <= importance (memory w) * 10)
    (findPotentialMemoryWaypoints calculateDistance o d memories maxDetourMinutes).
Proof.
  intro Htri. eapply Forall_impl; [|apply collectWaypoints_detour].
  intros w [Hd Ht]. cbv beta in *.
  assert (H0 : 0 <= distanceFromRoute w).
  { rewrite Hd. specialize (Htri (coordOf (memory w))). lra. }
  assert (H1 : 0 <= detourTime w).
  { rewrite Ht.
    assert (E : distanceFromRoute w / 1000 / (50 / 60)
                == distanceFromRoute w * (/ 1000 * / (50 * / 60)))
      by (unfold Qdiv; ring).
    rewrite E. apply Qmult_le_0_compat; [exact H0 | vm_compute; discriminate]. }
  split; [exact H0|]. split; [exact H1|]. unfold score. lra.
Qed.

(** The stand-in distance is a metric in the sense the properties need. *)
Lemma gridDistance_triangle (a b c : Coordinates) :
  Scenario.gridDistance a c <= Scenario.gridDistance a b + Scenario.gridDistance b c.
Proof.
  unfold Scenario.gridDistance.
  pose proof (Qabs_triangle (latitude a - latitude b) (latitude b - latitude c)) as H1.
  pose proof (Qabs_triangle (longitude a - longitude b) (longitude b - longitude c)) as H2.
  assert (E1 : latitude a - latitude b + (latitude b - latitude c)
               == latitude a - latitude c) by ring.
  assert (E2 : longitude a - longitude b + (longitude b - longitude c)
               == longitude a - longitude c) by ring.
  rewrite E1 in H1. rewrite E2 in H2. lra.
Qed.

Lemma gridDistance_nonneg (a b : Coordinates) : 0 <= Scenario.gridDistance a b.
Proof.
  unfold Scenario.gridDistance.
  pose proof (Qabs_nonneg (latitude a - latitude b)).
  pose proof (Qabs_nonneg (longitude a - longitude b)).
  apply Qmult_le_0_compat; [lra | discriminate].
Qed.

Lemma selected_detours_nonnegative_witness :
  Forall (fun w => 0 <= distanceFromRoute w
                   /\ 0 <= detourTime w
                   /\ score w <= importance (memory w) * 10)
    (findPotentialMemoryWaypoints Scenario.gridDistance Scenario.start Scenario.goal
       [Scenario.farMemory; Scenario.nearMemory] 60).
Proof.
  apply (selected_detours_nonnegative Scenario.gridDistance Scenario.start
           Scenario.goal [Scenario.farMemory; Scenario.nearMemory] 60).
  intro c. apply gridDistance_triangle.
Defined.

Lemma StronglySorted_app_split {A : Type} (R : A -> A -> Prop) (l1 l2 : list A) :
  StronglySorted R (l1 ++ l2) -> Forall (fun a => Forall (R a) l2) l1.
Proof.
  induction l1 as [|a l1 IH]; simpl; intro H; [constructor|].
  inversion H as [|? ? Hs Ha]; subst. constructor; [|now apply IH].
  apply Forall_app in Ha. tauto.
Qed.

(** X3: truncating the sorted selection keeps the best waypoints: the route
    takes [min maxMemories n] of the [n] qualifying waypoints, and no
    waypoint left out has a higher score than one that was taken. *)
Theorem selection_keeps_highest_scores (l : list MemoryWaypoint) (maxMemories : nat) :
  let sorted := sortWaypointsByPriority l in
  List.length (firstn maxMemories sorted) = Nat.min maxMemories (List.length l)
  /\ Permutation l (firstn maxMemories sorted ++ skipn maxMemories sorted)
  /\ Forall (fun taken =>
        Forall (fun leftOut => score leftOut <= score taken) (skipn maxMemories sorted))
       (firstn maxMemories sorted).
Proof.
  cbv zeta. split; [|split].
  - rewrite length_firstn.
    now rewrite <- (Permutation_length (sortWaypointsByPriority_perm l)).
  - rewrite firstn_skipn. apply sortWaypointsByPriority_perm.
  - apply (StronglySorted_app_split byScoreDescending).
    rewrite firstn_skipn. apply sortWaypointsByPriority_sorted.
Qed.

(** ** Sequencing *)

Lemma Qlt_bool_iff (x y : Q) : Qlt_bool x y = true <-> x < y.
Proof.
  unfold Qlt_bool. split; intro H.
  - apply Qnot_le_lt. intro Hle. apply Qle_bool_iff in Hle.
    rewrite Hle in H. discriminate.
  - destruct (Qle_bool y x) eqn:E; [|reflexivity].
    apply Qle_bool_iff in E. lra.
Qed.

Section GreedyFacts.

Variable calculateDistance : Coordinates -> Coordinates -> Q.
Variable p : Coordinates.

(** The scan keeps the first waypoint of least distance seen so far. *)
Lemma closestIndexFrom_least (l pre : list MemoryWaypoint)
  (closestIndex : nat) (closestDistance : option Q) :
  match closestDistance with
  | None => pre = []
  | Some c =>
      exists w, nth_error pre closestIndex = Some w /\ fromHere calculateDistance p w = c
                /\ Forall (fun w' => c <= fromHere calculateDistance p w') pre
  end ->
  pre ++ l <> [] ->
  exists w,
    nth_error (pre ++ l)
      (closestIndexFrom calculateDistance p (List.length pre) closestIndex
         closestDistance l) = Some w
    /\ Forall (fun w' => fromHere calculateDistance p w <= fromHere calculateDistance p w') (pre ++ l).
Proof.
  revert pre closestIndex closestDistance.
  induction l as [|x r IH]; intros pre closestIndex closestDistance Hinv Hne.
  - rewrite app_nil_r in *. cbn [closestIndexFrom].
    destruct closestDistance as [c|]; [|contradiction].
    destruct Hinv as (w & Hw & Hc & Hall). exists w. split; [exact Hw|].
    now rewrite Hc.
  - cbn [closestIndexFrom].
    replace (pre ++ x :: r) with ((pre ++ [x]) ++ r) by now rewrite <- app_assoc.
    replace (S (List.length pre)) with (List.length (pre ++ [x]))
      by (rewrite length_app; simpl; lia).
    assert (Hne' : (pre ++ [x]) ++ r <> []) by (destruct pre; discriminate).
    destruct closestDistance as [c|].
    + destruct Hinv as (w & Hw & Hc & Hall).
      destruct (Qlt_bool (calculateDistance p (coordOf (memory x))) c) eqn:E.
      * apply Qlt_bool_iff in E. apply IH; [|exact Hne'].
        exists x. split; [|split].
        -- rewrite nth_error_app2 by lia. now rewrite Nat.sub_diag.
        -- reflexivity.
        -- apply Forall_app. split.
           ++ eapply Forall_impl; [|exact Hall]. intros w' Hw'.
              cbv beta in *. lra.
           ++ constructor; [apply Qle_refl | constructor].
      * assert (Hle : c <= calculateDistance p (coordOf (memory x))).
        { apply Qnot_lt_le. intro Hlt. apply Qlt_bool_iff in Hlt. congruence. }
        apply IH; [|exact Hne'].
        exists w. split; [|split].
        -- rewrite nth_error_app1; [exact Hw|]. apply nth_error_Some. congruence.
        -- exact Hc.
        -- apply Forall_app. split; [exact Hall|]. constructor; [exact Hle | constructor].
    + subst pre. apply IH; [|exact Hne'].
      exists x. repeat split. constructor; [apply Qle_refl | constructor].
Qed.

Lemma closestIndexFrom_nearest (w0 : MemoryWaypoint) (r : list MemoryWaypoint) :
  exists w,
    nth_error (w0 :: r) (closestIndexFrom calculateDistance p 0 0 None (w0 :: r)) = Some w
    /\ Forall (fun w' => fromHere calculateDistance p w <= fromHere calculateDistance p w') (w0 :: r).
Proof.
  apply (closestIndexFrom_least (w0 :: r) [] 0 None eq_refl). discriminate.
Qed.

End GreedyFacts.

Lemma waypointCoords_reindexFrom (l : list MemoryWaypoint) (index : nat) :
  waypointCoords (reindexFrom index l) = waypointCoords l.
Proof.
  unfold waypointCoords.
  rewrite <- (map_map memory coordOf (reindexFrom index l)).
  rewrite reindexFrom_memory. apply map_map.
Qed.

Lemma greedyVisit_chain (calculateDistance : Coordinates -> Coordinates -> Q)
  (fuel : nat) :
  forall (p : Coordinates) (unvisited result : list MemoryWaypoint),
    List.length unvisited = fuel ->
    exists tail,
      greedyVisit calculateDistance fuel p unvisited result = result ++ tail
      /\ Permutation unvisited tail
      /\ nearestChain calculateDistance p (waypointCoords tail).
Proof.
  induction fuel as [|fuel IH]; intros p unvisited result Hlen.
  - destruct unvisited; [|discriminate]. exists []. cbn. rewrite app_nil_r.
    repeat split. constructor.
  - destruct unvisited as [|w0 r]; [discriminate|].
    cbn [greedyVisit].
    destruct (closestIndexFrom_nearest calculateDistance p w0 r) as (w & Hw & Hmin).
    rewrite Hw.
    pose proof (removeAt_perm _ _ _ Hw) as Hperm.
    pose proof (removeAt_length _ _ _ Hw) as Hl.
    destruct (IH (coordOf (memory w))
                (removeAt (closestIndexFrom calculateDistance p 0 0 None (w0 :: r))
                   (w0 :: r))
                (result ++ [w]))
      as (tail & Heq & Hp & Hchain); [simpl in *; lia|].
    exists (w :: tail). split; [|split].
    + rewrite Heq. now rewrite <- app_assoc.
    + eapply perm_trans; [exact Hperm|]. now apply perm_skip.
    + cbn [waypointCoords map nearestChain]. split; [|exact Hchain].
      assert (Hall : Forall (fun w' => fromHere calculateDistance p w
                                       <= fromHere calculateDistance p w') (w :: tail)).
      { eapply Permutation_Forall; [|exact Hmin].
        eapply perm_trans; [exact Hperm|]. now apply perm_skip. }
      inversion Hall as [|? ? _ Htail]; subst.
      apply Forall_map. exact Htail.
Qed.

(** X4: the sequencer builds a nearest-neighbour tour: the first waypoint of
    its output is one closest to the start, and every later waypoint is one
    closest to its predecessor among those not yet visited. *)
Theorem orderWaypointsByGreedyPath_nearest_neighbour
  (calculateDistance : Coordinates -> Coordinates -> Q) (start finish : Coordinates)
  (ws : list MemoryWaypoint) :
  nearestChain calculateDistance start
    (waypointCoords (orderWaypointsByGreedyPath calculateDistance start finish ws)).
Proof.
  unfold orderWaypointsByGreedyPath.
  destruct (Nat.leb_spec (List.length ws) 1) as [Hle | Hgt].
  - destruct ws as [|w [|w' r]]; simpl in Hle.
    + exact I.
    + split; [constructor | exact I].
    + lia.
  - rewrite waypointCoords_reindexFrom.
    destruct (greedyVisit_chain calculateDistance (List.length ws) start ws [] eq_refl)
      as (tail & Heq & _ & Hchain).
    rewrite Heq. exact Hchain.
Qed.

(** X5: the sequencer returns the waypoints it was given, each once (the
    sequence index apart), and from two waypoints on numbers them 0..N-1 in
    visiting order. *)
Theorem orderWaypointsByGreedyPath_permutes_and_numbers
  (calculateDistance : Coordinates -> Coordinates -> Q) (s e : Coordinates)
  (ws : list MemoryWaypoint) :
  let ordered := orderWaypointsByGreedyPath calculateDistance s e ws in
  List.length ordered = List.length ws
  /\ Permutation (map unindexed ws) (map unindexed ordered)
  /\ ((2 <= List.length ws)%nat -> map waypointIndex ordered = seq 0 (List.length ws)).
Proof.
  cbv zeta. split; [apply orderWaypointsByGreedyPath_length|].
  split; [apply orderWaypointsByGreedyPath_perm|].
  apply orderWaypointsByGreedyPath_indices.
Qed.

Lemma orderWaypointsByGreedyPath_permutes_and_numbers_witness :
  map waypointIndex
    (orderWaypointsByGreedyPath Scenario.gridDistance Scenario.start Scenario.goal
       [Scenario.tieB; Scenario.tieA]) = seq 0 2.
Proof.
  apply (proj2 (proj2 (orderWaypointsByGreedyPath_permutes_and_numbers
           Scenario.gridDistance Scenario.start Scenario.goal
           [Scenario.tieB; Scenario.tieA]))).
  simpl. lia.
Defined.

(** ** Assembly *)

Lemma legsLoop_shape (calculateDistance : Coordinates -> Coordinates -> Q)
  (baseSpeed : Q) (ws : list MemoryWaypoint) :
  forall prevPoint ls td tdur ls' td' tdur' prev',
    legsLoop calculateDistance baseSpeed ws prevPoint ls td tdur
      = (ls', td', tdur', prev') ->
    Forall (straightLeg calculateDistance baseSpeed) ls ->
    Forall (straightLeg calculateDistance baseSpeed) ls'
    /\ map leg_startLocation ls' ++ [prev']
       = map leg_startLocation ls ++ prevPoint :: waypointCoords ws
    /\ map leg_endLocation ls' = map leg_endLocation ls ++ waypointCoords ws.
Proof.
  induction ws as [|w r IH]; intros prevPoint ls td tdur ls' td' tdur' prev' E Hls.
  - simpl in E. injection E as <- <- <- <-. cbn. rewrite app_nil_r. auto.
  - cbn [legsLoop] in E. apply IH in E.
    + destruct E as (Hall & Hs & He). split; [exact Hall|].
      rewrite Hs, He, !map_app. cbn. rewrite <- !app_assoc. now split.
    + apply Forall_app. split; [exact Hls|]. constructor; [|constructor].
      unfold straightLeg, createSimulatedSteps. cbn. repeat split. eexists. reflexivity.
Qed.

Lemma totalSteps_flatSteps (route : Route) :
  totalSteps route = List.length (flatSteps route).
Proof.
  unfold totalSteps, flatSteps.
  assert (H : forall ls n,
             fold_left (fun total leg => (total + List.length (steps leg))%nat) ls n
             = (n + List.length (flat_map steps ls))%nat).
  { induction ls as [|leg r IH]; intro n; simpl; [lia|].
    rewrite IH, length_app. lia. }
  apply H.
Qed.

Lemma straightLegs_flat_length (calculateDistance : Coordinates -> Coordinates -> Q)
  (baseSpeed : Q) (ls : list RouteLeg) :
  Forall (straightLeg calculateDistance baseSpeed) ls ->
  List.length (flat_map steps ls) = List.length ls.
Proof.
  induction 1 as [|leg r (_ & _ & text & Hsteps) _ IH]; simpl; [reflexivity|].
  rewrite length_app, Hsteps, IH. reflexivity.
Qed.

Lemma assembled_legs
  (calculateDistance : Coordinates -> Coordinates -> Q) (o d : Coordinates)
  (ws : list MemoryWaypoint) (mode : string) :
  map leg_startLocation (legs (generateRouteWithWaypoints calculateDistance o d ws mode))
    = o :: waypointCoords
             (memoryWaypoints (generateRouteWithWaypoints calculateDistance o d ws mode))
  /\ map leg_endLocation (legs (generateRouteWithWaypoints calculateDistance o d ws mode))
     = waypointCoords
         (memoryWaypoints (generateRouteWithWaypoints calculateDistance o d ws mode))
       ++ [d]
  /\ Forall (straightLeg calculateDistance (getBaseSpeedForMode mode))
       (legs (generateRouteWithWaypoints calculateDistance o d ws mode)).
Proof.
  unfold generateRouteWithWaypoints. destruct ws as [|w r].
  - cbn. repeat split. constructor; [|constructor].
    unfold straightLeg. cbn. repeat split. eexists. reflexivity.
  - destruct (legsLoop _ _ _ _ _ _ _) as [[[ls td] tdur] prev] eqn:E.
    apply legsLoop_shape in E; [|constructor].
    destruct E as (Hall & Hs & He). cbn [legs memoryWaypoints].
    rewrite !map_app. cbn [map leg_startLocation leg_endLocation].
    rewrite Hs, He. repeat split.
    apply Forall_app. split; [exact Hall|]. constructor; [|constructor].
    unfold straightLeg, createSimulatedSteps. cbn. repeat split.
    eexists. reflexivity.
Qed.

Lemma assembled_sizes
  (calculateDistance : Coordinates -> Coordinates -> Q) (o d : Coordinates)
  (ws : list MemoryWaypoint) (mode : string) :
  List.length (memoryWaypoints (generateRouteWithWaypoints calculateDistance o d ws mode))
    = List.length ws
  /\ List.length (legs (generateRouteWithWaypoints calculateDistance o d ws mode))
     = S (List.length ws)
  /\ totalSteps (generateRouteWithWaypoints calculateDistance o d ws mode)
     = S (List.length ws).
Proof.
  destruct (assembled_legs calculateDistance o d ws mode) as (Hs & He & Hall).
  assert (Hw : List.length
                 (memoryWaypoints (generateRouteWithWaypoints calculateDistance o d ws mode))
               = List.length ws).
  { rewrite memoryWaypoints_assemble. destruct ws; [reflexivity|].
    apply orderWaypointsByGreedyPath_length. }
  assert (Hl : List.length (legs (generateRouteWithWaypoints calculateDistance o d ws mode))
               = S (List.length ws)).
  { rewrite <- (length_map leg_startLocation), Hs. cbn.
    unfold waypointCoords. now rewrite length_map, Hw. }
  repeat split; try assumption.
  rewrite totalSteps_flatSteps. unfold flatSteps.
  now rewrite (straightLegs_flat_length _ _ _ Hall).
Qed.

(** X6: an assembled route is a chain of straight legs from the origin
    through the sequenced waypoints to the destination: one leg more than
    there are waypoints, every leg measured by [calculateDistance] between
    its ends, timed at the speed of the mode and made of a single step that
    repeats it. *)
Theorem generateRouteWithWaypoints_chain
  (calculateDistance : Coordinates -> Coordinates -> Q) (o d : Coordinates)
  (ws : list MemoryWaypoint) (mode : string) :
  let route := generateRouteWithWaypoints calculateDistance o d ws mode in
  map leg_startLocation (legs route) = o :: waypointCoords (memoryWaypoints route)
  /\ map leg_endLocation (legs route) = waypointCoords (memoryWaypoints route) ++ [d]
  /\ Forall (straightLeg calculateDistance (getBaseSpeedForMode mode)) (legs route)
  /\ List.length (memoryWaypoints route) = List.length ws
  /\ List.length (legs route) = S (List.length ws)
  /\ totalSteps route = S (List.length ws).
Proof.
  cbv zeta.
  destruct (assembled_legs calculateDistance o d ws mode) as (Hs & He & Hall).
  destruct (assembled_sizes calculateDistance o d ws mode) as (Hw & Hl & Ht).
  repeat split; assumption.
Qed.

Lemma lowerAscii_idempotent (c : ascii) : lowerAscii (lowerAscii c) = lowerAscii c.
Proof.
  destruct c as [[] [] [] [] [] [] [] []]; reflexivity.
Qed.

Lemma lowerAscii_high (c : ascii) :
  (128 <=? nat_of_ascii (lowerAscii c))%nat = true -> lowerAscii c = c.
Proof.
  destruct c as [[] [] [] [] [] [] [] []]; intro H; try reflexivity;
    vm_compute in H; discriminate H.
Qed.

Lemma toLowerCase_plain (c : ascii) (r : string) :
  startsWithKelvinSign (String c r) = false ->
  toLowerCase (String c r) = String (lowerAscii c) (toLowerCase r).
Proof.
  destruct r as [|c2 [|c3 r3]]; try reflexivity.
  cbn [startsWithKelvinSign toLowerCase]. now intros ->.
Qed.

Lemma toLowerCase_kelvin (c1 c2 c3 : ascii) (r3 : string) :
  isKelvinSign c1 c2 c3 = true ->
  toLowerCase (String c1 (String c2 (String c3 r3))) = String "k" (toLowerCase r3).
Proof.
  cbn [toLowerCase]. now intros ->.
Qed.

Lemma toLowerCase_high_head (s : string) (d : ascii) (t : string) :
  (128 <=? nat_of_ascii d)%nat = true ->
  toLowerCase s = String d t ->
  exists r, s = String d r /\ t = toLowerCase r.
Proof.
  intros Hd E. destruct s as [|c r]; [discriminate E|].
  destruct (startsWithKelvinSign (String c r)) eqn:K.
  - destruct r as [|c2 [|c3 r3]]; try discriminate K.
    cbn [startsWithKelvinSign] in K. rewrite (toLowerCase_kelvin _ _ _ _ K) in E.
    injection E as <- _. vm_compute in Hd. discriminate Hd.
  - rewrite (toLowerCase_plain _ _ K) in E. injection E as Hc <-.
    assert (Hc' : lowerAscii c = c) by (apply lowerAscii_high; now rewrite Hc).
    exists r. split; [congruence | reflexivity].
Qed.

Lemma isKelvinSign_bytes (c1 c2 c3 : ascii) :
  isKelvinSign c1 c2 c3 = true ->
  (128 <=? nat_of_ascii c1)%nat = true
  /\ (128 <=? nat_of_ascii c2)%nat = true
  /\ (128 <=? nat_of_ascii c3)%nat = true.
Proof.
  unfold isKelvinSign. intro H.
  apply andb_prop in H. destruct H as [H1 H]. apply andb_prop in H. destruct H as [H2 H3].
  apply Nat.eqb_eq in H1, H2, H3. rewrite H1, H2, H3. repeat split.
Qed.

Lemma toLowerCase_keeps_plain (c : ascii) (r : string) :
  startsWithKelvinSign (String c r) = false ->
  startsWithKelvinSign (String (lowerAscii c) (toLowerCase r)) = false.
Proof.
  intro K. destruct (startsWithKelvinSign (String (lowerAscii c) (toLowerCase r))) eqn:K';
    [exfalso | reflexivity].
  destruct (toLowerCase r) as [|d2 [|d3 t]] eqn:E; try discriminate K'.
  cbn [startsWithKelvinSign] in K'.
  destruct (isKelvinSign_bytes _ _ _ K') as (H1 & H2 & H3).
  apply lowerAscii_high in H1. rewrite H1 in K'.
  destruct (toLowerCase_high_head _ _ _ H2 E) as (r' & -> & E').
  symmetry in E'. destruct (toLowerCase_high_head _ _ _ H3 E') as (r'' & -> & _).
  cbn [startsWithKelvinSign] in K. congruence.
Qed.

Lemma toLowerCase_idempotent_upto (n : nat) :
  forall s, (String.length s <= n)%nat -> toLowerCase (toLowerCase s) = toLowerCase s.
Proof.
  induction n as [|n IH]; intros s Hlen; destruct s as [|c r]; try reflexivity;
    cbn [String.length] in Hlen; [lia|].
  destruct (startsWithKelvinSign (String c r)) eqn:K.
  - destruct r as [|c2 [|c3 r3]]; try discriminate K.
    cbn [startsWithKelvinSign] in K. rewrite (toLowerCase_kelvin _ _ _ _ K).
    rewrite toLowerCase_plain.
    + rewrite IH; [reflexivity|]. cbn [String.length] in Hlen. lia.
    + destruct (toLowerCase r3) as [|d2 [|d3 t]]; reflexivity.
  - rewrite (toLowerCase_plain _ _ K).
    rewrite (toLowerCase_plain _ _ (toLowerCase_keeps_plain _ _ K)).
    rewrite lowerAscii_idempotent, IH; [reflexivity | lia].
Qed.

Lemma toLowerCase_idempotent (s : string) : toLowerCase (toLowerCase s) = toLowerCase s.
Proof.
  apply (toLowerCase_idempotent_upto (String.length s)). apply Nat.le_refl.
Qed.

Lemma getBaseSpeedForMode_positive (mode : string) : 0 < getBaseSpeedForMode mode.
Proof.
  unfold getBaseSpeedForMode.
  destruct (String.eqb _ "walking"); [reflexivity|].
  destruct (String.eqb _ "bicycling"); [reflexivity|].
  destruct (String.eqb _ "transit"); reflexivity.
Qed.

(** X7: the speed of a transport mode is one of the four speeds of the
    table, hence positive; it depends on the mode only up to letter case
    (the Kelvin sign counting as a capital K), and every mode that is not
    walking, bicycling or transit, whatever the case of its letters, is
    given the driving speed. *)
Theorem getBaseSpeedForMode_table (mode : string) :
  In (getBaseSpeedForMode mode) [14 # 10; 42 # 10; 83 # 10; 139 # 10]
  /\ 0 < getBaseSpeedForMode mode
  /\ getBaseSpeedForMode (toLowerCase mode) = getBaseSpeedForMode mode
  /\ (~ In (toLowerCase mode) ["walking"; "bicycling"; "transit"]%string ->
      getBaseSpeedForMode mode = 139 # 10).
Proof.
  split; [|split; [|split]].
  - unfold getBaseSpeedForMode.
    destruct (String.eqb _ "walking"); [simpl; tauto|].
    destruct (String.eqb _ "bicycling"); [simpl; tauto|].
    destruct (String.eqb _ "transit"); simpl; tauto.
  - unfold getBaseSpeedForMode.
    destruct (String.eqb _ "walking"); [reflexivity|].
    destruct (String.eqb _ "bicycling"); [reflexivity|].
    destruct (String.eqb _ "transit"); reflexivity.
  - unfold getBaseSpeedForMode. now rewrite toLowerCase_idempotent.
  - intro Hnot. unfold getBaseSpeedForMode.
    destruct (String.eqb_spec (toLowerCase mode) "walking") as [E|_];
      [exfalso; apply Hnot; rewrite E; simpl; tauto|].
    destruct (String.eqb_spec (toLowerCase mode) "bicycling") as [E|_];
      [exfalso; apply Hnot; rewrite E; simpl; tauto|].
    destruct (String.eqb_spec (toLowerCase mode) "transit") as [E|_];
      [exfalso; apply Hnot; rewrite E; simpl; tauto|].
    reflexivity.
Qed.

Lemma getBaseSpeedForMode_table_witness :
  getBaseSpeedForMode "Flying" = 139 # 10.
Proof.
  apply (proj2 (proj2 (proj2 (getBaseSpeedForMode_table "Flying")))).
  vm_compute. intros [H | [H | [H | []]]]; discriminate H.
Defined.

(** The capital K may also be the Kelvin sign, written here by its three
    bytes: the mode is still walking. *)
Example getBaseSpeedForMode_kelvin_sign :
  getBaseSpeedForMode
    ("WAL" ++ String (ascii_of_nat 226) (String (ascii_of_nat 132)
                (String (ascii_of_nat 170) "ING")))%string = 14 # 10.
Proof. reflexivity. Qed.

Lemma legsLoop_lower_bound (calculateDistance : Coordinates -> Coordinates -> Q)
  (o : Coordinates) (baseSpeed : Q) (ws : list MemoryWaypoint) :
  (forall a b c, calculateDistance a c <= calculateDistance a b + calculateDistance b c) ->
  forall prevPoint ls td tdur ls' td' tdur' prev',
    legsLoop calculateDistance baseSpeed ws prevPoint ls td tdur
      = (ls', td', tdur', prev') ->
    calculateDistance o prevPoint <= td ->
    calculateDistance o prev' <= td'.
Proof.
  intro Htri.
  induction ws as [|w r IH]; intros prevPoint ls td tdur ls' td' tdur' prev' E Hle.
  - simpl in E. injection E as <- <- <- <-. exact Hle.
  - cbn [legsLoop] in E. apply IH in E; [exact E|].
    specialize (Htri o prevPoint (coordOf (memory w))). lra.
Qed.

Lemma assembled_duration
  (calculateDistance : Coordinates -> Coordinates -> Q) (o d : Coordinates)
  (ws : list MemoryWaypoint) (mode : string) :
  duration (generateRouteWithWaypoints calculateDistance o d ws mode)
  == distance (generateRouteWithWaypoints calculateDistance o d ws mode)
     / getBaseSpeedForMode mode.
Proof.
  unfold generateRouteWithWaypoints. destruct ws as [|w r]; [reflexivity|].
  destruct (legsLoop _ _ _ _ _ _ _) as [[[ls td] tdur] prev] eqn:E.
  apply legsLoop_totals in E; [| reflexivity | unfold Qdiv; ring].
  destruct E as [_ Ht]. cbn [distance duration]. rewrite Ht. unfold Qdiv. ring.
Qed.

(** X8: when [calculateDistance] obeys the triangle inequality and gives 0
    from the origin to itself, a route through waypoints is never shorter,
    and never takes less time, than the direct route. *)
Theorem generateRouteWithWaypoints_not_shorter_than_direct
  (calculateDistance : Coordinates -> Coordinates -> Q) (o d : Coordinates)
  (ws : list MemoryWaypoint) (mode : string) :
  (forall a b c, calculateDistance a c <= calculateDistance a b + calculateDistance b c) ->
  calculateDistance o o <= 0 ->
  let route := generateRouteWithWaypoints calculateDistance o d ws mode in
  let direct := generateRouteWithWaypoints calculateDistance o d [] mode in
  distance direct <= distance route /\ duration direct <= duration route.
Proof.
  intros Htri Hzero route direct.
  assert (Hd : distance direct <= distance route).
  { unfold direct, route, generateRouteWithWaypoints. destruct ws as [|w r].
    - apply Qle_refl.
    - destruct (legsLoop _ _ _ _ _ _ _) as [[[ls td] tdur] prev] eqn:E.
      apply (legsLoop_lower_bound calculateDistance o _ _ Htri) in E; [|exact Hzero].
      cbn [distance]. specialize (Htri o prev d). lra. }
  split; [exact Hd|].
  pose proof (assembled_duration calculateDistance o d ws mode) as Hr.
  pose proof (assembled_duration calculateDistance o d [] mode) as Hdir.
  fold route in Hr. fold direct in Hdir. rewrite Hr, Hdir.
  unfold Qdiv. apply Qmult_le_compat_r; [exact Hd|].
  apply Qlt_le_weak. apply Qinv_lt_0_compat. apply getBaseSpeedForMode_positive.
Qed.

Lemma generateRouteWithWaypoints_not_shorter_than_direct_witness :
  distance Scenario.directRoute <= distance Scenario.detourRoute
  /\ duration Scenario.directRoute <= duration Scenario.detourRoute.
Proof.
  apply (generateRouteWithWaypoints_not_shorter_than_direct Scenario.gridDistance
           Scenario.start Scenario.goal
           (findPotentialMemoryWaypoints Scenario.gridDistance Scenario.start
              Scenario.goal [Scenario.farMemory; Scenario.nearMemory] 60)
           "driving").
  - apply gridDistance_triangle.
  - vm_compute. discriminate.
Defined.

(** ** Alternative routes *)

Lemma alternativesLoop_length (calculateDistance : Coordinates -> Coordinates -> Q)
  (random : nat -> Q) (shuffleOrder : nat -> list MemoryWaypoint -> list MemoryWaypoint)
  (o d : Coordinates) (ws : list MemoryWaypoint) (mode : string) (remaining : nat) :
  forall i,
    List.length (alternativesLoop calculateDistance random shuffleOrder o d ws mode
                   i remaining) = remaining.
Proof.
  induction remaining as [|k IH]; intro i; simpl; [reflexivity|]. now rewrite IH.
Qed.

Lemma alternativesLoop_small (calculateDistance : Coordinates -> Coordinates -> Q)
  (random : nat -> Q) (shuffleOrder : nat -> list MemoryWaypoint -> list MemoryWaypoint)
  (o d : Coordinates) (ws : list MemoryWaypoint) (mode : string) (remaining : nat) :
  (List.length ws <=? 2)%nat = true ->
  forall i,
    alternativesLoop calculateDistance random shuffleOrder o d ws mode i remaining
    = repeat (generateRouteWithWaypoints calculateDistance o d ws mode) remaining.
Proof.
  intro Hsmall. induction remaining as [|k IH]; intro i; simpl; [reflexivity|].
  rewrite IH. unfold shuffleAndSelectWaypoints. now rewrite Hsmall.
Qed.

(** X9: there are no alternative routes when fewer than two waypoints
    qualify, and exactly [numAlternatives] otherwise; with exactly two
    qualifying waypoints nothing is shuffled, and every alternative is the
    same route through both of them. *)
Theorem generateAlternativeRoutes_count
  (calculateDistance : Coordinates -> Coordinates -> Q)
  (random : nat -> Q) (shuffleOrder : nat -> list MemoryWaypoint -> list MemoryWaypoint)
  (o d : Coordinates) (mode : string) (numAlternatives : nat) :
  (forall ws,
     List.length (generateAlternativeRoutes calculateDistance random shuffleOrder
                    o d ws mode numAlternatives)
     = if (List.length ws <=? 1)%nat then 0%nat else numAlternatives)
  /\ (forall w1 w2,
        generateAlternativeRoutes calculateDistance random shuffleOrder
          o d [w1; w2] mode numAlternatives
        = repeat (generateRouteWithWaypoints calculateDistance o d [w1; w2] mode)
            numAlternatives).
Proof.
  split.
  - intro ws. unfold generateAlternativeRoutes.
    destruct (List.length ws <=? 1)%nat; [reflexivity|]. apply alternativesLoop_length.
  - intros w1 w2. unfold generateAlternativeRoutes. cbn [List.length Nat.leb].
    now apply alternativesLoop_small.
Qed.

(** X10: from three waypoints on, with a draw in [0, 1) and a shuffle that
    keeps the length of the array, the random selection for an alternative
    route always leaves at least one waypoint out and keeps at least half of
    them, rounded down. *)
Theorem shuffleAndSelectWaypoints_size
  (random : nat -> Q) (shuffleOrder : nat -> list MemoryWaypoint -> list MemoryWaypoint)
  (n : nat) (ws : list MemoryWaypoint) :
  0 <= random n -> random n < 1 ->
  List.length (shuffleOrder n ws) = List.length ws ->
  (3 <= List.length ws)%nat ->
  let selected := shuffleAndSelectWaypoints random shuffleOrder n ws in
  (List.length selected < List.length ws)%nat
  /\ (List.length ws <= 2 * List.length selected + 1)%nat.
Proof.
  intros Hr0 Hr1 Hsh Hlen. cbv zeta. unfold shuffleAndSelectWaypoints.
  destruct (Nat.leb_spec (List.length ws) 2) as [Hle | _]; [lia|].
  set (len := inject_Z (Z.of_nat (List.length ws))).
  set (x := random n * (len * (4 # 10)) + len * (5 # 10)).
  assert (Hlen3 : 3 <= len).
  { unfold len. change 3 with (inject_Z 3). rewrite <- Zle_Qle. lia. }
  assert (Ht0 : 0 <= random n * (len * (4 # 10))).
  { apply Qmult_le_0_compat; [exact Hr0 | lra]. }
  assert (Ht1 : random n * (len * (4 # 10)) < 1 * (len * (4 # 10))).
  { apply Qmult_lt_r; [lra | exact Hr1]. }
  assert (Hx0 : len * (5 # 10) <= x) by (unfold x; lra).
  assert (Hx1 : x < len) by (unfold x; lra).
  pose proof (Qfloor_le x) as Hf1.
  pose proof (Qlt_floor x) as Hf2.
  assert (Hup : (Qfloor x < Z.of_nat (List.length ws))%Z).
  { rewrite Zlt_Qlt. fold len. lra. }
  assert (Hlow : (Z.of_nat (List.length ws) < 2 * (Qfloor x + 1))%Z).
  { rewrite Zlt_Qlt, inject_Z_mult. fold len.
    change (inject_Z 2) with 2. lra. }
  rewrite length_firstn, Hsh. lia.
Qed.

Lemma shuffleAndSelectWaypoints_size_witness :
  let ws := [Scenario.tieA; Scenario.tieB; Scenario.tieA] in
  let selected := shuffleAndSelectWaypoints Scenario.halfDraw Scenario.noShuffle 0 ws in
  (List.length selected < List.length ws)%nat
  /\ (List.length ws <= 2 * List.length selected + 1)%nat.
Proof.
  apply (shuffleAndSelectWaypoints_size Scenario.halfDraw Scenario.noShuffle 0
           [Scenario.tieA; Scenario.tieB; Scenario.tieA]).
  - vm_compute. discriminate.
  - reflexivity.
  - reflexivity.
  - simpl. lia.
Defined.

(** ** Planning and starting *)

Lemma alternativesLoop_assembled (calculateDistance : Coordinates -> Coordinates -> Q)
  (random : nat -> Q) (shuffleOrder : nat -> list MemoryWaypoint -> list MemoryWaypoint)
  (o d : Coordinates) (ws : list MemoryWaypoint) (mode : string) (remaining : nat) :
  forall i,
    Forall (fun r => exists ws', r = generateRouteWithWaypoints calculateDistance o d ws' mode)
      (alternativesLoop calculateDistance random shuffleOrder o d ws mode i remaining).
Proof.
  induction remaining as [|k IH]; intro i; simpl; constructor; [|apply IH].
  eexists. reflexivity.
Qed.

Lemma calculateRoutes_assembled (calculateDistance : Coordinates -> Coordinates -> Q)
  (memories : list Memory) (random : nat -> Q)
  (shuffleOrder : nat -> list MemoryWaypoint -> list MemoryWaypoint)
  (mode : string) (maxDetourMinutes : Q) (maxMemories : nat)
  (navigationState prevState : NavigationState) (o d : Coordinates) :
  origin navigationState = Some o ->
  destination navigationState = Some d ->
  exists s' routes,
    calculateRoutes calculateDistance memories random shuffleOrder mode
      maxDetourMinutes maxMemories navigationState prevState = Returned (s', routes)
    /\ availableRoutes s' = routes
    /\ (List.length routes = 1 \/ List.length routes = 3)%nat
    /\ activeNavigation s' = activeNavigation prevState
    /\ currentStepIndex s' = currentStepIndex prevState
    /\ Forall (fun r => exists ws', r = generateRouteWithWaypoints calculateDistance o d ws' mode)
         routes.
Proof.
  intros Ho Hd. unfold calculateRoutes. rewrite Ho, Hd.
  eexists. eexists. split; [reflexivity|].
  split; [reflexivity|]. split; [|split; [reflexivity|split; [reflexivity|]]].
  - cbn [List.length].
    unfold generateAlternativeRoutes.
    destruct (_ <=? 1)%nat; [auto|]. rewrite alternativesLoop_length. auto.
  - constructor; [eexists; reflexivity|].
    unfold generateAlternativeRoutes. destruct (_ <=? 1)%nat; [constructor|].
    apply alternativesLoop_assembled.
Qed.


Lemma arrayIndex_Some (x : Q) (i : nat) :
  arrayIndex x = Some i -> x == numberOfNat i.
Proof.
  unfold arrayIndex, numberOfNat.
  destruct (Qle_bool 0 x) eqn:Hpos; [|discriminate].
  destruct (Qeq_bool (inject_Z (Qfloor x)) x) eqn:Hint; [|discriminate].
  cbn [andb]. intro E. injection E as <-.
  apply Qeq_bool_iff in Hint. apply Qle_bool_iff in Hpos.
  rewrite Z2Nat.id; [now symmetry|].
  rewrite <- Hint in Hpos. change 0 with (inject_Z 0) in Hpos.
  now rewrite <- Zle_Qle in Hpos.
Qed.

Lemma arrayIndex_None_negative (x : Q) :
  Qle_bool 0 x = false -> arrayIndex x = None.
Proof.
  unfold arrayIndex. now intros ->.
Qed.

Lemma length_test (n i : nat) (x : Q) :
  x == numberOfNat i -> Qle_bool (numberOfNat n) x = (n <=? i)%nat.
Proof.
  intro Hx. unfold numberOfNat in *.
  destruct (Nat.leb_spec n i) as [H|H].
  - apply Qle_bool_iff. rewrite Hx. rewrite <- Zle_Qle. lia.
  - destruct (Qle_bool (inject_Z (Z.of_nat n)) x) eqn:E; [|reflexivity].
    apply Qle_bool_iff in E. rewrite Hx in E. rewrite <- Zle_Qle in E. lia.
Qed.

(** What a start does, by the kind of number the index is. *)
Lemma startNavigation_selects (now x : Q) (s : NavigationState) :
  match arrayIndex x with
  | Some i =>
      match nth_error (availableRoutes s) i with
      | Some route =>
          fire (startNavigation now x) s
          = Returned
              {| origin := origin s;
                 destination := destination s;
                 currentRoute := Some route;
                 alternativeRoutes := alternativeRoutes s;
                 activeNavigation := true;
                 currentStepIndex := 0;
                 upcomingMemory := findUpcomingMemory route 0;
                 distanceToNextMemory := distanceToNextMemory s;
                 navigationStartTime := Some (newDate now);
                 estimatedArrivalTime :=
                   Some (dateAfter (newDate now) (duration route * 1000));
                 travelledDistance := 0 |}
      | None => fire (startNavigation now x) s = Thrown "Invalid route index"
      end
  | None =>
      fire (startNavigation now x) s
      = Thrown (if Qle_bool (numberOfNat (List.length (availableRoutes s))) x
                then "Invalid route index" else "TypeError")
  end.
Proof.
  unfold fire, startNavigation, elementAt.
  destruct (arrayIndex x) as [i|] eqn:Hx.
  - rewrite (length_test _ i x (arrayIndex_Some _ _ Hx)).
    destruct (nth_error (availableRoutes s) i) as [route|] eqn:E.
    + assert (Hlt : (i < List.length (availableRoutes s))%nat)
        by (apply nth_error_Some; congruence).
      destruct (Nat.leb_spec (List.length (availableRoutes s)) i); [lia|reflexivity].
    + apply nth_error_None in E.
      destruct (Nat.leb_spec (List.length (availableRoutes s)) i); [reflexivity|lia].
  - destruct (Qle_bool _ x); reflexivity.
Qed.

(** X11: planning a trip.  Setting origin and destination clears the routes,
    so that until routes are calculated starting navigation fails for every
    number given as index: with "Invalid route index" from 0 on, and with a
    [TypeError] below 0, where the length test passes and no route is
    selected.  Calculating the routes then succeeds and returns one or three
    routes, each a chain of legs from the origin to the destination.  The
    position of a route in the returned array is the index [startNavigation]
    expects: a start at such an index gives an active session on that route
    at step 0, which is a step of the route, started at the clock reading
    and due after the duration of the route, in whole milliseconds.  A start
    at an index from the length of the array on fails with "Invalid route
    index", and a start at a negative or fractional number below the length
    with a [TypeError]. *)
Theorem plan_and_start
  (calculateDistance : Coordinates -> Coordinates -> Q) (memories : list Memory)
  (random : nat -> Q) (shuffleOrder : nat -> list MemoryWaypoint -> list MemoryWaypoint)
  (o d : Coordinates) (mode : string) (maxDetourMinutes : Q) (maxMemories : nat)
  (now : Q) (s0 : NavigationState) :
  exists s1,
    setOriginAndDestination o d s0 = Returned s1
    /\ (forall x : Q,
          fire (startNavigation now x) s1
          = Thrown (if Qle_bool 0 x then "Invalid route index" else "TypeError"))
    /\ exists s2 routes,
         calculateRoutes calculateDistance memories random shuffleOrder mode
           maxDetourMinutes maxMemories s1 s1 = Returned (s2, routes)
         /\ (List.length routes = 1 \/ List.length routes = 3)%nat
         /\ activeNavigation s2 = false
         /\ Forall (fun r => exists via,
                      map leg_startLocation (legs r) = o :: via
                      /\ map leg_endLocation (legs r) = via ++ [d]) routes
         /\ forall x : Q,
              match arrayIndex x with
              | Some i =>
                  match nth_error routes i with
                  | Some route =>
                      exists s3,
                        fire (startNavigation now x) s2 = Returned s3
                        /\ activeNavigation s3 = true
                        /\ currentRoute s3 = Some route
                        /\ currentStepIndex s3 = 0%nat
                        /\ (currentStepIndex s3 < totalSteps route)%nat
                        /\ travelledDistance s3 = 0
                        /\ navigationStartTime s3 = Some (newDate now)
                        /\ estimatedArrivalTime s3
                           = Some (dateAfter (newDate now) (duration route * 1000))
                  | None => fire (startNavigation now x) s2 = Thrown "Invalid route index"
                  end
              | None =>
                  fire (startNavigation now x) s2
                  = Thrown (if Qle_bool (numberOfNat (List.length routes)) x
                            then "Invalid route index" else "TypeError")
              end.
Proof.
  eexists. split; [reflexivity|]. split.
  - intro x.
    match goal with |- fire _ ?s = _ =>
      pose proof (startNavigation_selects now x s) as Hstart;
      change (availableRoutes s) with (@nil Route) in Hstart
    end.
    destruct (arrayIndex x) as [i|] eqn:Hx.
    + replace (nth_error (@nil Route) i) with (@None Route) in Hstart
        by (now destruct i).
      rewrite Hstart.
      pose proof (length_test 0 i x (arrayIndex_Some _ _ Hx)) as Hle.
      change (numberOfNat 0) with 0 in Hle. now rewrite Hle.
    + exact Hstart.
  - match goal with |- context [calculateRoutes _ _ _ _ _ _ _ ?s ?s] =>
      destruct (calculateRoutes_assembled calculateDistance memories random
                  shuffleOrder mode maxDetourMinutes maxMemories s s o d
                  eq_refl eq_refl)
        as (s2 & routes & Hcalc & Havail & Hlen & Hact & _ & Hasm)
    end.
    exists s2, routes. split; [exact Hcalc|]. split; [exact Hlen|].
    split; [exact Hact|]. split.
    + eapply Forall_impl; [|exact Hasm]. intros r [ws' ->].
      destruct (assembled_legs calculateDistance o d ws' mode) as (Hs & He & _).
      eexists. split; [exact Hs | exact He].
    + intro x. pose proof (startNavigation_selects now x s2) as Hstart.
      rewrite Havail in Hstart.
      destruct (arrayIndex x) as [i|]; [|exact Hstart].
      destruct (nth_error routes i) as [route|] eqn:E; [|exact Hstart].
      eexists. split; [exact Hstart|]. cbn. repeat split.
      apply nth_error_In in E. rewrite Forall_forall in Hasm.
      destruct (Hasm route E) as [ws' ->].
      destruct (assembled_sizes calculateDistance o d ws' mode) as (_ & _ & Htotal).
      rewrite Htotal. lia.
Qed.

(** ** Stepping through a route *)

Lemma navigateToNextStep_advances (s : NavigationState) (route : Route) :
  activeNavigation s = true ->
  currentRoute s = Some route ->
  (currentStepIndex s + 1 < totalSteps route)%nat ->
  exists s',
    fire navigateToNextStep s = Returned s'
    /\ activeNavigation s' = true
    /\ currentRoute s' = Some route
    /\ currentStepIndex s' = (currentStepIndex s + 1)%nat
    /\ travelledDistance s' = travelledDistance s
    /\ stopped s' = stopped s.
Proof.
  intros Ha Hr Hlt. unfold fire, navigateToNextStep. rewrite Ha, Hr.
  destruct (Nat.leb_spec (totalSteps route) (currentStepIndex s + 1)); [lia|].
  eexists. split; [reflexivity|]. cbn. repeat split.
  unfold stopped. cbn. now rewrite Hr.
Qed.

Lemma navigateToNextStep_finishes (s : NavigationState) (route : Route) :
  activeNavigation s = true ->
  currentRoute s = Some route ->
  (totalSteps route <= currentStepIndex s + 1)%nat ->
  fire navigateToNextStep s = Returned (stopped s).
Proof.
  intros Ha Hr Hle. unfold fire, navigateToNextStep. rewrite Ha, Hr.
  destruct (Nat.leb_spec (totalSteps route) (currentStepIndex s + 1)); [reflexivity|lia].
Qed.

Lemma advanceTimes_within (route : Route) (k : nat) :
  forall s,
    activeNavigation s = true ->
    currentRoute s = Some route ->
    (currentStepIndex s + k < totalSteps route)%nat ->
    exists s',
      advanceTimes k s = Returned s'
      /\ activeNavigation s' = true
      /\ currentRoute s' = Some route
      /\ currentStepIndex s' = (currentStepIndex s + k)%nat
      /\ travelledDistance s' = travelledDistance s
      /\ stopped s' = stopped s.
Proof.
  induction k as [|k IH]; intros s Ha Hr Hlt.
  - exists s. cbn. rewrite Nat.add_0_r. repeat split; assumption.
  - destruct (navigateToNextStep_advances s route Ha Hr) as
      (s1 & E1 & Ha1 & Hr1 & Hi1 & Ht1 & Hs1); [lia|].
    destruct (IH s1 Ha1 Hr1) as (s' & E & Ha' & Hr' & Hi' & Ht' & Hs'); [lia|].
    exists s'. cbn [advanceTimes]. rewrite E1. cbn [bind].
    repeat split; try assumption; try congruence. lia.
Qed.

(** X12: pressing "next step" walks an active session through its route one
    step at a time, leaving route and travelled distance alone, and the press
    on the last step stops the navigation: the session is never left active
    on an index that is not a step of the route. *)
Theorem advance_through_route (s : NavigationState) (route : Route) (k : nat) :
  activeNavigation s = true ->
  currentRoute s = Some route ->
  (currentStepIndex s + k < totalSteps route)%nat ->
  (exists s',
     advanceTimes k s = Returned s'
     /\ activeNavigation s' = true
     /\ currentRoute s' = Some route
     /\ currentStepIndex s' = (currentStepIndex s + k)%nat
     /\ travelledDistance s' = travelledDistance s)
  /\ advanceTimes (totalSteps route - currentStepIndex s) s = Returned (stopped s).
Proof.
  intros Ha Hr Hlt. split.
  - destruct (advanceTimes_within route k s Ha Hr Hlt) as (s' & E & H1 & H2 & H3 & H4 & _).
    exists s'. repeat split; assumption.
  - destruct (advanceTimes_within route (totalSteps route - 1 - currentStepIndex s) s
                Ha Hr) as (s' & E & Ha' & Hr' & Hi' & _ & Hs'); [lia|].
    replace (totalSteps route - currentStepIndex s)%nat
      with (totalSteps route - 1 - currentStepIndex s + 1)%nat by lia.
    assert (Hcompose : forall a b t,
              advanceTimes (a + b) t = bind (advanceTimes a t) (advanceTimes b)).
    { induction a as [|a IHa]; intros b t; [reflexivity|].
      cbn [Nat.add advanceTimes]. destruct (fire navigateToNextStep t); [|reflexivity].
      cbn [bind]. apply IHa. }
    rewrite Hcompose, E. cbn [bind advanceTimes].
    rewrite (navigateToNextStep_finishes s' route Ha' Hr') by lia.
    cbn [bind]. now rewrite Hs'.
Qed.

Lemma advance_through_route_witness :
  (exists s',
     advanceTimes 1 Scenario.onFirstLeg = Returned s'
     /\ activeNavigation s' = true
     /\ currentRoute s' = Some Scenario.detourRoute
     /\ currentStepIndex s' = 1%nat
     /\ travelledDistance s' = 0)
  /\ advanceTimes 2 Scenario.onFirstLeg = Returned (stopped Scenario.onFirstLeg).
Proof.
  apply (advance_through_route Scenario.onFirstLeg Scenario.detourRoute 1);
    [reflexivity | reflexivity |]. vm_compute. lia.
Defined.

(** ** Location updates *)

Lemma scanLegs_single_steps (currentStepIndex : nat) (ls : list RouteLeg) :
  Forall (fun leg => List.length (steps leg) = 1%nat) ls ->
  forall stepCount i currentLegIndex legStepIndex,
    stepCount <> currentStepIndex ->
    scanLegs currentStepIndex stepCount i currentLegIndex legStepIndex ls
    = (currentLegIndex, legStepIndex).
Proof.
  induction 1 as [|leg r Hleg _ IH]; intros stepCount i cl lsi Hne; [reflexivity|].
  cbn [scanLegs].
  destruct (steps leg) as [|st [|st' rest]]; try discriminate.
  cbn [scanSteps].
  destruct (Nat.eqb_spec stepCount currentStepIndex) as [E|_]; [contradiction|].
  destruct (Nat.eqb_spec (S stepCount) currentStepIndex) as [_|Hne']; [reflexivity|].
  now apply IH.
Qed.

Lemma scanLegs_single_steps_start (currentStepIndex : nat) (ls : list RouteLeg) :
  Forall (fun leg => List.length (steps leg) = 1%nat) ls ->
  scanLegs currentStepIndex 0 0 0 0 ls = (0%nat, 0%nat).
Proof.
  intro H. destruct (Nat.eq_dec 0 currentStepIndex) as [<-|Hne].
  - destruct H as [|leg r Hleg _]; [reflexivity|].
    cbn [scanLegs]. destruct (steps leg) as [|st [|st' rest]]; try discriminate.
    reflexivity.
  - now apply scanLegs_single_steps.
Qed.

Lemma findCurrentStep_first_leg
  (calculateDistance : Coordinates -> Coordinates -> Q) (o d : Coordinates)
  (ws : list MemoryWaypoint) (mode : string) :
  exists leg rest,
    legs (generateRouteWithWaypoints calculateDistance o d ws mode) = leg :: rest
    /\ leg_startLocation leg = o
    /\ leg_endLocation leg
       = hd d (waypointCoords
                 (memoryWaypoints (generateRouteWithWaypoints calculateDistance o d ws mode)))
    /\ leg_distance leg = calculateDistance o (leg_endLocation leg)
    /\ forall currentStepIndex location,
         findCurrentStep calculateDistance
           (generateRouteWithWaypoints calculateDistance o d ws mode)
           currentStepIndex location
         = if Qlt_bool (calculateDistance location (leg_endLocation leg)) 20
           then Returned ((currentStepIndex + 1)%nat,
                          calculateDistance location (leg_endLocation leg))
           else Returned (currentStepIndex, leg_distance leg * (1 # 10)).
Proof.
  destruct (assembled_legs calculateDistance o d ws mode) as (Hs & He & Hall).
  destruct (legs (generateRouteWithWaypoints calculateDistance o d ws mode))
    as [|leg r] eqn:Elegs; [discriminate|].
  exists leg, r. split; [reflexivity|].
  cbn [map] in Hs, He. injection Hs as Hstart _.
  assert (Hend : leg_endLocation leg
                 = hd d (waypointCoords
                           (memoryWaypoints
                              (generateRouteWithWaypoints calculateDistance o d ws mode)))).
  { destruct (waypointCoords _); cbn in He |- *; congruence. }
  pose proof (Forall_inv Hall) as (Hdist & _ & text & Hsteps).
  pose proof (Forall_inv_tail Hall) as Hrest.
  split; [exact Hstart|]. split; [exact Hend|].
  split; [now rewrite Hdist, Hstart|].
  intros currentStepIndex location.
  unfold findCurrentStep. rewrite Elegs.
  rewrite scanLegs_single_steps_start.
  - cbn [nth_error]. rewrite Hsteps. reflexivity.
  - constructor; [now rewrite Hsteps|].
    eapply Forall_impl; [|exact Hrest]. intros a (_ & _ & t & Ha). now rewrite Ha.
Qed.

(** X13: on an assembled route the search of [findCurrentStep] always ends
    on the first step of the first leg, whatever the current step index: the
    update never throws, it compares the location with the end of the first
    leg only, and on a route with waypoints a session beyond its first step
    moves on only when the traveller is within 20 m of the first waypoint. *)
Theorem findCurrentStep_measures_first_leg
  (calculateDistance : Coordinates -> Coordinates -> Q) (o d : Coordinates)
  (ws : list MemoryWaypoint) (mode : string) (currentStepIndex : nat)
  (location : Coordinates) :
  let route := generateRouteWithWaypoints calculateDistance o d ws mode in
  exists leg,
    hd_error (legs route) = Some leg
    /\ leg_startLocation leg = o
    /\ leg_endLocation leg = hd d (waypointCoords (memoryWaypoints route))
    /\ leg_distance leg = calculateDistance o (leg_endLocation leg)
    /\ findCurrentStep calculateDistance route currentStepIndex location
       = if Qlt_bool (calculateDistance location (leg_endLocation leg)) 20
         then Returned ((currentStepIndex + 1)%nat,
                        calculateDistance location (leg_endLocation leg))
         else Returned (currentStepIndex, leg_distance leg * (1 # 10)).
Proof.
  intro route.
  destruct (findCurrentStep_first_leg calculateDistance o d ws mode)
    as (leg & rest & Elegs & Hstart & Hend & Hdist & Hfind).
  fold route in Elegs, Hend, Hfind.
  exists leg. rewrite Elegs. split; [reflexivity|].
  split; [exact Hstart|]. split; [exact Hend|]. split; [exact Hdist|].
  apply Hfind.
Qed.

(** X14: a location update on an active session over an assembled route
    never throws and touches only progress: origin, destination, routes,
    activity and times stay as they are, the step index stays or grows by
    one, both memory fields are cleared, and, distances being non-negative,
    the travelled distance never decreases. *)
Theorem updateCurrentLocation_progress
  (calculateDistance : Coordinates -> Coordinates -> Q) (o d : Coordinates)
  (ws : list MemoryWaypoint) (mode : string) (location : Coordinates)
  (s : NavigationState) :
  (forall a b, 0 <= calculateDistance a b) ->
  activeNavigation s = true ->
  currentRoute s = Some (generateRouteWithWaypoints calculateDistance o d ws mode) ->
  exists s',
    fire (updateCurrentLocation calculateDistance location) s = Returned s'
    /\ origin s' = origin s /\ destination s' = destination s
    /\ currentRoute s' = currentRoute s
    /\ alternativeRoutes s' = alternativeRoutes s
    /\ activeNavigation s' = true
    /\ navigationStartTime s' = navigationStartTime s
    /\ estimatedArrivalTime s' = estimatedArrivalTime s
    /\ (currentStepIndex s <= currentStepIndex s' <= currentStepIndex s + 1)%nat
    /\ upcomingMemory s' = None /\ distanceToNextMemory s' = None
    /\ travelledDistance s <= travelledDistance s'.
Proof.
  intros Hnonneg Ha Hr.
  destruct (findCurrentStep_first_leg calculateDistance o d ws mode)
    as (leg & _ & _ & _ & _ & Hdist & Hfind).
  unfold fire, updateCurrentLocation. rewrite Ha, Hr, Hfind.
  destruct (Qlt_bool _ 20); cbn [bind]; eexists; (split; [reflexivity|]); cbn;
    rewrite ?Ha; repeat split; try lia.
  - pose proof (Hnonneg location (leg_endLocation leg)). lra.
  - rewrite Hdist. pose proof (Hnonneg o (leg_endLocation leg)). lra.
Qed.

Lemma updateCurrentLocation_progress_witness :
  exists s',
    fire (updateCurrentLocation Scenario.gridDistance Scenario.goal) Scenario.onLastLeg
      = Returned s'
    /\ origin s' = origin Scenario.onLastLeg
    /\ destination s' = destination Scenario.onLastLeg
    /\ currentRoute s' = currentRoute Scenario.onLastLeg
    /\ alternativeRoutes s' = alternativeRoutes Scenario.onLastLeg
    /\ activeNavigation s' = true
    /\ navigationStartTime s' = navigationStartTime Scenario.onLastLeg
    /\ estimatedArrivalTime s' = estimatedArrivalTime Scenario.onLastLeg
    /\ (currentStepIndex Scenario.onLastLeg <= currentStepIndex s'
        <= currentStepIndex Scenario.onLastLeg + 1)%nat
    /\ upcomingMemory s' = None /\ distanceToNextMemory s' = None
    /\ travelledDistance Scenario.onLastLeg <= travelledDistance s'.
Proof.
  apply (updateCurrentLocation_progress Scenario.gridDistance Scenario.start
           Scenario.goal
           (findPotentialMemoryWaypoints Scenario.gridDistance Scenario.start
              Scenario.goal [Scenario.farMemory; Scenario.nearMemory] 60)
           "driving" Scenario.goal Scenario.onLastLeg).
  - apply gridDistance_nonneg.
  - reflexivity.
  - reflexivity.
Defined.

(** ** Upcoming memory *)

Lemma findLegOfStep_single_steps (currentStepIndex : nat) (ls : list RouteLeg) :
  Forall (fun leg => List.length (steps leg) = 1%nat) ls ->
  forall i,
    (i <= currentStepIndex)%nat ->
    findLegOfStep currentStepIndex i i ls
    = if (currentStepIndex <? i + List.length ls)%nat then currentStepIndex else 0%nat.
Proof.
  induction 1 as [|leg r Hleg _ IH]; intros i Hi.
  - cbn [findLegOfStep List.length].
    destruct (Nat.ltb_spec currentStepIndex (i + 0)); [lia|reflexivity].
  - cbn [findLegOfStep List.length]. rewrite Hleg.
    replace (i + 1)%nat with (S i) by lia.
    destruct (Nat.ltb_spec currentStepIndex (S i)) as [Hlt|Hge].
    + destruct (Nat.ltb_spec currentStepIndex (i + S (List.length r))); lia.
    + rewrite IH by lia.
      replace (S i + List.length r)%nat with (i + S (List.length r))%nat by lia.
      reflexivity.
Qed.

Lemma firstWaypointFrom_numbered (ws : list MemoryWaypoint) :
  forall j currentLegIndex,
    map waypointIndex ws = seq j (List.length ws) ->
    (j <= currentLegIndex)%nat ->
    firstWaypointFrom currentLegIndex ws
    = nth_error (map memory ws) (currentLegIndex - j).
Proof.
  induction ws as [|w r IH]; intros j c Hidx Hj.
  - cbn. now destruct (c - j)%nat.
  - cbn [map List.length seq] in Hidx. injection Hidx as Hw Hr.
    cbn [firstWaypointFrom map]. rewrite Hw.
    destruct (Nat.leb_spec c j) as [Hle|Hgt].
    + replace (c - j)%nat with 0%nat by lia. reflexivity.
    + rewrite (IH (S j) c Hr) by lia.
      replace (c - j)%nat with (S (c - S j)) by lia. reflexivity.
Qed.

(** X15: on a route assembled from two or more waypoints, the upcoming
    memory at step [k] is the memory of the [k]-th waypoint of the tour:
    the first waypoint when navigation starts, the next one after each
    waypoint reached, and none on the last leg.  For an index past the last
    step the answer falls back to the first waypoint. *)
Theorem findUpcomingMemory_follows_tour
  (calculateDistance : Coordinates -> Coordinates -> Q) (o d : Coordinates)
  (ws : list MemoryWaypoint) (mode : string) (k : nat) :
  (2 <= List.length ws)%nat ->
  let route := generateRouteWithWaypoints calculateDistance o d ws mode in
  let tour := map memory (memoryWaypoints route) in
  findUpcomingMemory route k
  = if (k <? totalSteps route)%nat then nth_error tour k else hd_error tour.
Proof.
  intros Hlen route tour.
  destruct (assembled_legs calculateDistance o d ws mode) as (_ & _ & Hall).
  destruct (assembled_sizes calculateDistance o d ws mode) as (Hw & Hl & Htotal).
  fold route in Hall, Hw, Hl, Htotal.
  assert (Hidx : map waypointIndex (memoryWaypoints route)
                 = seq 0 (List.length (memoryWaypoints route))).
  { unfold route. rewrite memoryWaypoints_assemble.
    destruct ws as [|w r]; [simpl in Hlen; lia|].
    rewrite orderWaypointsByGreedyPath_length.
    now apply orderWaypointsByGreedyPath_indices. }
  assert (Hsingle : Forall (fun leg => List.length (steps leg) = 1%nat) (legs route)).
  { eapply Forall_impl; [|exact Hall]. intros a (_ & _ & t & Ha). now rewrite Ha. }
  unfold findUpcomingMemory.
  destruct (memoryWaypoints route) as [|w0 r0] eqn:Ewp; [simpl in Hw; lia|].
  rewrite <- Ewp in *.
  rewrite (findLegOfStep_single_steps k (legs route) Hsingle 0) by lia.
  rewrite Hl, Htotal. cbn [Nat.add].
  destruct (k <? S (List.length ws))%nat.
  - rewrite (firstWaypointFrom_numbered _ 0 k Hidx) by lia.
    rewrite Nat.sub_0_r. unfold tour. now rewrite Ewp.
  - rewrite (firstWaypointFrom_numbered _ 0 0 Hidx) by lia.
    unfold tour. now rewrite Ewp.
Qed.

Lemma findUpcomingMemory_follows_tour_witness :
  let route :=
    generateRouteWithWaypoints Scenario.gridDistance Scenario.start Scenario.goal
      [Scenario.tieB; Scenario.tieA] "walking" in
  findUpcomingMemory route 1
  = if (1 <? totalSteps route)%nat then nth_error (map memory (memoryWaypoints route)) 1
    else hd_error (map memory (memoryWaypoints route)).
Proof.
  apply (findUpcomingMemory_follows_tour Scenario.gridDistance Scenario.start
           Scenario.goal [Scenario.tieB; Scenario.tieA] "walking" 1).
  simpl. lia.
Defined.

(** ** Recalculation *)

(** X16: a recalculation on an active session replaces the alternative
    routes by newly computed ones, but restarts the route that was current
    before it, from the stored origin: the primary route it has just computed
    is not the one navigated, and origin and destination are unchanged.  The
    session is started at the clock reading and due after the duration of
    that previous route, in whole milliseconds. *)
Theorem recalculateRoute_restarts_previous_route
  (calculateDistance : Coordinates -> Coordinates -> Q) (memories : list Memory)
  (userProfile : option NavigationPreferences) (random : nat -> Q)
  (shuffleOrder : nat -> list MemoryWaypoint -> list MemoryWaypoint) (now : Q)
  (s : NavigationState) (route : Route) (o d : Coordinates) :
  activeNavigation s = true ->
  currentRoute s = Some route ->
  origin s = Some o ->
  destination s = Some d ->
  exists s',
    fire (recalculateRoute calculateDistance memories userProfile random
            shuffleOrder now) s = Returned s'
    /\ currentRoute s' = Some route
    /\ origin s' = Some o /\ destination s' = Some d
    /\ alternativeRoutes s'
       = generateAlternativeRoutes calculateDistance random shuffleOrder o d
           (sortWaypointsByPriority
              (findPotentialMemoryWaypoints calculateDistance o d memories
                 (preferredMaxDetour userProfile)))
           (preferredMode userProfile) 2
    /\ navigationStartTime s' = Some (newDate now)
    /\ estimatedArrivalTime s'
       = Some (dateAfter (newDate now) (duration route * 1000)).
Proof.
  intros Ha Hr Ho Hd. unfold fire, recalculateRoute, calculateRoutes.
  rewrite Ha, Hr, Ho, Hd. cbn [bind].
  unfold startNavigation, availableRoutes. rewrite Hr.
  eexists. split; [reflexivity|]. cbn. rewrite ?Ho, ?Hd. repeat split.
Qed.

Lemma recalculateRoute_restarts_previous_route_witness :
  exists s',
    fire (recalculateRoute Scenario.gridDistance [Scenario.nearMemory] None
            Scenario.halfDraw Scenario.noShuffle 7) Scenario.underWay = Returned s'
    /\ currentRoute s' = Some Scenario.directRoute
    /\ origin s' = Some Scenario.start /\ destination s' = Some Scenario.goal
    /\ alternativeRoutes s'
       = generateAlternativeRoutes Scenario.gridDistance Scenario.halfDraw
           Scenario.noShuffle Scenario.start Scenario.goal
           (sortWaypointsByPriority
              (findPotentialMemoryWaypoints Scenario.gridDistance Scenario.start
                 Scenario.goal [Scenario.nearMemory] (preferredMaxDetour None)))
           (preferredMode None) 2
    /\ navigationStartTime s' = Some (newDate 7)
    /\ estimatedArrivalTime s'
       = Some (dateAfter (newDate 7) (duration Scenario.directRoute * 1000)).
Proof.
  apply (recalculateRoute_restarts_previous_route Scenario.gridDistance
           [Scenario.nearMemory] None Scenario.halfDraw Scenario.noShuffle 7
           Scenario.underWay Scenario.directRoute Scenario.start Scenario.goal);
    reflexivity.
Defined.

(** * The memories slice *)

Lemma applyFilters_noFilters (ms : list MemoriesSlice.Memory) :
  MemoriesSlice.applyFilters ms MemoriesSlice.noFilters = ms.
Proof.
  unfold MemoriesSlice.applyFilters. induction ms as [|m r IH]; [reflexivity|].
  cbn. now rewrite IH.
Qed.

Lemma filter_twice {A : Type} (f : A -> bool) (l : list A) :
  filter f (filter f l) = filter f l.
Proof.
  induction l as [|x r IH]; [reflexivity|]. cbn.
  destruct (f x) eqn:E; cbn; rewrite ?E, IH; reflexivity.
Qed.

Lemma filter_swap {A : Type} (f g : A -> bool) (l : list A) :
  filter f (filter g l) = filter g (filter f l).
Proof.
  induction l as [|x r IH]; [reflexivity|]. cbn.
  destruct (f x) eqn:Ef, (g x) eqn:Eg; cbn; rewrite ?Ef, ?Eg, IH; reflexivity.
Qed.

Lemma includes_In (l : list string) (x : string) :
  MemoriesSlice.includes l x = true <-> In x l.
Proof.
  unfold MemoriesSlice.includes. rewrite existsb_exists. split.
  - intros (y & Hin & Heq). apply String.eqb_eq in Heq. now subst.
  - intro Hin. exists x. split; [exact Hin | apply String.eqb_refl].
Qed.

Lemma passesFilters_passes (filters : MemoriesSlice.ActiveFilters)
  (memory : MemoriesSlice.Memory) :
  MemoriesSlice.passesFilters filters memory = true <-> passes filters memory.
Proof.
  unfold MemoriesSlice.passesFilters, passes. rewrite !andb_true_iff.
  assert (Htags :
    match MemoriesSlice.filter_tags filters with
    | [] => true
    | _ :: _ =>
        existsb (fun tagId =>
                   MemoriesSlice.includes
                     (map MemoriesSlice.tag_id (MemoriesSlice.tags memory)) tagId)
          (MemoriesSlice.filter_tags filters)
    end = true
    <-> (MemoriesSlice.filter_tags filters = []
         \/ exists tagId,
              In tagId (MemoriesSlice.filter_tags filters)
              /\ In tagId (map MemoriesSlice.tag_id (MemoriesSlice.tags memory)))).
  { destruct (MemoriesSlice.filter_tags filters) as [|t r] eqn:E.
    - split; [now left | reflexivity].
    - rewrite existsb_exists. split.
      + intros (x & Hin & Hinc). right. exists x. split; [exact Hin|].
        now apply includes_In.
      + intros [Hnil | (x & Hin & Hmem)]; [discriminate Hnil|].
        exists x. split; [exact Hin | now apply includes_In]. }
  assert (Hfrom :
    match MemoriesSlice.from (MemoriesSlice.dateRange filters),
          MemoriesSlice.date memory with
    | Some f, Some dt => negb (dt <? f)%Z
    | _, _ => true
    end = true
    <-> (forall start day,
           MemoriesSlice.from (MemoriesSlice.dateRange filters) = Some start ->
           MemoriesSlice.date memory = Some day -> (start <= day)%Z)).
  { destruct (MemoriesSlice.from _) as [f|], (MemoriesSlice.date memory) as [dt|];
      try (split; [intros _ ? ? ? ?; discriminate | reflexivity]).
    rewrite negb_true_iff, Z.ltb_ge. split.
    - intros H start day [= <-] [= <-]. exact H.
    - intro H. now apply H. }
  assert (Hto :
    match MemoriesSlice.to (MemoriesSlice.dateRange filters),
          MemoriesSlice.date memory with
    | Some t, Some dt => negb (t <? dt)%Z
    | _, _ => true
    end = true
    <-> (forall finish day,
           MemoriesSlice.to (MemoriesSlice.dateRange filters) = Some finish ->
           MemoriesSlice.date memory = Some day -> (day <= finish)%Z)).
  { destruct (MemoriesSlice.to _) as [t|], (MemoriesSlice.date memory) as [dt|];
      try (split; [intros _ ? ? ? ?; discriminate | reflexivity]).
    rewrite negb_true_iff, Z.ltb_ge. split.
    - intros H finish day [= <-] [= <-]. exact H.
    - intro H. now apply H. }
  assert (Himp :
    match MemoriesSlice.filter_importance filters with
    | Some i => Qeq_bool (MemoriesSlice.importance memory) i
    | None => true
    end = true
    <-> (forall wanted,
           MemoriesSlice.filter_importance filters = Some wanted ->
           MemoriesSlice.importance memory == wanted)).
  { destruct (MemoriesSlice.filter_importance filters) as [i|].
    - rewrite Qeq_bool_iff. split.
      + intros H wanted [= <-]. exact H.
      + intro H. now apply H.
    - split; [intros _ ? ?; discriminate | reflexivity]. }
  rewrite Htags, Hfrom, Hto, Himp. tauto.
Qed.

(** X17: the filter of the memory list returns exactly the memories that
    pass, in the order of the list: a memory is in the result if and only if
    it is in the list and passes, a list of one memory is kept when the
    memory passes and emptied when it does not, and the result for a list in
    two parts is the results for the parts one after the other.  Filtering
    again changes nothing, and with no filter set every memory passes. *)
Theorem applyFilters_properties (ms : list MemoriesSlice.Memory)
  (filters : MemoriesSlice.ActiveFilters) :
  MemoriesSlice.applyFilters (MemoriesSlice.applyFilters ms filters) filters
  = MemoriesSlice.applyFilters ms filters
  /\ MemoriesSlice.applyFilters ms MemoriesSlice.noFilters = ms
  /\ Forall (fun m => MemoriesSlice.passesFilters filters m = true)
       (MemoriesSlice.applyFilters ms filters)
  /\ (forall prefix suffix,
        MemoriesSlice.applyFilters (prefix ++ suffix) filters
        = MemoriesSlice.applyFilters prefix filters
          ++ MemoriesSlice.applyFilters suffix filters)
  /\ incl (MemoriesSlice.applyFilters ms filters) ms
  /\ (forall m, In m (MemoriesSlice.applyFilters ms filters)
                <-> In m ms /\ passes filters m)
  /\ (forall m, passes filters m -> MemoriesSlice.applyFilters [m] filters = [m])
  /\ (forall m, ~ passes filters m -> MemoriesSlice.applyFilters [m] filters = []).
Proof.
  unfold MemoriesSlice.applyFilters. split; [apply filter_twice|].
  split; [apply applyFilters_noFilters|].
  split; [|split; [|split; [|split; [|split]]]].
  - apply Forall_forall. intros m Hm. now apply filter_In in Hm.
  - intros. apply filter_app.
  - apply incl_filter.
  - intro m. rewrite filter_In, passesFilters_passes. reflexivity.
  - intros m Hm. apply passesFilters_passes in Hm. cbn [filter]. now rewrite Hm.
  - intros m Hm. cbn [filter].
    destruct (MemoriesSlice.passesFilters filters m) eqn:E; [|reflexivity].
    apply passesFilters_passes in E. contradiction.
Qed.

Lemma applyFilters_properties_witness :
  MemoriesSlice.applyFilters [SliceScenario.picnic]
    {| MemoriesSlice.filter_tags := ["t9"; "t1"]%string;
       MemoriesSlice.dateRange :=
         {| MemoriesSlice.from := Some 500%Z; MemoriesSlice.to := None |};
       MemoriesSlice.filter_importance := Some 4 |}
  = [SliceScenario.picnic].
Proof.
  apply (proj1 (proj2 (proj2 (proj2 (proj2 (proj2 (proj2
           (applyFilters_properties [] _)))))))).
  unfold passes. cbn. split; [|split; [|split]].
  - right. exists "t1"%string. split; [right; left; reflexivity | left; reflexivity].
  - intros start day [= <-] [= <-]. lia.
  - intros finish day H. discriminate H.
  - intros wanted [= <-]. reflexivity.
Defined.

Lemma reducer_keeps_sync (state : MemoriesSlice.MemoriesState)
  (action : MemoriesSlice.Action) :
  MemoriesSlice.isCreateFulfilled action = false ->
  MemoriesSlice.filteredInSync state ->
  MemoriesSlice.filteredInSync (MemoriesSlice.reducer state action).
Proof.
  unfold MemoriesSlice.filteredInSync. intros Hnot Hsync.
  destruct action; try discriminate Hnot; cbn; try exact Hsync; try reflexivity.
  - symmetry. apply applyFilters_noFilters.
  - rewrite Hsync. unfold MemoriesSlice.applyFilters. apply filter_swap.
Qed.

(** X18: the filtered list stays the filter of the full list under the
    active filters through every action of the slice other than a fulfilled
    [createMemory]: setting or clearing filters, fetching, updating and
    deleting memories all keep the two lists in step. *)
Theorem filteredMemories_in_sync (actions : list MemoriesSlice.Action) :
  forallb (fun a => negb (MemoriesSlice.isCreateFulfilled a)) actions = true ->
  MemoriesSlice.filteredInSync (MemoriesSlice.run MemoriesSlice.initialState actions).
Proof.
  unfold MemoriesSlice.run.
  assert (H : forall s, MemoriesSlice.filteredInSync s ->
                forallb (fun a => negb (MemoriesSlice.isCreateFulfilled a)) actions = true ->
                MemoriesSlice.filteredInSync (fold_left MemoriesSlice.reducer actions s)).
  { induction actions as [|a r IH]; intros s Hs Hall; [exact Hs|].
    cbn in Hall. apply andb_prop in Hall. destruct Hall as [Ha Hr].
    cbn [fold_left]. apply IH; [|exact Hr].
    apply reducer_keeps_sync; [|exact Hs]. now destruct (MemoriesSlice.isCreateFulfilled a). }
  apply H. reflexivity.
Qed.

Lemma filteredMemories_in_sync_witness :
  MemoriesSlice.filteredInSync
    (MemoriesSlice.run MemoriesSlice.initialState
       [MemoriesSlice.fetchMemories_fulfilled [SliceScenario.picnic];
        MemoriesSlice.setFilterImportance (Some 4);
        MemoriesSlice.updateMemory_fulfilled SliceScenario.picnic;
        MemoriesSlice.deleteMemory_fulfilled "m1"]).
Proof.
  apply (filteredMemories_in_sync
           [MemoriesSlice.fetchMemories_fulfilled [SliceScenario.picnic];
            MemoriesSlice.setFilterImportance (Some 4);
            MemoriesSlice.updateMemory_fulfilled SliceScenario.picnic;
            MemoriesSlice.deleteMemory_fulfilled "m1"]).
  reflexivity.
Defined.

(** X19: a fulfilled [createMemory] puts the new memory once at the head of
    the full list but, when it passes the active filters, twice at the head
    of the filtered list: the filter is applied to a list to which the
    memory has been prepended a second time. *)
Theorem createMemory_shows_memory_twice (state : MemoriesSlice.MemoriesState)
  (payload : MemoriesSlice.Memory) :
  MemoriesSlice.filteredInSync state ->
  MemoriesSlice.passesFilters (MemoriesSlice.activeFilters state) payload = true ->
  let state' := MemoriesSlice.reducer state (MemoriesSlice.createMemory_fulfilled payload) in
  MemoriesSlice.memories state' = payload :: MemoriesSlice.memories state
  /\ MemoriesSlice.filteredMemories state'
     = payload :: payload :: MemoriesSlice.filteredMemories state
  /\ MemoriesSlice.currentMemory state' = Some payload
  /\ ~ MemoriesSlice.filteredInSync state'.
Proof.
  unfold MemoriesSlice.filteredInSync. intros Hsync Hpass. cbv zeta. cbn.
  unfold MemoriesSlice.applyFilters in *. cbn [filter]. rewrite Hpass, <- Hsync.
  repeat split. intro H. apply (f_equal (@List.length _)) in H. cbn in H. lia.
Qed.

Lemma createMemory_shows_memory_twice_witness :
  let state' :=
    MemoriesSlice.reducer MemoriesSlice.initialState
      (MemoriesSlice.createMemory_fulfilled SliceScenario.picnic) in
  MemoriesSlice.memories state' = [SliceScenario.picnic]
  /\ MemoriesSlice.filteredMemories state' = [SliceScenario.picnic; SliceScenario.picnic]
  /\ MemoriesSlice.currentMemory state' = Some SliceScenario.picnic
  /\ ~ MemoriesSlice.filteredInSync state'.
Proof.
  apply (createMemory_shows_memory_twice MemoriesSlice.initialState SliceScenario.picnic);
    reflexivity.
Defined.

(** * The navigation slice *)

Lemma firstn_length_le {A : Type} (n : nat) (l : list A) :
  (List.length (firstn n l) <= n)%nat.
Proof.
  rewrite length_firstn. lia.
Qed.

Lemma navigation_reducer_invariant (state : NavigationSlice.NavigationState)
  (action : NavigationSlice.Action) :
  (List.length (NavigationSlice.recentRoutes state) <= 5)%nat
  /\ NavigationSlice.upcomingMemory state = None ->
  (List.length (NavigationSlice.recentRoutes (NavigationSlice.reducer state action)) <= 5)%nat
  /\ NavigationSlice.upcomingMemory (NavigationSlice.reducer state action) = None.
Proof.
  intros [Hlen Hup].
  destruct action;
    cbn [NavigationSlice.reducer NavigationSlice.recentRoutes
         NavigationSlice.upcomingMemory];
    try (split; assumption).
  - split; [exact Hlen|]. now destruct (NavigationSlice.truthy memoryId).
  - split; [|reflexivity].
    destruct (NavigationSlice.currentRoute state); [|exact Hlen].
    cbn [List.length].
    pose proof (firstn_length_le 4 (NavigationSlice.recentRoutes state)). lia.
Qed.

(** X20: whatever actions the navigation slice has handled since its
    initial state, the history of recent routes holds at most five routes,
    and [upcomingMemory] is null: no reducer ever stores a memory in it. *)
Theorem navigation_history_capped (actions : list NavigationSlice.Action) :
  let state := NavigationSlice.run NavigationSlice.initialState actions in
  (List.length (NavigationSlice.recentRoutes state) <= 5)%nat
  /\ NavigationSlice.upcomingMemory state = None.
Proof.
  cbv zeta. unfold NavigationSlice.run.
  assert (H : forall s,
            (List.length (NavigationSlice.recentRoutes s) <= 5)%nat
            /\ NavigationSlice.upcomingMemory s = None ->
            (List.length (NavigationSlice.recentRoutes
               (fold_left NavigationSlice.reducer actions s)) <= 5)%nat
            /\ NavigationSlice.upcomingMemory
                 (fold_left NavigationSlice.reducer actions s) = None).
  { induction actions as [|a r IH]; intros s Hs; [exact Hs|].
    cbn [fold_left]. apply IH. now apply navigation_reducer_invariant. }
  apply H. cbn. split; [lia | reflexivity].
Qed.

Lemma advance_once (state : NavigationSlice.NavigationState)
  (route : NavigationSlice.Route) :
  NavigationSlice.currentRoute state = Some route ->
  let state' := NavigationSlice.reducer state NavigationSlice.advanceToNextStep in
  NavigationSlice.currentRoute state' = Some route
  /\ NavigationSlice.currentStep state'
     = if (NavigationSlice.currentStep state + 1
           <? List.length (NavigationSlice.steps route))%nat
       then (NavigationSlice.currentStep state + 1)%nat
       else NavigationSlice.currentStep state.
Proof.
  intro Hr.
  cbn [NavigationSlice.reducer NavigationSlice.currentRoute NavigationSlice.currentStep].
  rewrite Hr. split; [reflexivity|].
  destruct (Z.ltb_spec (Z.of_nat (NavigationSlice.currentStep state))
              (Z.of_nat (List.length (NavigationSlice.steps route)) - 1));
    destruct (Nat.ltb_spec (NavigationSlice.currentStep state + 1)
                (List.length (NavigationSlice.steps route))); lia || reflexivity.
Qed.

(** X21: in the slice, advancing never leaves the route: from a step of the
    route, [n] advances lead to step [currentStep + n], or to the last step
    when that would pass it; the route is unchanged. *)
Theorem advanceToNextStep_stops_at_last_step
  (state : NavigationSlice.NavigationState) (route : NavigationSlice.Route) (n : nat) :
  NavigationSlice.currentRoute state = Some route ->
  (NavigationSlice.currentStep state < List.length (NavigationSlice.steps route))%nat ->
  let state' :=
    NavigationSlice.run state (repeat NavigationSlice.advanceToNextStep n) in
  NavigationSlice.currentRoute state' = Some route
  /\ NavigationSlice.currentStep state'
     = Nat.min (NavigationSlice.currentStep state + n)
         (List.length (NavigationSlice.steps route) - 1).
Proof.
  revert state. unfold NavigationSlice.run.
  induction n as [|n IH]; intros state Hr Hlt; cbv zeta.
  - cbn. split; [exact Hr | lia].
  - cbn [repeat fold_left].
    destruct (advance_once state route Hr) as [Hr' Hs'].
    revert Hs'.
    destruct (Nat.ltb_spec (NavigationSlice.currentStep state + 1)
                (List.length (NavigationSlice.steps route))) as [Hin|Hout];
      intro Hs'; (destruct (IH _ Hr') as [Hr'' Hs'']; [rewrite Hs'; lia|]);
      (split; [exact Hr''|]); rewrite Hs'', Hs'; lia.
Qed.

Lemma advanceToNextStep_stops_at_last_step_witness :
  let state' :=
    NavigationSlice.run SliceScenario.started
      (repeat NavigationSlice.advanceToNextStep 7) in
  NavigationSlice.currentRoute state' = Some SliceScenario.threeSteps
  /\ NavigationSlice.currentStep state'
     = Nat.min (NavigationSlice.currentStep SliceScenario.started + 7)
         (List.length (NavigationSlice.steps SliceScenario.threeSteps) - 1).
Proof.
  apply (advanceToNextStep_stops_at_last_step SliceScenario.started
           SliceScenario.threeSteps 7).
  - reflexivity.
  - simpl. lia.
Defined.

(** X22: the location thunk of the slice on an active session that is on a
    step of its route: it records the location, keeps the route and the
    session active, moves the step index on by at most one and never past
    the last step, and reports as remaining distance and time the sums over
    the steps from the one the session was on when the update began. *)
Theorem updateCurrentLocation_thunk
  (calculateDistance : Q -> Q -> Q -> Q -> Q)
  (state : NavigationSlice.NavigationState) (route : NavigationSlice.Route)
  (location : Coordinates) :
  NavigationSlice.activeNavigation state = true ->
  NavigationSlice.currentRoute state = Some route ->
  (NavigationSlice.currentStep state < List.length (NavigationSlice.steps route))%nat ->
  let remaining :=
    skipn (NavigationSlice.currentStep state) (NavigationSlice.steps route) in
  let state' :=
    NavigationSlice.run state
      (NavigationSlice.updateCurrentLocation calculateDistance state location) in
  NavigationSlice.currentLocation state' = Some location
  /\ NavigationSlice.currentRoute state' = Some route
  /\ NavigationSlice.activeNavigation state' = true
  /\ (NavigationSlice.currentStep state <= NavigationSlice.currentStep state'
      <= NavigationSlice.currentStep state + 1)%nat
  /\ (NavigationSlice.currentStep state' < List.length (NavigationSlice.steps route))%nat
  /\ NavigationSlice.distanceToDestination state'
     = Some (fold_left (fun sum step => sum + NavigationSlice.distance step) remaining 0)
  /\ NavigationSlice.timeToDestination state'
     = Some (fold_left (fun sum step => sum + NavigationSlice.duration step) remaining 0)
  /\ NavigationSlice.recentRoutes state' = NavigationSlice.recentRoutes state.
Proof.
  intros Ha Hr Hlt. cbv zeta.
  unfold NavigationSlice.updateCurrentLocation, NavigationSlice.run.
  rewrite Ha, Hr.
  set (notify := match NavigationSlice.nearest None _ with
                 | Some (nextMemory, currentDistance) => _
                 | None => []
                 end).
  assert (Hnotify : notify = [] \/ exists m dist, notify = [NavigationSlice.setUpcomingMemory m dist]).
  { unfold notify. destruct (NavigationSlice.nearest None _) as [[wp dist]|];
      [right; eauto | now left]. }
  set (reached := match nth_error (NavigationSlice.steps route) _ with
                  | Some nextStepData => _
                  | None => []
                  end).
  assert (Hreached : reached = [] \/ reached = [NavigationSlice.advanceToNextStep]).
  { unfold reached. destruct (nth_error _ _); [|now left].
    destruct (Qlt_bool _ 20); [now right | now left]. }
  clearbody notify reached.
  destruct Hnotify as [-> | (m & dist & ->)], Hreached as [-> | ->];
    cbn [app fold_left NavigationSlice.reducer NavigationSlice.currentLocation
         NavigationSlice.currentRoute NavigationSlice.activeNavigation
         NavigationSlice.currentStep NavigationSlice.distanceToDestination
         NavigationSlice.timeToDestination NavigationSlice.recentRoutes];
    rewrite ?Ha, ?Hr;
    repeat split; try lia;
    destruct (Z.ltb_spec (Z.of_nat (NavigationSlice.currentStep state))
                (Z.of_nat (List.length (NavigationSlice.steps route)) - 1)); lia.
Qed.

Lemma updateCurrentLocation_thunk_witness :
  let location := {| latitude := 0; longitude := 1 |} in
  let remaining :=
    skipn (NavigationSlice.currentStep SliceScenario.started)
      (NavigationSlice.steps SliceScenario.threeSteps) in
  let state' :=
    NavigationSlice.run SliceScenario.started
      (NavigationSlice.updateCurrentLocation SliceScenario.flatDistance
         SliceScenario.started location) in
  NavigationSlice.currentLocation state' = Some location
  /\ NavigationSlice.currentRoute state' = Some SliceScenario.threeSteps
  /\ NavigationSlice.activeNavigation state' = true
  /\ (NavigationSlice.currentStep SliceScenario.started
      <= NavigationSlice.currentStep state'
      <= NavigationSlice.currentStep SliceScenario.started + 1)%nat
  /\ (NavigationSlice.currentStep state'
      < List.length (NavigationSlice.steps SliceScenario.threeSteps))%nat
  /\ NavigationSlice.distanceToDestination state'
     = Some (fold_left (fun sum step => sum + NavigationSlice.distance step) remaining 0)
  /\ NavigationSlice.timeToDestination state'
     = Some (fold_left (fun sum step => sum + NavigationSlice.duration step) remaining 0)
  /\ NavigationSlice.recentRoutes state'
     = NavigationSlice.recentRoutes SliceScenario.started.
Proof.
  apply (updateCurrentLocation_thunk SliceScenario.flatDistance SliceScenario.started
           SliceScenario.threeSteps {| latitude := 0; longitude := 1 |}).
  - reflexivity.
  - reflexivity.
  - simpl. lia.
Defined.

(** X23: the [startNavigation] thunk of the slice ends in a fulfilled action
    only with a route that carries the requested id and is the current route
    or one of the alternatives, the current route being looked at first; it
    is rejected with "Selected route not found" exactly when no such route
    exists. *)
Theorem slice_startNavigation_selects_by_id
  (state : NavigationSlice.NavigationState) (routeId : string) :
  let offered :=
    match NavigationSlice.currentRoute state with
    | Some route => route :: NavigationSlice.alternativeRoutes state
    | None => NavigationSlice.alternativeRoutes state
    end in
  NavigationSlice.startNavigation state routeId
  = match find (fun route => String.eqb (NavigationSlice.id route) routeId) offered with
    | Some route => NavigationSlice.startNavigation_fulfilled route
    | None => NavigationSlice.startNavigation_rejected "Selected route not found"
    end
  /\ match find (fun route => String.eqb (NavigationSlice.id route) routeId) offered with
     | Some route =>
         NavigationSlice.id route = routeId /\ In route offered
         /\ let state' :=
              NavigationSlice.run state
                [NavigationSlice.startNavigation_pending;
                 NavigationSlice.startNavigation state routeId] in
            NavigationSlice.currentRoute state' = Some route
            /\ NavigationSlice.activeNavigation state' = true
            /\ NavigationSlice.currentStep state' = 0%nat
            /\ NavigationSlice.isLoading state' = false
     | None =>
         Forall (fun route => NavigationSlice.id route <> routeId) offered
         /\ let state' :=
              NavigationSlice.run state
                [NavigationSlice.startNavigation_pending;
                 NavigationSlice.startNavigation state routeId] in
            NavigationSlice.currentRoute state' = NavigationSlice.currentRoute state
            /\ NavigationSlice.activeNavigation state'
               = NavigationSlice.activeNavigation state
            /\ NavigationSlice.error state' = Some "Selected route not found"%string
     end.
Proof.
  cbv zeta.
  assert (Heq : NavigationSlice.startNavigation state routeId
    = match find (fun route => String.eqb (NavigationSlice.id route) routeId)
              (match NavigationSlice.currentRoute state with
               | Some route => route :: NavigationSlice.alternativeRoutes state
               | None => NavigationSlice.alternativeRoutes state
               end) with
      | Some route => NavigationSlice.startNavigation_fulfilled route
      | None => NavigationSlice.startNavigation_rejected "Selected route not found"
      end).
  { unfold NavigationSlice.startNavigation.
    destruct (NavigationSlice.currentRoute state) as [route|]; [|reflexivity].
    cbn [find]. destruct (String.eqb (NavigationSlice.id route) routeId); reflexivity. }
  split; [exact Heq|]. rewrite Heq.
  destruct (find _ _) as [route|] eqn:E.
  - apply find_some in E. destruct E as [Hin Hid]. apply String.eqb_eq in Hid.
    repeat split; assumption.
  - split; [|repeat split].
    apply Forall_forall. intros route Hin Hid.
    pose proof (find_none _ _ E route Hin) as Hne. cbv beta in Hne.
    apply String.eqb_neq in Hne. contradiction.
Qed.



(** * The nearby-memories endpoint *)

Lemma insertByDistance_perm (a : NearbyMemories.Found) (l : list NearbyMemories.Found) :
  Permutation (a :: l) (NearbyMemories.insertByDistance a l).
Proof.
  induction l as [|b r IH]; cbn [NearbyMemories.insertByDistance].
  - apply Permutation_refl.
  - destruct (Qle_bool _ 0).
    + apply Permutation_refl.
    + eapply perm_trans; [apply perm_swap|]. now apply perm_skip.
Qed.

Lemma sortByDistance_perm (l : list NearbyMemories.Found) :
  Permutation l (NearbyMemories.sortByDistance l).
Proof.
  induction l as [|a l IH]; cbn; [constructor|].
  eapply perm_trans; [apply perm_skip, IH|]. apply insertByDistance_perm.
Qed.

Lemma sortByDistance_sorted (l : list NearbyMemories.Found) :
  StronglySorted (fun a b => NearbyMemories.distance a <= NearbyMemories.distance b)
    (NearbyMemories.sortByDistance l).
Proof.
  induction l as [|a l IH]; cbn [NearbyMemories.sortByDistance fold_right];
    [constructor|].
  fold (NearbyMemories.sortByDistance l).
  induction IH as [|b r Hr IHr Hb]; cbn [NearbyMemories.insertByDistance].
  - repeat constructor.
  - destruct (Qle_bool _ 0) eqn:E.
    + apply Qle_bool_iff in E.
      constructor; [now constructor|]. constructor; [lra|].
      eapply Forall_impl; [|exact Hb]. intros y Hy. cbv beta in *. lra.
    + assert (Hlt : NearbyMemories.distance b < NearbyMemories.distance a).
      { apply Qnot_le_lt. intro Hle.
        assert (Ht : Qle_bool (NearbyMemories.distance a - NearbyMemories.distance b) 0
                     = true) by (apply Qle_bool_iff; lra).
        congruence. }
      constructor; [exact IHr|].
      eapply Permutation_Forall; [apply insertByDistance_perm|].
      constructor; [lra | exact Hb].
Qed.

Lemma withinRadius_spec (calculateDistance : Q -> Q -> Q -> Q -> Q)
  (lat lng radiusKm : Q) (docs : list NearbyMemories.Doc) :
  let near := fun doc =>
    Qle_bool (calculateDistance lat lng (NearbyMemories.doc_latitude doc)
                (NearbyMemories.doc_longitude doc)) radiusKm in
  let result := NearbyMemories.withinRadius calculateDistance lat lng radiusKm docs in
  map NearbyMemories.found result = filter near docs
  /\ Forall (fun m =>
        NearbyMemories.distance m
        = calculateDistance lat lng (NearbyMemories.doc_latitude (NearbyMemories.found m))
            (NearbyMemories.doc_longitude (NearbyMemories.found m))
        /\ NearbyMemories.distance m <= radiusKm) result.
Proof.
  cbv zeta. induction docs as [|doc r [IH1 IH2]]; cbn; [split; constructor|].
  destruct (Qle_bool _ radiusKm) eqn:E; [|now split].
  cbn. rewrite IH1. split; [reflexivity|].
  constructor; [|exact IH2]. cbn. split; [reflexivity|]. now apply Qle_bool_iff.
Qed.

(** X25: the endpoint answers a request that is not a GET with 405 whatever
    its query, and answers 200 only to a GET that names a user, a latitude
    and a longitude; the body of a 200 answer holds exactly the stored
    memories of that user within the radius (5 km when none is given), each
    with its distance, nearest first. *)
Theorem nearbyMemories_answer
  (parseFloat : string -> option Q) (calculateDistance : Q -> Q -> Q -> Q -> Q)
  (memoriesOf : string -> outcome (list NearbyMemories.Doc))
  (req : NearbyMemories.Request) :
  let resp := NearbyMemories.handler parseFloat calculateDistance memoriesOf req in
  (NearbyMemories.method req <> "GET"%string ->
   resp = {| NearbyMemories.status := 405;
             NearbyMemories.body := NearbyMemories.ErrorBody "Method not allowed" |})
  /\ (NearbyMemories.status resp <> 200%nat ->
      exists msg, NearbyMemories.body resp = NearbyMemories.ErrorBody msg)
  /\ (NearbyMemories.status resp = 200%nat ->
      exists user latitude longitude lat lng radiusKm docs found,
        NearbyMemories.method req = "GET"%string
        /\ NearbyMemories.userId (NearbyMemories.query req) = Some user
        /\ NearbyMemories.latitude (NearbyMemories.query req) = Some latitude
        /\ NearbyMemories.longitude (NearbyMemories.query req) = Some longitude
        /\ parseFloat latitude = Some lat /\ parseFloat longitude = Some lng
        /\ match NearbyMemories.radius (NearbyMemories.query req) with
           | Some r => parseFloat r
           | None => Some 5
           end = Some radiusKm
        /\ memoriesOf user = Returned docs
        /\ NearbyMemories.body resp = NearbyMemories.MemoriesBody found
        /\ StronglySorted (fun a b => NearbyMemories.distance a <= NearbyMemories.distance b)
             found
        /\ Forall (fun m =>
               NearbyMemories.distance m
               = calculateDistance lat lng
                   (NearbyMemories.doc_latitude (NearbyMemories.found m))
                   (NearbyMemories.doc_longitude (NearbyMemories.found m))
               /\ NearbyMemories.distance m <= radiusKm) found
        /\ Permutation (map NearbyMemories.found found)
             (filter (fun doc =>
                        Qle_bool (calculateDistance lat lng
                                    (NearbyMemories.doc_latitude doc)
                                    (NearbyMemories.doc_longitude doc)) radiusKm) docs)).
Proof.
  cbv zeta. unfold NearbyMemories.handler.
  destruct (String.eqb_spec (NearbyMemories.method req) "GET") as [Em|Em]; cbn [negb].
  2:{ split; [reflexivity|]. split; [eexists; reflexivity | cbn; discriminate]. }
  split; [intro H; contradiction|].
  destruct (NearbyMemories.userId (NearbyMemories.query req)) as [user|];
    cbn [NearbyMemories.missing orb];
    [|split; [eexists; reflexivity | cbn; discriminate]].
  destruct (String.eqb user ""); cbn [orb];
    [split; [eexists; reflexivity | cbn; discriminate]|].
  destruct (NearbyMemories.latitude (NearbyMemories.query req)) as [latitude|];
    cbn [NearbyMemories.missing orb];
    [|split; [eexists; reflexivity | cbn; discriminate]].
  destruct (String.eqb latitude ""); cbn [orb];
    [split; [eexists; reflexivity | cbn; discriminate]|].
  destruct (NearbyMemories.longitude (NearbyMemories.query req)) as [longitude|];
    cbn [NearbyMemories.missing orb];
    [|split; [eexists; reflexivity | cbn; discriminate]].
  destruct (String.eqb longitude "");
    [split; [eexists; reflexivity | cbn; discriminate]|].
  destruct (parseFloat latitude) as [lat|] eqn:Elat;
    [|split; [eexists; reflexivity | cbn; discriminate]].
  destruct (parseFloat longitude) as [lng|] eqn:Elng;
    [|split; [eexists; reflexivity | cbn; discriminate]].
  destruct (match NearbyMemories.radius (NearbyMemories.query req) with
            | Some r => parseFloat r
            | None => Some 5
            end) as [radiusKm|] eqn:Erad;
    [|split; [eexists; reflexivity | cbn; discriminate]].
  destruct (memoriesOf user) as [docs|msg] eqn:Edocs;
    [|split; [eexists; reflexivity | cbn; discriminate]].
  split; [cbn; intro H; contradiction|]. intros _.
  destruct (withinRadius_spec calculateDistance lat lng radiusKm docs) as [Hmap Hall].
  exists user, latitude, longitude, lat, lng, radiusKm, docs.
  eexists. repeat split; try reflexivity; try assumption.
  - apply sortByDistance_sorted.
  - eapply Permutation_Forall; [apply sortByDistance_perm | exact Hall].
  - rewrite <- Hmap. apply Permutation_map, Permutation_sym, sortByDistance_perm.
Qed.

Lemma nearbyMemories_answer_witness :
  let parseFloat := SliceScenario.readNumber in
  let calculateDistance := SliceScenario.kilometres in
  let req := SliceScenario.nearbyRequest in
  let resp :=
    NearbyMemories.handler parseFloat calculateDistance SliceScenario.stored req in
  exists user latitude longitude lat lng radiusKm docs found,
    NearbyMemories.method req = "GET"%string
    /\ NearbyMemories.userId (NearbyMemories.query req) = Some user
    /\ NearbyMemories.latitude (NearbyMemories.query req) = Some latitude
    /\ NearbyMemories.longitude (NearbyMemories.query req) = Some longitude
    /\ parseFloat latitude = Some lat /\ parseFloat longitude = Some lng
    /\ match NearbyMemories.radius (NearbyMemories.query req) with
       | Some r => parseFloat r
       | None => Some 5
       end = Some radiusKm
    /\ SliceScenario.stored user = Returned docs
    /\ NearbyMemories.body resp = NearbyMemories.MemoriesBody found
    /\ StronglySorted (fun a b => NearbyMemories.distance a <= NearbyMemories.distance b)
         found
    /\ Forall (fun m =>
           NearbyMemories.distance m
           = calculateDistance lat lng
               (NearbyMemories.doc_latitude (NearbyMemories.found m))
               (NearbyMemories.doc_longitude (NearbyMemories.found m))
           /\ NearbyMemories.distance m <= radiusKm) found
    /\ Permutation (map NearbyMemories.found found)
         (filter (fun doc =>
                    Qle_bool (calculateDistance lat lng
                                (NearbyMemories.doc_latitude doc)
                                (NearbyMemories.doc_longitude doc)) radiusKm) docs).
Proof.
  apply (proj2 (proj2 (nearbyMemories_answer SliceScenario.readNumber
           SliceScenario.kilometres SliceScenario.stored
           SliceScenario.nearbyRequest))).
  reflexivity.
Defined.
